(** * WhisperAPI transport client: a shallow embedding and its properties

    The Go client ([golang/whisper_client.go] and the two older variants of
    the same file kept in the repository) talks to a transcription backend
    over a TCP byte stream with 8-byte big-endian length-prefixed frames.

    The embedding is organised as follows.
    - [Wire]: bytes, [binary.BigEndian.PutUint64]/[Uint64] and the frame
      layout that [sendRequest] writes and reads.
    - [Env]: the outside world of the client (network peers, file system,
      clock, allocator) as an explicit, scripted state with an event trace.
    - [Go]: a small state monad with panics, Go's [(value, error)] results
      and [defer].
    - [Model] and [Prim]: the client's data and the library calls it makes.
    - [Mutex]: the code that is the same in [golang/whisper_client.go] and
      [unnamed/part_000]; [Golang], [Part000] and [Part001]: what each
      variant has of its own.
    - [Sched]: an interleaving semantics for concurrent callers, keeping only
      the lock operations and the wire operations of [sendRequest].
    - [Server]: the handlers of [golang/main.go], the callers of the client.

    The properties come in the order: the frame codec, the dial retry, the
    teardown after an I/O error, the facade operations, cancellation, paths,
    the language field, the counters, the stored connection, concurrent
    callers; then the life of the connection, the lock, the counters of the
    transport, and the server.

    Two things the environment leaves out bound what is stated.  A length
    that [make] does not survive is a panic here; the Go runtime panics for
    a length out of range but ends the process, running no deferred call,
    for one it cannot find the memory for.  And a peer is a finite script:
    its stream ends, by a close or by the deadline the variant has set.  So
    what is stated of a call that returns is stated for an announced length
    that is granted ([grants]), and of [unnamed/part_001], which sets no
    deadline and would wait for ever on a silent peer, the lock results say
    what holds once the call has returned. *)

From Stdlib Require Import ZArith NArith List Bool Lia.
From Stdlib.Strings Require Import String Ascii Byte.
Import ListNotations.

Set Warnings "-register-all".
Open Scope Z_scope.

(* ================================================================== *)
(** * Wire format *)
(* ================================================================== *)

Module Wire.

Definition bytes := list byte.

(** Go's [byte(v)] conversion of an integer: the low 8 bits. *)
Definition byte_of_Z (z : Z) : byte :=
  match Byte.of_N (Z.to_N (z mod 256)) with
  | Some b => b
  | None => x00
  end.

(** Go's [uint64(b)] conversion of a byte. *)
Definition Z_of_byte (b : byte) : Z := Z.of_N (Byte.to_N b).

(** [uint64(n)] for an [int] n: reduction modulo 2^64. *)
Definition uint64 (z : Z) : Z := z mod 2 ^ 64.

Definition headerSize : Z := 8.

(** [binary.BigEndian.PutUint64(b, v)] on a fresh [make([]byte, 8)]:
    [b[0] = byte(v >> 56)], ..., [b[7] = byte(v)]. *)
Definition PutUint64 (v : Z) : bytes :=
  [ byte_of_Z (Z.shiftr v 56); byte_of_Z (Z.shiftr v 48);
    byte_of_Z (Z.shiftr v 40); byte_of_Z (Z.shiftr v 32);
    byte_of_Z (Z.shiftr v 24); byte_of_Z (Z.shiftr v 16);
    byte_of_Z (Z.shiftr v 8);  byte_of_Z v ].

(** [b[i]] on a slice; the slices decoded below always have [headerSize]
    elements, so the default is never reached. *)
Definition at_ (b : bytes) (i : nat) : Z := Z_of_byte (nth i b x00).

(** [binary.BigEndian.Uint64(b)]:
    [uint64(b[7]) | uint64(b[6])<<8 | ... | uint64(b[0])<<56]. *)
Definition Uint64 (b : bytes) : Z :=
  Z.lor (at_ b 7)
  (Z.lor (Z.shiftl (at_ b 6) 8)
  (Z.lor (Z.shiftl (at_ b 5) 16)
  (Z.lor (Z.shiftl (at_ b 4) 24)
  (Z.lor (Z.shiftl (at_ b 3) 32)
  (Z.lor (Z.shiftl (at_ b 2) 40)
  (Z.lor (Z.shiftl (at_ b 1) 48)
         (Z.shiftl (at_ b 0) 56))))))).

(** [len(b)] as an integer. *)
Definition len {A} (l : list A) : Z := Z.of_nat (List.length l).

(** The request frame of [sendRequest]: the header
    [PutUint64(header, uint64(len(requestJSON)))] written first, then the
    payload itself. *)
Definition encodeHeader (payload : bytes) : bytes :=
  PutUint64 (uint64 (len payload)).

Definition encodeFrame (payload : bytes) : bytes :=
  encodeHeader payload ++ payload.

(** [io.ReadFull(conn, buf)] against the bytes still to come on a stream:
    the first [n] bytes and the rest, or a failure when the stream ends
    before [n] bytes have arrived. *)
Definition readFull (n : Z) (stream : bytes) : option (bytes * bytes) :=
  if n <=? len stream
  then Some (firstn (Z.to_nat n) stream, skipn (Z.to_nat n) stream)
  else None.

(** The response side of [sendRequest] as a function of the incoming
    stream: read [headerSize] bytes, take them as a big-endian length, read
    that many bytes. *)
Definition decodeFrame (stream : bytes) : option (bytes * bytes) :=
  match readFull headerSize stream with
  | None => None
  | Some (headerBuf, rest) => readFull (Uint64 headerBuf) rest
  end.

End Wire.

Import Wire.

(* ------------------------------------------------------------------ *)
(** ** Facts about the wire format *)

(** Settle every integer comparison of the goal that [lia] can decide. *)
Ltac decide_cmp :=
  repeat match goal with
         | |- context [?a <=? ?b] =>
             first [ rewrite (proj2 (Z.leb_le a b)) by lia
                   | rewrite (proj2 (Z.leb_gt a b)) by lia ]
         | |- context [?a <? ?b] =>
             first [ rewrite (proj2 (Z.ltb_lt a b)) by lia
                   | rewrite (proj2 (Z.ltb_ge a b)) by lia ]
         end.

Section WireFacts.

Lemma Z_of_byte_range (b : byte) : 0 <= Z_of_byte b < 256.
Proof.
  unfold Z_of_byte. pose proof (Byte.to_N_bounded b) as H.
  split; [apply N2Z.is_nonneg|]. lia.
Qed.

Lemma Z_of_byte_of_Z (z : Z) : Z_of_byte (byte_of_Z z) = z mod 256.
Proof.
  unfold Z_of_byte, byte_of_Z.
  assert (Hr : 0 <= z mod 256 < 256) by (apply Z.mod_pos_bound; lia).
  destruct (Byte.of_N (Z.to_N (z mod 256))) as [b|] eqn:E.
  - apply Byte.to_of_N in E. rewrite E. rewrite Z2N.id; lia.
  - apply Byte.of_N_None_iff in E. lia.
Qed.

Lemma byte_of_Z_of_byte (b : byte) : byte_of_Z (Z_of_byte b) = b.
Proof.
  unfold byte_of_Z, Z_of_byte.
  pose proof (Byte.to_N_bounded b) as H.
  rewrite Z.mod_small by lia. rewrite N2Z.id.
  now rewrite Byte.of_to_N.
Qed.

Lemma length_PutUint64 (v : Z) : List.length (PutUint64 v) = 8%nat.
Proof. reflexivity. Qed.

(** The k-th byte of the big-endian image carries bits [8k .. 8k+7]. *)
Lemma byte_slice_testbit (v k n : Z) :
  0 <= k -> 0 <= n ->
  Z.testbit (Z.shiftl (Z.shiftr v k mod 256) k) n =
  (k <=? n) && (n <? k + 8) && Z.testbit v n.
Proof.
  intros Hk Hn.
  destruct (Z.leb_spec k n) as [Hkn|Hkn]; simpl.
  - rewrite Z.shiftl_spec by lia.
    destruct (Z.ltb_spec n (k + 8)) as [Hlt|Hge]; simpl;
      change 256 with (2 ^ 8).
    + rewrite Z.mod_pow2_bits_low by lia.
      rewrite Z.shiftr_spec by lia. f_equal. lia.
    + rewrite Z.mod_pow2_bits_high by lia. reflexivity.
  - rewrite Z.shiftl_spec_low by lia. reflexivity.
Qed.

Lemma Uint64_PutUint64 (v : Z) : 0 <= v < 2 ^ 64 -> Uint64 (PutUint64 v) = v.
Proof.
  intros Hv. unfold Uint64, PutUint64, at_. cbn [nth].
  rewrite !Z_of_byte_of_Z.
  apply Z.bits_inj'. intros n Hn.
  rewrite <- (Z.shiftl_0_r (v mod 256)), <- (Z.shiftr_0_r v) at 1.
  rewrite !Z.lor_spec, !byte_slice_testbit by lia.
  destruct (Z.testbit v n) eqn:Hbit; [|now rewrite !andb_false_r].
  rewrite !andb_true_r.
  assert (Hlt : n < 64).
  { destruct (Z.ltb_spec n 64) as [Hlt|Hge]; [exact Hlt|].
    exfalso. assert (Z.testbit v n = false); [|congruence].
    destruct (Z.eq_dec v 0) as [->|Hnz]; [apply Z.bits_0|].
    apply Z.bits_above_log2; [lia|].
    apply Z.lt_le_trans with 64; [|lia].
    apply Z.log2_lt_pow2; lia. }
  assert (Hcase : n < 8 \/ 8 <= n < 16 \/ 16 <= n < 24 \/ 24 <= n < 32 \/
                  32 <= n < 40 \/ 40 <= n < 48 \/ 48 <= n < 56 \/ 56 <= n)
    by lia.
  destruct Hcase as [?|[?|[?|[?|[?|[?|[?|?]]]]]]]; decide_cmp; reflexivity.
Qed.

End WireFacts.

(* ================================================================== *)
(** * The client's environment *)
(* ================================================================== *)

Module Env.

Definition ConnId := nat.

(** What the far end of one TCP connection is going to do: the bytes it will
    deliver before the stream ends (by close or by deadline), and the
    outcome of the successive [Write] calls made on the connection. *)
Record Peer := mkPeer {
  p_inbound  : bytes;
  p_write_ok : list bool
}.

(** A connection of this process: what is left of its peer's script, and
    whether this end has closed it. *)
Record Conn := mkConn {
  inbound  : bytes;
  write_ok : list bool;
  closed   : bool
}.

Definition connect (p : Peer) : Conn := mkConn (p_inbound p) (p_write_ok p) false.

Inductive StatResult := StatOk | StatNotExist | StatOtherError.

(** Everything the process can observe of the outside, oldest event first. *)
Inductive Event :=
| EvDial (addr : string) (timeout : option Z) (r : option ConnId)
| EvSleep (d : Z)
| EvWrite (c : ConnId) (data : bytes) (ok : bool)
| EvMake (n : Z)
| EvReadFull (c : ConnId) (n : Z) (r : option bytes)
| EvClose (c : ConnId).

Record World := mkWorld {
  dial_script : list (option Peer); (* outcomes of the dial attempts to come *)
  conns     : list Conn;            (* connections dialled so far, by id *)
  trace     : list Event;
  now       : Z;                    (* monotonic clock, nanoseconds *)
  latency   : list Z;               (* time taken by the network calls to come *)
  mem_limit : Z;                    (* largest [make([]byte, n)] that succeeds *)
  fs_abs    : string -> option string;  (* [filepath.Abs] *)
  fs_stat   : string -> StatResult      (* [os.Stat], classified *)
}.

Definition set_net (w : World) (ds : list (option Peer)) (cs : list Conn)
    (ev : Event) : World :=
  mkWorld ds cs (trace w ++ [ev])
          (now w + hd 0 (latency w)) (tl (latency w))
          (mem_limit w) (fs_abs w) (fs_stat w).

Definition log_event (w : World) (ev : Event) : World :=
  mkWorld (dial_script w) (conns w) (trace w ++ [ev]) (now w) (latency w)
          (mem_limit w) (fs_abs w) (fs_stat w).

Fixpoint update {A} (l : list A) (i : nat) (x : A) : list A :=
  match l, i with
  | [], _ => []
  | _ :: t, O => x :: t
  | h :: t, S j => h :: update t j x
  end.

(** [net.Dial("tcp", addr)], [dialer.Dial("tcp", addr)] with a [Timeout], or
    [net.DialTimeout("tcp", addr, timeout)]. *)
Definition dial (addr : string) (timeout : option Z) (w : World)
    : option ConnId * World :=
  match dial_script w with
  | Some p :: ds =>
      let id := List.length (conns w) in
      (Some id, set_net w ds (conns w ++ [connect p])
                        (EvDial addr timeout (Some id)))
  | None :: ds => (None, set_net w ds (conns w) (EvDial addr timeout None))
  | [] => (None, set_net w [] (conns w) (EvDial addr timeout None))
  end.

(** [conn.Write(data)]: [true] when the whole slice was written. *)
Definition write (c : ConnId) (data : bytes) (w : World) : bool * World :=
  match nth_error (conns w) c with
  | Some p =>
      let ok := negb (closed p) && hd false (write_ok p) in
      (ok, set_net w (dial_script w)
             (update (conns w) c (mkConn (inbound p) (tl (write_ok p)) (closed p)))
             (EvWrite c data ok))
  | None => (false, set_net w (dial_script w) (conns w) (EvWrite c data false))
  end.

(** [io.ReadFull(conn, buf)] with [len(buf) = n]: the bytes read, or [None]
    for any error.  With an empty buffer it returns at once without
    touching the connection.  The error stands for the end of the stream
    before [n] bytes have come: the peer has closed, or the read deadline of
    the variant (5 s in [sendRequest] of golang/ and part_000, 30 min in
    [sendRequestWithContext]) has passed.  A read with no deadline on a peer
    that stays silent and open, which unnamed/part_001 can meet, never
    returns; no script describes such a peer. *)
Definition read_full (c : ConnId) (n : Z) (w : World) : option bytes * World :=
  if n =? 0 then (Some [], log_event w (EvReadFull c 0 (Some [])))
  else
    match nth_error (conns w) c with
    | Some p =>
        match (if closed p then None else readFull n (inbound p)) with
        | Some (buf, rest) =>
            (Some buf, set_net w (dial_script w)
                         (update (conns w) c (mkConn rest (write_ok p) (closed p)))
                         (EvReadFull c n (Some buf)))
        | None =>
            (None, set_net w (dial_script w)
                     (update (conns w) c (mkConn [] (write_ok p) (closed p)))
                     (EvReadFull c n None))
        end
    | None => (None, set_net w (dial_script w) (conns w) (EvReadFull c n None))
    end.

(** [conn.Close()]. *)
Definition close (c : ConnId) (w : World) : World :=
  match nth_error (conns w) c with
  | Some p =>
      mkWorld (dial_script w)
              (update (conns w) c (mkConn (inbound p) (write_ok p) true))
              (trace w ++ [EvClose c]) (now w) (latency w)
              (mem_limit w) (fs_abs w) (fs_stat w)
  | None => log_event w (EvClose c)
  end.

(** [time.Sleep(d)]. *)
Definition sleep (d : Z) (w : World) : World :=
  mkWorld (dial_script w) (conns w) (trace w ++ [EvSleep d]) (now w + d)
          (latency w) (mem_limit w) (fs_abs w) (fs_stat w).

(** [make([]byte, n)] for an unsigned 64-bit [n]: [true] when the slice is
    allocated, which is the case up to [mem_limit].  Beyond it the call does
    not come back: in Go by a panic for a length out of range, or by the
    end of the process for a length the memory cannot hold.  The one
    threshold does not tell the two apart. *)
Definition make_bytes (n : Z) (w : World) : bool * World :=
  (n <=? mem_limit w, log_event w (EvMake n)).

(** Is connection [c] open in [w]? *)
Definition is_open (w : World) (c : ConnId) : bool :=
  match nth_error (conns w) c with
  | Some p => negb (closed p)
  | None => false
  end.

(** The connection a wire event is on. *)
Definition io_conn (e : Event) : option ConnId :=
  match e with
  | EvWrite c _ _ | EvReadFull c _ _ => Some c
  | _ => None
  end.

Definition is_net (e : Event) : bool :=
  match e with
  | EvDial _ _ _ | EvWrite _ _ _ | EvReadFull _ _ _ | EvClose _ => true
  | _ => false
  end.

End Env.

Import Env.

(* ================================================================== *)
(** * Go control flow: state, panics, blocking, (value, error), defer *)
(* ================================================================== *)

Module Go.

(** How a call ends: it returns, it panics, or it blocks for ever on a lock
    nobody will release. *)
Inductive outcome (A : Type) :=
| Returns (a : A)
| Panics
| Blocks.
Arguments Returns {A} a.
Arguments Panics {A}.
Arguments Blocks {A}.

Definition M (S A : Type) : Type := S -> outcome A * S.

Definition ret {S A} (a : A) : M S A := fun s => (Returns a, s).

Definition bind {S A B} (m : M S A) (k : A -> M S B) : M S B :=
  fun s =>
    match m s with
    | (Returns a, s') => k a s'
    | (Panics, s') => (Panics, s')
    | (Blocks, s') => (Blocks, s')
    end.

Definition panic {S A} : M S A := fun s => (Panics, s).
Definition block {S A} : M S A := fun s => (Blocks, s).
Definition get {S} : M S S := fun s => (Returns s, s).
Definition gets {S A} (f : S -> A) : M S A := fun s => (Returns (f s), s).
Definition modify {S} (f : S -> S) : M S unit := fun s => (Returns tt, f s).

(** [defer cleanup; body]: the deferred call runs when the body returns and
    also while a panic unwinds; a goroutine blocked for ever never gets to
    it.  The deferred calls of this program do not recover. *)
Definition defer {S A} (cleanup : M S unit) (body : M S A) : M S A :=
  fun s =>
    match body s with
    | (Blocks, s') => (Blocks, s')
    | (r, s') =>
        match cleanup s' with
        | (Returns _, s'') => (r, s'')
        | (Panics, s'') => (Panics, s'')
        | (Blocks, s'') => (Blocks, s'')
        end
    end.

(** Go's [(T, error)] pair, of which exactly one side is meaningful. *)
Inductive result (E T : Type) :=
| Ok (t : T)
| Err (e : E).
Arguments Ok {E T} t.
Arguments Err {E T} e.

Definition is_Err {E T} (r : result E T) : bool :=
  match r with Err _ => true | Ok _ => false end.

End Go.

Import Go.

Declare Scope go_scope.
Delimit Scope go_scope with go.
Notation "x <- m ;; k" := (bind m (fun x => k))
  (at level 61, m at next level, right associativity) : go_scope.
Notation "m ;; k" := (bind m (fun _ => k))
  (at level 61, right associativity) : go_scope.

Open Scope go_scope.

(* ================================================================== *)
(** * Data model of the client *)
(* ================================================================== *)

Module Model.

(** [float64], kept as its IEEE-754 bit pattern: the client only carries
    such values from the decoder to the caller. *)
Definition float64 := Z.

(** A decoded [interface{}] value. *)
Inductive json :=
| JNull
| JBool (b : bool)
| JNumber (f : float64)
| JString (s : string)
| JArray (l : list json)
| JObject (m : list (string * json)).

Record Metrics := mkMetrics {
  RequestsTotal    : Z;
  ErrorsTotal      : Z;
  ProcessingTimeMs : Z
}.

(** [WhisperClient].  [conn = None] is the nil connection.  [connLock] is
    [true] while the mutex is held (for the variant whose lock is a
    one-slot channel: while the token is out of the channel).  The variant
    without metrics leaves [metrics] untouched; the [*http.Client] of
    golang/whisper_client.go is never used and is left out. *)
Record WhisperClient := mkClient {
  Host     : string;
  Port     : string;
  conn     : option ConnId;
  connLock : bool;
  metrics  : Metrics
}.

(** The request structs; [Language] is the [*string] field. *)
Inductive Request :=
| FileTranscriptionRequest
    (Command AudioPath Model : string) (Language : option string) (Task : string)
| DataTranscriptionRequest
    (Command AudioData Model : string) (Language : option string) (Task : string)
| TranscriptionRequest
    (Command AudioPath AudioData Model : string) (Language : option string)
    (Task : string)
| ModelsRequest (Command : string).

Record Segment := mkSegment {
  seg_Text  : string;
  seg_Start : float64;
  seg_End   : float64
}.

(** [TranscriptionResponse]; ['seg] is [Segment] in the two variants with
    metrics and a decoded JSON object in the third. *)
Record TranscriptionResponse (seg : Type) := mkTranscription {
  tr_Text           : string;
  tr_Language       : string;
  tr_Segments       : list seg;
  tr_ProcessingTime : float64;
  tr_Error          : string
}.
Arguments tr_Text {seg} _.
Arguments tr_Language {seg} _.
Arguments tr_Segments {seg} _.
Arguments tr_ProcessingTime {seg} _.
Arguments tr_Error {seg} _.
Arguments mkTranscription {seg} _ _ _ _ _.

Record ModelsResponse := mkModels {
  AvailableModels : list (string * string);
  LoadedModels    : list string;
  mr_Error        : string
}.

Inductive CtxErr := Canceled | DeadlineExceeded.

(** The errors the client returns.  [Errorf] stands for the wrapping calls
    [fmt.Errorf("<prefix>: %v", err)] and [errors.New("<prefix>" +
    err.Error())]; the prefixes are abbreviated in English. *)
Inductive error :=
| ErrConnect                 (* errors.New: no connection after the retries *)
| ErrDial                    (* what a failed dial returned *)
| ErrWrite                   (* what a failed conn.Write returned *)
| ErrRead                    (* what a failed io.ReadFull returned *)
| ErrMarshal                 (* what json.Marshal returned *)
| ErrUnmarshal               (* what json.Unmarshal returned *)
| ErrResponse (msg : string) (* errors.New(response.Error) *)
| ErrAbs                     (* what filepath.Abs returned *)
| ErrNotExist (path : string)
| ErrContext (e : CtxErr)    (* ctx.Err() *)
| Errorf (prefix : string) (cause : error).

(** A [context.Context]: the instant at which its [Done] channel closes, if
    ever, and the error it reports from then on. *)
Record Context := mkContext {
  done_at : option Z;
  ctx_Err : CtxErr
}.

Record State := mkState {
  client : WhisperClient;
  world  : World
}.

(** The library functions the client calls and this development does not
    look into. *)
Class GoLib := {
  (* encoding/json: a Go string as a JSON string literal *)
  json_quote : string -> bytes;
  (* json.Unmarshal into a zero TranscriptionResponse / ModelsResponse *)
  json_Unmarshal_Transcription : bytes -> option (TranscriptionResponse Segment);
  json_Unmarshal_TranscriptionMap : bytes -> option (TranscriptionResponse json);
  json_Unmarshal_Models : bytes -> option ModelsResponse;
  (* base64.StdEncoding.EncodeToString *)
  base64_EncodeToString : bytes -> string
}.

End Model.

Import Model.

(* ================================================================== *)
(** * Primitives shared by the three variants of the client *)
(* ================================================================== *)

Module Prim.

Section WithLib.
Context `{GoLib}.

Definition maxRetries : Z := 3.
Definition second : Z := 1000000000.
Definition minute : Z := 60 * second.
Definition retryTimeout : Z := 2 * second.
Definition connectTimeout : Z := 5 * second.

(** Two's-complement [int64] arithmetic of the counters. *)
Definition wrap64 (z : Z) : Z := (z + 2 ^ 63) mod 2 ^ 64 - 2 ^ 63.

(** An operation of the environment, run on the [world] component. *)
Definition liftW {A} (f : World -> A * World) : M State A :=
  fun s => let (a, w) := f (world s) in (Returns a, mkState (client s) w).

Definition doW (f : World -> World) : M State unit :=
  fun s => (Returns tt, mkState (client s) (f (world s))).

Definition set_conn (c : option ConnId) : M State unit :=
  modify (fun s =>
    mkState (mkClient (Host (client s)) (Port (client s)) c
                      (connLock (client s)) (metrics (client s)))
            (world s)).

Definition set_lock (b : bool) : M State unit :=
  modify (fun s =>
    mkState (mkClient (Host (client s)) (Port (client s)) (conn (client s))
                      b (metrics (client s)))
            (world s)).

Definition set_metrics (m : Metrics) : M State unit :=
  modify (fun s =>
    mkState (mkClient (Host (client s)) (Port (client s)) (conn (client s))
                      (connLock (client s)) m)
            (world s)).

(** [c.connLock.Lock()] on the [sync.Mutex]. *)
Definition mutex_Lock : M State unit :=
  held <- gets (fun s => connLock (client s)) ;;
  if held then block else set_lock true.

(** [c.connLock.Unlock()]; unlocking a free mutex is a fatal error. *)
Definition mutex_Unlock : M State unit :=
  held <- gets (fun s => connLock (client s)) ;;
  if held then set_lock false else panic.

(** [<-c.connLock] on the one-slot channel that holds one token. *)
Definition chan_recv : M State unit :=
  taken <- gets (fun s => connLock (client s)) ;;
  if taken then block else set_lock true.

(** [c.connLock <- struct{}{}]; it blocks while the slot is full. *)
Definition chan_send : M State unit :=
  taken <- gets (fun s => connLock (client s)) ;;
  if taken then set_lock false else block.

(** [atomic.AddInt64(&c.metrics.X, d)]. *)
Definition add_RequestsTotal (d : Z) : M State unit :=
  m <- gets (fun s => metrics (client s)) ;;
  set_metrics (mkMetrics (wrap64 (RequestsTotal m + d)) (ErrorsTotal m)
                         (ProcessingTimeMs m)).

Definition add_ErrorsTotal (d : Z) : M State unit :=
  m <- gets (fun s => metrics (client s)) ;;
  set_metrics (mkMetrics (RequestsTotal m) (wrap64 (ErrorsTotal m + d))
                         (ProcessingTimeMs m)).

Definition add_ProcessingTimeMs (d : Z) : M State unit :=
  m <- gets (fun s => metrics (client s)) ;;
  set_metrics (mkMetrics (RequestsTotal m) (ErrorsTotal m)
                         (wrap64 (ProcessingTimeMs m + d))).

(** [time.Now()], [time.Since(t)] and [Duration.Milliseconds()]. *)
Definition time_Now : M State Z := gets (fun s => now (world s)).
Definition time_Since (t : Z) : M State Z := gets (fun s => now (world s) - t).
Definition Milliseconds (d : Z) : Z := Z.quot d 1000000.

(** [log.Printf] writes to the process log, which is not part of the model. *)
Definition log_Printf : M State unit := ret tt.

(** [c.logRequest(command, duration, err)]: one [log.Printf] either way. *)
Definition logRequest (command : string) (duration : Z) (err : option error)
    : M State unit :=
  match err with
  | Some _ => log_Printf
  | None => log_Printf
  end.

Fixpoint has_colon (s : string) : bool :=
  match s with
  | EmptyString => false
  | String a r => Ascii.eqb a ":"%char || has_colon r
  end.

(** [net.JoinHostPort(host, port)]. *)
Definition JoinHostPort (host port : string) : string :=
  if has_colon host
  then ("[" ++ host ++ "]:" ++ port)%string
  else (host ++ ":" ++ port)%string.

Definition addr_of (s : State) : string :=
  JoinHostPort (Host (client s)) (Port (client s)).

(** A method call on [c.conn]; on the nil interface it panics. *)
Definition on_conn {A} (f : ConnId -> M State A) : M State A :=
  c <- gets (fun s => conn (client s)) ;;
  match c with
  | Some id => f id
  | None => panic
  end.

(** [c.conn.Write(b)], reporting the error if any. *)
Definition conn_Write (b : bytes) : M State (option error) :=
  on_conn (fun id =>
    ok <- liftW (write id b) ;;
    ret (if ok then None else Some ErrWrite)).

(** [io.ReadFull(c.conn, buf)] for [buf] of length [n]. *)
Definition conn_ReadFull (n : Z) : M State (result error bytes) :=
  on_conn (fun id =>
    r <- liftW (read_full id n) ;;
    ret (match r with Some b => Ok b | None => Err ErrRead end)).

(** [make([]byte, n)].  A length that is not granted is a panic, the one
    of the two ways of not coming back that the monad has; the end of the
    process, after which no deferred call runs, has no outcome of its own. *)
Definition make (n : Z) : M State unit :=
  ok <- liftW (make_bytes n) ;;
  if ok then ret tt else panic.

(** [c.conn.SetWriteDeadline], [SetReadDeadline], [SetDeadline]: a deadline
    only decides when the environment lets a blocked call fail, which the
    scripted peer already fixes (its stream ends, its writes fail); the call
    itself needs a non-nil [c.conn].  The durations are not kept, and
    unnamed/part_001 makes no such call: that a call comes back from a
    silent peer is meant of the variants that set a deadline. *)
Definition conn_SetDeadline : M State unit := on_conn (fun _ => ret tt).

(** ** encoding/json on the request structs *)

Definition member (key value : string) : string * string := (key, value).

Definition omitempty (key value : string) : list (string * string) :=
  if String.eqb value "" then [] else [member key value].

(** A [*string] field with [omitempty]: left out for the nil pointer only. *)
Definition omitnil (key : string) (value : option string)
    : list (string * string) :=
  match value with
  | None => []
  | Some v => [member key v]
  end.

(** The members of the JSON object of a request, in struct order, after the
    [json:"..."] tags. *)
Definition members (r : Request) : list (string * string) :=
  match r with
  | FileTranscriptionRequest command path model language task =>
      [member "command" command; member "audio_path" path]
      ++ omitempty "model" model ++ omitnil "language" language
      ++ omitempty "task" task
  | DataTranscriptionRequest command data model language task =>
      [member "command" command; member "audio_data" data]
      ++ omitempty "model" model ++ omitnil "language" language
      ++ omitempty "task" task
  | TranscriptionRequest command path data model language task =>
      [member "command" command]
      ++ omitempty "audio_path" path ++ omitempty "audio_data" data
      ++ omitempty "model" model ++ omitnil "language" language
      ++ omitempty "task" task
  | ModelsRequest command => [member "command" command]
  end.

Definition ascii_bytes (s : string) : bytes := list_byte_of_string s.

Definition render_member (kv : string * string) : bytes :=
  json_quote (fst kv) ++ ascii_bytes ":" ++ json_quote (snd kv).

Fixpoint render_members (l : list (string * string)) : bytes :=
  match l with
  | [] => []
  | [kv] => render_member kv
  | kv :: rest => render_member kv ++ ascii_bytes "," ++ render_members rest
  end.

(** [json.Marshal(request)]; it cannot fail on structs of strings. *)
Definition json_Marshal (r : Request) : result error bytes :=
  Ok (ascii_bytes "{" ++ render_members (members r) ++ ascii_bytes "}").

End WithLib.

End Prim.

Import Prim.

(* ================================================================== *)
(** * The client with a mutex and metrics

    The functions of this module read the same, line for line, in
    golang/whisper_client.go and in the variant unnamed/part_000. *)
(* ================================================================== *)

Module Mutex.

Section WithLib.
Context `{GoLib}.

(** The [for i := 0; i < maxRetries; i++] loop of [ensureConnection], with
    [remaining = maxRetries - i] iterations still to run. *)
Fixpoint dialLoop (remaining : nat) : M State (option error) :=
  match remaining with
  | O => ret (Some ErrConnect)
  | S k =>
      let i := maxRetries - Z.of_nat remaining in
      addr <- gets addr_of ;;
      r <- liftW (dial addr (Some connectTimeout)) ;;
      set_conn r ;;
      match r with
      | Some _ => ret None
      | None =>
          log_Printf ;;
          (if i <? maxRetries - 1 then doW (sleep retryTimeout) else ret tt) ;;
          dialLoop k
      end
  end.

Definition ensureConnection : M State (option error) :=
  mutex_Lock ;;
  defer mutex_Unlock (
    c <- gets (fun s => conn (client s)) ;;
    match c with
    | Some _ => ret None
    | None => dialLoop (Z.to_nat maxRetries)
    end).

Definition closeConnection : M State unit :=
  mutex_Lock ;;
  defer mutex_Unlock (
    c <- gets (fun s => conn (client s)) ;;
    match c with
    | Some id => doW (close id) ;; set_conn None
    | None => ret tt
    end).

Definition handleResponse (responseData : bytes)
    : M State (result error (TranscriptionResponse Segment)) :=
  match json_Unmarshal_Transcription responseData with
  | None => add_ErrorsTotal 1 ;; ret (Err ErrUnmarshal)
  | Some response =>
      if negb (String.eqb (tr_Error response) "")
      then add_ErrorsTotal 1 ;; ret (Err (ErrResponse (tr_Error response)))
      else ret (Ok response)
  end.

(** The deferred function of [sendRequest] and [sendRequestWithContext]. *)
Definition record_duration (startTime : Z) : M State unit :=
  duration <- time_Since startTime ;;
  add_ProcessingTimeMs (Milliseconds duration) ;;
  logRequest "sendRequest" duration None.

Definition sendRequest (requestData : Request) : M State (result error bytes) :=
  startTime <- time_Now ;;
  add_RequestsTotal 1 ;;
  defer (record_duration startTime) (
    e <- ensureConnection ;;
    match e with
    | Some err => ret (Err err)
    | None =>
    match json_Marshal requestData with
    | Err err => ret (Err err)
    | Ok requestJSON =>
    let requestLen := len requestJSON in
    let header := PutUint64 (uint64 requestLen) in
    conn_SetDeadline ;;
    e <- conn_Write header ;;
    match e with
    | Some err => closeConnection ;; ret (Err err)
    | None =>
    e <- conn_Write requestJSON ;;
    match e with
    | Some err => closeConnection ;; ret (Err err)
    | None =>
    conn_SetDeadline ;;
    conn_SetDeadline ;;
    r <- conn_ReadFull headerSize ;;
    match r with
    | Err err => closeConnection ;; ret (Err err)
    | Ok headerBuf =>
    let responseLen := Uint64 headerBuf in
    make responseLen ;;
    r <- conn_ReadFull responseLen ;;
    match r with
    | Err err => closeConnection ;; ret (Err err)
    | Ok responseBuf =>
    conn_SetDeadline ;;
    ret (Ok responseBuf)
    end end end end end end).

Definition TranscribeData (audioData : bytes) (model : string)
    (language : option string) (task : string)
    : M State (result error (TranscriptionResponse Segment)) :=
  let language :=
    match language with
    | Some l => if String.eqb l "" then None else language
    | None => language
    end in
  let encodedData := base64_EncodeToString audioData in
  let request :=
    DataTranscriptionRequest "transcribe" encodedData model language task in
  r <- sendRequest request ;;
  match r with
  | Err err => ret (Err err)
  | Ok responseData => handleResponse responseData
  end.

(** Is [ctx.Done()] closed at this instant? *)
Definition ctx_is_done (ctx : Context) : M State bool :=
  t <- time_Now ;;
  ret (match done_at ctx with
       | Some d => d <=? t
       | None => false
       end).

Definition TranscribeDataWithContext (ctx : Context) (audioData : bytes)
    (model : string) (language : option string) (task : string)
    : M State (result error (TranscriptionResponse Segment)) :=
  done <- ctx_is_done ctx ;;
  if done then ret (Err (ErrContext (ctx_Err ctx)))
  else TranscribeData audioData model language task.

Definition ListModels : M State (result error ModelsResponse) :=
  let request := ModelsRequest "list_models" in
  r <- sendRequest request ;;
  match r with
  | Err err => ret (Err err)
  | Ok responseData =>
      match json_Unmarshal_Models responseData with
      | None => ret (Err ErrUnmarshal)
      | Some response =>
          if negb (String.eqb (mr_Error response) "")
          then ret (Err (ErrResponse (mr_Error response)))
          else ret (Ok response)
      end
  end.


Definition Close : M State unit := closeConnection.

(** [NewWhisperClient(host, port)]: the client of the state becomes a new
    one, with the zero values for the connection, the mutex and the
    counters.  (golang/whisper_client.go also builds the [*http.Client]
    that no method uses.) *)
Definition NewWhisperClient (host port : string) : M State unit :=
  modify (fun s =>
    mkState (mkClient host port None false (mkMetrics 0 0 0)) (world s)).

End WithLib.

End Mutex.

(* ================================================================== *)
(** * golang/whisper_client.go: what it adds to [Mutex] *)
(* ================================================================== *)

Module Golang.

Section WithLib.
Context `{GoLib}.

(** [context.WithTimeout(context.Background(), d)]. *)
Definition context_WithTimeout (d : Z) : M State Context :=
  t <- time_Now ;;
  ret (mkContext (Some (t + d)) DeadlineExceeded).

(** The context argument is the blank identifier: the body never reads it.
    The connection is a local of the call, closed by a deferred
    [conn.Close()]. *)
Definition sendRequestWithContext (_ : Context) (request : Request)
    : M State (result error bytes) :=
  startTime <- time_Now ;;
  add_RequestsTotal 1 ;;
  defer (Mutex.record_duration startTime) (
    match json_Marshal request with
    | Err err => ret (Err (Errorf "marshal request" err))
    | Ok requestJSON =>
    addr <- gets addr_of ;;
    c <- liftW (dial addr (Some (30 * second))) ;;
    match c with
    | None => ret (Err (Errorf "dial" ErrDial))
    | Some conn =>
    defer (doW (close conn)) (
      let header := PutUint64 (uint64 (len requestJSON)) in
      ok <- liftW (write conn header) ;;
      if negb ok then ret (Err (Errorf "write header" ErrWrite)) else
      ok <- liftW (write conn requestJSON) ;;
      if negb ok then ret (Err (Errorf "write data" ErrWrite)) else
      r <- liftW (read_full conn 8) ;;
      match r with
      | None => ret (Err (Errorf "read response header" ErrRead))
      | Some headerBuf =>
      let responseLen := Uint64 headerBuf in
      make responseLen ;;
      r <- liftW (read_full conn responseLen) ;;
      match r with
      | None => ret (Err (Errorf "read response" ErrRead))
      | Some responseBuf => ret (Ok responseBuf)
      end end)
    end end).

Definition Transcribe (audioPath model : string) (language : option string)
    (task : string) : M State (result error (TranscriptionResponse Segment)) :=
  a <- gets (fun s => fs_abs (world s) audioPath) ;;
  match a with
  | None => ret (Err (Errorf "absolute path" ErrAbs))
  | Some absPath =>
  st <- gets (fun s => fs_stat (world s) absPath) ;;
  match st with
  | StatNotExist => ret (Err (ErrNotExist absPath))
  | _ =>
  let language :=
    match language with
    | Some l => if String.eqb l "" then None else language
    | None => language
    end in
  let request :=
    FileTranscriptionRequest "transcribe" absPath model language task in
  ctx <- context_WithTimeout (30 * minute) ;;
  r <- sendRequestWithContext ctx request ;;
  match r with
  | Err err => ret (Err (Errorf "send request" err))
  | Ok responseData => Mutex.handleResponse responseData
  end end end.

Definition TranscribeWithContext (ctx : Context) (audioPath model : string)
    (language : option string) (task : string)
    : M State (result error (TranscriptionResponse Segment)) :=
  done <- Mutex.ctx_is_done ctx ;;
  if done then ret (Err (ErrContext (ctx_Err ctx)))
  else Transcribe audioPath model language task.

End WithLib.

End Golang.

(* ================================================================== *)
(** * unnamed/part_000: what it adds to [Mutex] *)
(* ================================================================== *)

Module Part000.

Section WithLib.
Context `{GoLib}.

Definition Transcribe (audioPath model : string) (language : option string)
    (task : string) : M State (result error (TranscriptionResponse Segment)) :=
  a <- gets (fun s => fs_abs (world s) audioPath) ;;
  match a with
  | None => ret (Err (Errorf "absolute path" ErrAbs))
  | Some absPath =>
  let language :=
    match language with
    | Some l => if String.eqb l "" then None else language
    | None => language
    end in
  let request :=
    FileTranscriptionRequest "transcribe" absPath model language task in
  r <- Mutex.sendRequest request ;;
  match r with
  | Err err => ret (Err err)
  | Ok responseData => Mutex.handleResponse responseData
  end end.

Definition TranscribeWithContext (ctx : Context) (audioPath model : string)
    (language : option string) (task : string)
    : M State (result error (TranscriptionResponse Segment)) :=
  done <- Mutex.ctx_is_done ctx ;;
  if done then ret (Err (ErrContext (ctx_Err ctx)))
  else Transcribe audioPath model language task.

End WithLib.

End Part000.

(* ================================================================== *)
(** * unnamed/part_001: one-slot channel as the lock, no metrics *)
(* ================================================================== *)

Module Part001.

Section WithLib.
Context `{GoLib}.

Fixpoint dialLoop (remaining : nat) : M State (option error) :=
  match remaining with
  | O => ret (Some ErrConnect)
  | S k =>
      let i := maxRetries - Z.of_nat remaining in
      addr <- gets addr_of ;;
      r <- liftW (dial addr None) ;;
      set_conn r ;;
      match r with
      | Some _ => ret None
      | None =>
          log_Printf ;;
          (if i <? maxRetries - 1 then doW (sleep retryTimeout) else ret tt) ;;
          dialLoop k
      end
  end.

Definition ensureConnection : M State (option error) :=
  c <- gets (fun s => conn (client s)) ;;
  match c with
  | Some _ => ret None
  | None => dialLoop (Z.to_nat maxRetries)
  end.

Definition closeConnection : M State unit :=
  c <- gets (fun s => conn (client s)) ;;
  match c with
  | Some id => doW (close id) ;; set_conn None
  | None => ret tt
  end.

Definition sendRequest (requestData : Request) : M State (result error bytes) :=
  chan_recv ;;
  defer chan_send (
    e <- ensureConnection ;;
    match e with
    | Some err => ret (Err err)
    | None =>
    match json_Marshal requestData with
    | Err err => ret (Err err)
    | Ok requestJSON =>
    let requestLen := len requestJSON in
    let header := PutUint64 (uint64 requestLen) in
    e <- conn_Write header ;;
    match e with
    | Some err => closeConnection ;; ret (Err err)
    | None =>
    e <- conn_Write requestJSON ;;
    match e with
    | Some err => closeConnection ;; ret (Err err)
    | None =>
    r <- conn_ReadFull headerSize ;;
    match r with
    | Err err => closeConnection ;; ret (Err err)
    | Ok headerBuf =>
    let responseLen := Uint64 headerBuf in
    make responseLen ;;
    r <- conn_ReadFull responseLen ;;
    match r with
    | Err err => closeConnection ;; ret (Err err)
    | Ok responseBuf => ret (Ok responseBuf)
    end end end end end end).

Definition Transcribe (audioPath model : string) (language : option string)
    (task : string) : M State (result error (TranscriptionResponse json)) :=
  a <- gets (fun s => fs_abs (world s) audioPath) ;;
  match a with
  | None => ret (Err (Errorf "absolute path" ErrAbs))
  | Some absPath =>
  let request :=
    TranscriptionRequest "transcribe" absPath "" model language task in
  r <- sendRequest request ;;
  match r with
  | Err err => ret (Err err)
  | Ok responseData =>
      match json_Unmarshal_TranscriptionMap responseData with
      | None => ret (Err ErrUnmarshal)
      | Some response =>
          if negb (String.eqb (tr_Error response) "")
          then ret (Err (ErrResponse (tr_Error response)))
          else ret (Ok response)
      end
  end end.

Definition TranscribeData (audioData : bytes) (model : string)
    (language : option string) (task : string)
    : M State (result error (TranscriptionResponse json)) :=
  let encodedData := base64_EncodeToString audioData in
  let request :=
    TranscriptionRequest "transcribe" "" encodedData model language task in
  r <- sendRequest request ;;
  match r with
  | Err err => ret (Err err)
  | Ok responseData =>
      match json_Unmarshal_TranscriptionMap responseData with
      | None => ret (Err ErrUnmarshal)
      | Some response =>
          if negb (String.eqb (tr_Error response) "")
          then ret (Err (ErrResponse (tr_Error response)))
          else ret (Ok response)
      end
  end.

Definition ListModels : M State (result error ModelsResponse) :=
  let request := ModelsRequest "list_models" in
  r <- sendRequest request ;;
  match r with
  | Err err => ret (Err err)
  | Ok responseData =>
      match json_Unmarshal_Models responseData with
      | None => ret (Err ErrUnmarshal)
      | Some response =>
          if negb (String.eqb (mr_Error response) "")
          then ret (Err (ErrResponse (mr_Error response)))
          else ret (Ok response)
      end
  end.

Definition Close : M State unit :=
  chan_recv ;; defer chan_send closeConnection.

(** [NewWhisperClient(host, port)]: the new client has
    [make(chan struct{}, 1)], an empty channel, as its lock; the token is
    then put into it by [client.connLock <- struct{}{}]. *)
Definition NewWhisperClient (host port : string) : M State unit :=
  modify (fun s =>
    mkState (mkClient host port None true (metrics (client s))) (world s)) ;;
  chan_send.

End WithLib.

End Part001.

(* ================================================================== *)
(** * Facts about the environment and the control-flow combinators *)
(* ================================================================== *)

Section EnvFacts.

Lemma length_update {A} (l : list A) i x :
  List.length (update l i x) = List.length l.
Proof.
  revert i; induction l as [|h t IH]; intros [|j]; simpl; auto.
Qed.

Lemma nth_error_update_eq {A} (l : list A) i x y :
  nth_error l i = Some y -> nth_error (update l i x) i = Some x.
Proof.
  revert i; induction l as [|h t IH]; intros [|j]; simpl; try discriminate; auto.
Qed.

Lemma nth_error_update_neq {A} (l : list A) i j x :
  i <> j -> nth_error (update l i x) j = nth_error l j.
Proof.
  revert i j; induction l as [|h t IH]; intros [|i] [|j] Hne; simpl; auto.
  congruence.
Qed.

Lemma update_update {A} (l : list A) i x y :
  update (update l i x) i y = update l i y.
Proof.
  revert i; induction l as [|h t IH]; intros [|j]; simpl; auto.
  now rewrite IH.
Qed.

Lemma nth_error_snoc_new {A} (l : list A) x :
  nth_error (l ++ [x]) (List.length l) = Some x.
Proof.
  rewrite nth_error_app2 by lia. now rewrite Nat.sub_diag.
Qed.

Lemma nth_error_snoc_old {A} (l : list A) x i :
  i <> List.length l -> nth_error (l ++ [x]) i = nth_error l i.
Proof.
  intros Hne. destruct (Nat.lt_ge_cases i (List.length l)) as [Hlt|Hge].
  - now rewrite nth_error_app1.
  - rewrite nth_error_app2 by lia.
    destruct (i - List.length l)%nat as [|k] eqn:E; [lia|].
    simpl. assert (nth_error l i = None) as -> by (apply nth_error_None; lia).
    now destruct k.
Qed.

(** Only [close] changes whether a connection is open, and only for the
    connection closed; [dial] adds a fresh, open one. *)

Lemma is_open_write c b w c' : is_open (snd (write c b w)) c' = is_open w c'.
Proof.
  unfold write, is_open.
  destruct (nth_error (conns w) c) as [p|] eqn:E; simpl; auto.
  destruct (Nat.eq_dec c c') as [->|Hne].
  - rewrite (nth_error_update_eq _ _ _ _ E), E. reflexivity.
  - now rewrite nth_error_update_neq.
Qed.

Lemma is_open_read_full c n w c' :
  is_open (snd (read_full c n w)) c' = is_open w c'.
Proof.
  unfold read_full, is_open.
  destruct (n =? 0); simpl; auto.
  destruct (nth_error (conns w) c) as [p|] eqn:E; simpl; auto.
  destruct (if closed p then None else readFull n (inbound p)) as [[buf rest]|];
    simpl;
    (destruct (Nat.eq_dec c c') as [->|Hne];
     [ rewrite (nth_error_update_eq _ _ _ _ E), E; reflexivity
     | now rewrite nth_error_update_neq ]).
Qed.

Lemma is_open_close_same c w : is_open (close c w) c = false.
Proof.
  unfold close, is_open.
  destruct (nth_error (conns w) c) as [p|] eqn:E; simpl.
  - now rewrite (nth_error_update_eq _ _ _ _ E).
  - now rewrite E.
Qed.

Lemma is_open_close_other c w c' :
  c <> c' -> is_open (close c w) c' = is_open w c'.
Proof.
  intros Hne. unfold close, is_open.
  destruct (nth_error (conns w) c) as [p|] eqn:E; simpl; auto.
  now rewrite nth_error_update_neq.
Qed.

Lemma is_open_sleep d w c : is_open (sleep d w) c = is_open w c.
Proof. reflexivity. Qed.

Lemma is_open_make n w c : is_open (snd (make_bytes n w)) c = is_open w c.
Proof. reflexivity. Qed.

Lemma is_open_bound w c : is_open w c = true -> (c < List.length (conns w))%nat.
Proof.
  unfold is_open. destruct (nth_error (conns w) c) eqn:E; [|discriminate].
  intros _. apply nth_error_Some. congruence.
Qed.

Lemma dial_fail addr t w w' :
  dial addr t w = (None, w') ->
  conns w' = conns w /\ trace w' = trace w ++ [EvDial addr t None].
Proof.
  unfold dial. destruct (dial_script w) as [|[p|] ds]; intros E;
    inversion E; subst; simpl; auto.
Qed.

Lemma dial_success addr t w id w' :
  dial addr t w = (Some id, w') ->
  id = List.length (conns w) /\
  trace w' = trace w ++ [EvDial addr t (Some id)] /\
  is_open w' id = true /\
  (forall c, c <> id -> is_open w' c = is_open w c).
Proof.
  unfold dial. destruct (dial_script w) as [|[p|] ds]; intros E;
    inversion E; subst; simpl.
  split; [reflexivity|]. split; [reflexivity|]. split.
  - unfold is_open; simpl. now rewrite nth_error_snoc_new.
  - intros c Hc. unfold is_open; simpl. now rewrite nth_error_snoc_old.
Qed.

End EnvFacts.

Section MonadFacts.

Context {S : Type}.

Lemma bind_Returns {A B} (m : M S A) (k : A -> M S B) s a s' :
  m s = (Returns a, s') -> bind m k s = k a s'.
Proof. unfold bind. now intros ->. Qed.

Lemma bind_ret_l {A B} (a : A) (k : A -> M S B) s : bind (ret a) k s = k a s.
Proof. reflexivity. Qed.

Lemma bind_assoc {A B C} (m : M S A) (k : A -> M S B) (h : B -> M S C) s :
  bind (bind m k) h s = bind m (fun a => bind (k a) h) s.
Proof.
  unfold bind. destruct (m s) as [[a| |] s']; reflexivity.
Qed.

End MonadFacts.

(* ================================================================== *)
(** * Reasoning about calls: weakest preconditions *)
(* ================================================================== *)

(** [run m s Q]: the call [m] started in [s] ends in an outcome and a state
    that satisfy [Q]. *)
Definition run {A} (m : M State A) (s : State)
    (Q : outcome A -> State -> Prop) : Prop :=
  Q (fst (m s)) (snd (m s)).

Section RunRules.

Context {A B : Type}.

Lemma run_ret (a : A) s Q : Q (Returns a) s -> run (ret a) s Q.
Proof. exact (fun H => H). Qed.

Lemma run_bind (m : M State A) (k : A -> M State B) s Q :
  run m s (fun o s1 =>
    match o with
    | Returns a => run (k a) s1 Q
    | Panics => Q Panics s1
    | Blocks => Q Blocks s1
    end) ->
  run (bind m k) s Q.
Proof.
  unfold run, bind. destruct (m s) as [[a| |] s1]; simpl; auto.
Qed.

Lemma run_defer (cleanup : M State unit) (body : M State A) s Q :
  run body s (fun o s1 =>
    match o with
    | Blocks => Q Blocks s1
    | r => run cleanup s1 (fun o2 s2 =>
             match o2 with
             | Returns _ => Q r s2
             | Panics => Q Panics s2
             | Blocks => Q Blocks s2
             end)
    end) ->
  run (defer cleanup body) s Q.
Proof.
  unfold run, defer. destruct (body s) as [[a| |] s1]; simpl; auto;
    destruct (cleanup s1) as [[u| |] s2]; simpl; auto.
Qed.

Lemma run_conseq (m : M State A) s (Q Q' : outcome A -> State -> Prop) :
  run m s Q -> (forall o s', Q o s' -> Q' o s') -> run m s Q'.
Proof. unfold run. auto. Qed.

Lemma run_intro (m : M State A) s Q :
  (forall o s', m s = (o, s') -> Q o s') -> run m s Q.
Proof. unfold run. intros H. apply H. now destruct (m s). Qed.

Lemma run_elim (m : M State A) s Q o s' :
  run m s Q -> m s = (o, s') -> Q o s'.
Proof. unfold run. intros H E. now rewrite E in H. Qed.

End RunRules.

(** The parts of a state that only the lock, the counters or a dial ever
    change. *)
Definition lock_free (s : State) : Prop := connLock (client s) = false.

Definition same_static (s s' : State) : Prop :=
  Host (client s') = Host (client s) /\
  Port (client s') = Port (client s) /\
  mem_limit (world s') = mem_limit (world s) /\
  fs_abs (world s') = fs_abs (world s) /\
  fs_stat (world s') = fs_stat (world s).

Definition open_at (s : State) (c : ConnId) : bool := is_open (world s) c.

Definition extends (s s' : State) (evs : list Event) : Prop :=
  trace (world s') = trace (world s) ++ evs.

Lemma same_static_refl s : same_static s s.
Proof. repeat split. Qed.

Lemma same_static_trans s1 s2 s3 :
  same_static s1 s2 -> same_static s2 s3 -> same_static s1 s3.
Proof.
  unfold same_static. intros (?&?&?&?&?) (?&?&?&?&?).
  repeat split; congruence.
Qed.

Lemma extends_refl s : extends s s [].
Proof. unfold extends. now rewrite app_nil_r. Qed.

Lemma extends_trans s1 s2 s3 e1 e2 :
  extends s1 s2 e1 -> extends s2 s3 e2 -> extends s1 s3 (e1 ++ e2).
Proof. unfold extends. intros -> ->. now rewrite app_assoc. Qed.

(** The events of [n] failed dial attempts, each followed by the back-off. *)
Fixpoint failed_dials (addr : string) (t : option Z) (n : nat) : list Event :=
  match n with
  | O => []
  | S k => EvDial addr t None :: EvSleep retryTimeout :: failed_dials addr t k
  end.

(* ================================================================== *)
(** * What each operation of the environment does to the observables *)
(* ================================================================== *)

Section Steps.

(** One operation of the environment: the allocator limit and the file
    system stay as they are and one event is appended. *)
Definition wstep (w w' : World) (ev : Event) : Prop :=
  trace w' = trace w ++ [ev] /\
  mem_limit w' = mem_limit w /\
  fs_abs w' = fs_abs w /\
  fs_stat w' = fs_stat w.

Lemma dial_step addr t w r w' :
  dial addr t w = (r, w') ->
  wstep w w' (EvDial addr t r) /\
  match r with
  | Some id =>
      id = List.length (conns w) /\
      forall c, is_open w' c = if (c =? id)%nat then true else is_open w c
  | None => forall c, is_open w' c = is_open w c
  end.
Proof.
  unfold dial, wstep.
  destruct (dial_script w) as [|[p|] ds]; intros E; inversion E; subst; simpl;
    (split; [auto|]); auto.
  split; [reflexivity|]. intros c. unfold is_open; simpl.
  destruct (Nat.eqb_spec c (List.length (conns w))) as [->|Hne].
  - now rewrite nth_error_snoc_new.
  - now rewrite nth_error_snoc_old.
Qed.

Lemma write_step c b w ok w' :
  write c b w = (ok, w') ->
  wstep w w' (EvWrite c b ok) /\ (forall c', is_open w' c' = is_open w c').
Proof.
  intros E. split.
  - revert E. unfold write, wstep.
    destruct (nth_error (conns w) c); intros E; inversion E; subst; simpl; auto.
  - intros c'. replace w' with (snd (write c b w)) by now rewrite E.
    apply is_open_write.
Qed.

Lemma len_firstn_exact {A} (l : list A) n :
  0 <= n <= len l -> len (firstn (Z.to_nat n) l) = n.
Proof.
  unfold len. intros Hn. rewrite length_firstn. lia.
Qed.

Lemma read_full_step c n w r w' :
  read_full c n w = (r, w') ->
  wstep w w' (EvReadFull c n r) /\
  (forall c', is_open w' c' = is_open w c') /\
  (forall buf, r = Some buf -> 0 <= n -> len buf = n).
Proof.
  intros E. split; [|split].
  - revert E. unfold read_full, wstep.
    destruct (Z.eqb_spec n 0) as [->|Hn].
    { intros E; inversion E; subst; simpl; auto. }
    destruct (nth_error (conns w) c) as [p|];
      [destruct (if closed p then None else readFull n (inbound p)) as [[buf rest]|]|];
      intros E; inversion E; subst; simpl; auto.
  - intros c'. replace w' with (snd (read_full c n w)) by now rewrite E.
    apply is_open_read_full.
  - intros buf -> Hn. revert E. unfold read_full.
    destruct (Z.eqb_spec n 0) as [->|Hn0].
    { intros E; inversion E; reflexivity. }
    destruct (nth_error (conns w) c) as [p|]; [|discriminate].
    destruct (closed p); [discriminate|]. unfold readFull.
    destruct (Z.leb_spec n (len (inbound p))); [|discriminate].
    intros E; inversion E; subst. apply len_firstn_exact. lia.
Qed.

Lemma make_step n w ok w' :
  make_bytes n w = (ok, w') ->
  wstep w w' (EvMake n) /\ (forall c, is_open w' c = is_open w c) /\
  ok = (n <=? mem_limit w).
Proof.
  unfold make_bytes, wstep. intros E; inversion E; subst; simpl. auto.
Qed.

Lemma close_step c w :
  wstep w (close c w) (EvClose c) /\
  (forall c', is_open (close c w) c' =
              if (c' =? c)%nat then false else is_open w c').
Proof.
  split.
  - unfold close, wstep. destruct (nth_error (conns w) c); simpl; auto.
  - intros c'. destruct (Nat.eqb_spec c' c) as [->|Hne].
    + apply is_open_close_same.
    + apply is_open_close_other. congruence.
Qed.

Lemma sleep_step d w :
  wstep w (sleep d w) (EvSleep d) /\
  (forall c, is_open (sleep d w) c = is_open w c) /\
  dial_script (sleep d w) = dial_script w.
Proof. unfold wstep. auto. Qed.

End Steps.

Section Exact.

(** The connection with id [c], or a closed one when there is none: the
    operations treat a missing connection and a closed one alike. *)
Definition conn_at (w : World) (c : ConnId) : Conn :=
  nth c (conns w) (mkConn [] [] true).

Lemma nth_error_conn_at w c cn :
  nth_error (conns w) c = Some cn -> conn_at w c = cn.
Proof. unfold conn_at. intros E. now apply nth_error_nth. Qed.

Lemma nth_error_None_conn_at w c :
  nth_error (conns w) c = None -> conn_at w c = mkConn [] [] true.
Proof.
  unfold conn_at. intros E. apply nth_overflow. now apply nth_error_None.
Qed.

Lemma is_open_conn_at w c : is_open w c = negb (closed (conn_at w c)).
Proof.
  unfold is_open. destruct (nth_error (conns w) c) as [cn|] eqn:E.
  - now rewrite (nth_error_conn_at _ _ _ E).
  - now rewrite (nth_error_None_conn_at _ _ E).
Qed.

Lemma conn_at_update w c cn x ds ev :
  nth_error (conns w) c = Some cn ->
  conn_at (set_net w ds (update (conns w) c x) ev) c = x.
Proof.
  intros E. apply nth_error_conn_at. simpl. now apply nth_error_update_eq with cn.
Qed.

Lemma write_exact c b w ok w' :
  write c b w = (ok, w') ->
  let cn := conn_at w c in
  ok = negb (closed cn) && hd false (write_ok cn) /\
  conn_at w' c = mkConn (inbound cn) (tl (write_ok cn)) (closed cn).
Proof.
  unfold write. destruct (nth_error (conns w) c) as [cn|] eqn:E; intros D;
    inversion D; subst; clear D; cbv zeta.
  - rewrite (nth_error_conn_at _ _ _ E). split; [reflexivity|].
    now apply conn_at_update with cn.
  - rewrite (nth_error_None_conn_at _ _ E). split; [reflexivity|].
    apply nth_error_None_conn_at. exact E.
Qed.

Lemma read_full_exact c n w r w' :
  read_full c n w = (r, w') ->
  let cn := conn_at w c in
  if n =? 0 then r = Some [] /\ conn_at w' c = cn
  else
    match r with
    | Some buf =>
        exists rest,
          closed cn = false /\ readFull n (inbound cn) = Some (buf, rest) /\
          conn_at w' c = mkConn rest (write_ok cn) (closed cn)
    | None =>
        (if closed cn then None else readFull n (inbound cn)) = None /\
        conn_at w' c = mkConn [] (write_ok cn) (closed cn)
    end.
Proof.
  unfold read_full. cbv zeta. destruct (n =? 0).
  { intros D; inversion D; subst. split; reflexivity. }
  destruct (nth_error (conns w) c) as [cn|] eqn:E.
  - rewrite (nth_error_conn_at _ _ _ E).
    destruct (closed cn) eqn:Hcl.
    + intros D; inversion D; subst. split; [reflexivity|].
      rewrite <- Hcl. now apply conn_at_update with cn.
    + destruct (readFull n (inbound cn)) as [[buf rest]|] eqn:Hrd;
        intros D; inversion D; subst.
      * exists rest. repeat split. rewrite <- Hcl. now apply conn_at_update with cn.
      * split; [reflexivity|]. rewrite <- Hcl. now apply conn_at_update with cn.
  - rewrite (nth_error_None_conn_at _ _ E).
    intros D; inversion D; subst. split; [reflexivity|].
    apply nth_error_None_conn_at. exact E.
Qed.

Lemma make_exact n w ok w' :
  make_bytes n w = (ok, w') -> forall c, conn_at w' c = conn_at w c.
Proof. unfold make_bytes. intros D; inversion D; subst. reflexivity. Qed.

Lemma sleep_exact d w c : conn_at (sleep d w) c = conn_at w c.
Proof. reflexivity. Qed.

Lemma dial_exact addr t w r w' :
  dial addr t w = (r, w') ->
  dial_script w' = tl (dial_script w) /\
  match r with
  | Some id =>
      exists p, hd None (dial_script w) = Some p /\ conn_at w' id = connect p
  | None => hd None (dial_script w) = None
  end.
Proof.
  unfold dial. destruct (dial_script w) as [|[p|] ds]; intros D;
    inversion D; subst; simpl; auto.
  split; [reflexivity|]. exists p. split; [reflexivity|].
  apply nth_error_conn_at. simpl. apply nth_error_snoc_new.
Qed.

End Exact.


Arguments dial : simpl never.
Arguments sleep : simpl never.
Arguments write : simpl never.
Arguments read_full : simpl never.
Arguments close : simpl never.
Arguments make_bytes : simpl never.
Arguments JoinHostPort : simpl never.

Section PrimRules.

Context {A : Type}.

Lemma run_gets (f : State -> A) s Q : Q (Returns (f s)) s -> run (gets f) s Q.
Proof. exact (fun H => H). Qed.

Lemma run_modify (f : State -> State) s Q :
  Q (Returns tt) (f s) -> run (modify f) s Q.
Proof. exact (fun H => H). Qed.

Lemma run_panic s (Q : outcome A -> State -> Prop) : Q Panics s -> run panic s Q.
Proof. exact (fun H => H). Qed.

Lemma run_block s (Q : outcome A -> State -> Prop) : Q Blocks s -> run block s Q.
Proof. exact (fun H => H). Qed.

Lemma run_liftW (f : World -> A * World) s Q :
  (forall a w', f (world s) = (a, w') -> Q (Returns a) (mkState (client s) w')) ->
  run (liftW f) s Q.
Proof.
  unfold run, liftW. intros HQ. destruct (f (world s)) as [a w'] eqn:E.
  simpl. now apply HQ.
Qed.

Lemma run_doW (f : World -> World) s (Q : outcome unit -> State -> Prop) :
  (forall w', w' = f (world s) -> Q (Returns tt) (mkState (client s) w')) ->
  run (doW f) s Q.
Proof. intros HQ. now apply HQ. Qed.

End PrimRules.

(** ** The exchange on a connection *)

(** How far the exchange of [sendRequest] got. *)
Inductive Stage :=
| WriteHeaderFailed
| WriteBodyFailed
| ReadHeaderFailed
| AllocRefused (headerBuf : bytes)
| ReadBodyFailed (headerBuf : bytes)
| Completed (headerBuf responseBuf : bytes).

Definition stage_events (c : ConnId) (js : bytes) (st : Stage) : list Event :=
  match st with
  | WriteHeaderFailed => [EvWrite c (encodeHeader js) false]
  | WriteBodyFailed => [EvWrite c (encodeHeader js) true; EvWrite c js false]
  | ReadHeaderFailed =>
      [EvWrite c (encodeHeader js) true; EvWrite c js true;
       EvReadFull c headerSize None]
  | AllocRefused hb =>
      [EvWrite c (encodeHeader js) true; EvWrite c js true;
       EvReadFull c headerSize (Some hb); EvMake (Uint64 hb)]
  | ReadBodyFailed hb =>
      [EvWrite c (encodeHeader js) true; EvWrite c js true;
       EvReadFull c headerSize (Some hb); EvMake (Uint64 hb);
       EvReadFull c (Uint64 hb) None]
  | Completed hb buf =>
      [EvWrite c (encodeHeader js) true; EvWrite c js true;
       EvReadFull c headerSize (Some hb); EvMake (Uint64 hb);
       EvReadFull c (Uint64 hb) (Some buf)]
  end.

Definition stage_ok (lim : Z) (st : Stage) : Prop :=
  match st with
  | AllocRefused hb => len hb = headerSize /\ lim < Uint64 hb
  | ReadBodyFailed hb => len hb = headerSize /\ Uint64 hb <= lim
  | Completed hb buf =>
      len hb = headerSize /\ Uint64 hb <= lim /\ len buf = Uint64 hb
  | _ => True
  end.

(** Did the call tear the connection down? *)
Definition torn_down (st : Stage) : bool :=
  match st with
  | AllocRefused _ | Completed _ _ => false
  | _ => true
  end.

Definition closing (c : ConnId) (st : Stage) : list Event :=
  if torn_down st then [EvClose c] else [].

Definition stage_result (st : Stage) : outcome (result error bytes) :=
  match st with
  | WriteHeaderFailed | WriteBodyFailed => Returns (Err ErrWrite)
  | ReadHeaderFailed | ReadBodyFailed _ => Returns (Err ErrRead)
  | AllocRefused _ => Panics
  | Completed _ buf => Returns (Ok buf)
  end.

(** The exchange of [sendRequest] as a function of what the connection is
    going to do: the stage at which it ends. *)
Definition exchange (lim : Z) (cn : Conn) : Stage :=
  if negb (negb (closed cn) && hd false (write_ok cn)) then WriteHeaderFailed
  else if negb (negb (closed cn) && hd false (tl (write_ok cn)))
  then WriteBodyFailed
  else
    match (if closed cn then None else readFull headerSize (inbound cn)) with
    | None => ReadHeaderFailed
    | Some (hb, rest) =>
        if Uint64 hb <=? lim then
          if Uint64 hb =? 0 then Completed hb []
          else
            match readFull (Uint64 hb) rest with
            | Some (buf, _) => Completed hb buf
            | None => ReadBodyFailed hb
            end
        else AllocRefused hb
    end.

Section Payload.
Context `{GoLib}.

(** The bytes [json.Marshal] produces for a request. *)
Definition payload (req : Request) : bytes :=
  match json_Marshal req with
  | Ok b => b
  | Err _ => []
  end.

Lemma json_Marshal_payload req : json_Marshal req = Ok (payload req).
Proof. reflexivity. Qed.

End Payload.

Arguments payload : simpl never.

Lemma Uint64_nonneg (b : bytes) : 0 <= Uint64 b.
Proof.
  unfold Uint64, at_.
  repeat first [ apply Z.lor_nonneg; split
               | apply Z.shiftl_nonneg
               | apply Z_of_byte_range ].
Qed.

Ltac wp_simpl :=
  cbv beta iota zeta;
  cbn [client world Host Port conn connLock metrics addr_of
       RequestsTotal ErrorsTotal ProcessingTimeMs fst snd negb].

Ltac wp_simpl_in H :=
  cbn [client world Host Port conn connLock metrics addr_of
       RequestsTotal ErrorsTotal ProcessingTimeMs fst snd] in H.

(** One step of symbolic execution of a call. *)
Ltac wp_step :=
  lazymatch goal with
  | |- run (bind _ _) _ _ => apply run_bind
  | |- run (defer _ _) _ _ => apply run_defer
  | |- run (ret _) _ _ => apply run_ret
  | |- run (gets _) _ _ => apply run_gets
  | |- run (modify _) _ _ => apply run_modify
  | |- run panic _ _ => apply run_panic
  | |- run block _ _ => apply run_block
  | |- run (set_conn _) _ _ => unfold set_conn
  | |- run (set_lock _) _ _ => unfold set_lock
  | |- run (set_metrics _) _ _ => unfold set_metrics
  | |- run mutex_Lock _ _ => unfold mutex_Lock
  | |- run mutex_Unlock _ _ => unfold mutex_Unlock
  | |- run chan_recv _ _ => unfold chan_recv
  | |- run chan_send _ _ => unfold chan_send
  | |- run log_Printf _ _ => unfold log_Printf
  | |- run (logRequest _ _ _) _ _ => unfold logRequest
  | |- run time_Now _ _ => unfold time_Now
  | |- run (time_Since _) _ _ => unfold time_Since
  | |- run (add_RequestsTotal _) _ _ => unfold add_RequestsTotal
  | |- run (add_ErrorsTotal _) _ _ => unfold add_ErrorsTotal
  | |- run (add_ProcessingTimeMs _) _ _ => unfold add_ProcessingTimeMs
  | |- run (on_conn _) _ _ => unfold on_conn
  | |- run conn_SetDeadline _ _ => unfold conn_SetDeadline
  | |- run (conn_Write _) _ _ => unfold conn_Write
  | |- run (conn_ReadFull _) _ _ => unfold conn_ReadFull
  | |- run (make _) _ _ => unfold make
  | |- run (liftW (dial _ _)) _ _ =>
      let r := fresh "r" in let w := fresh "w" in let D := fresh "D" in
      let X := fresh "X" in
      apply run_liftW; intros r w D; wp_simpl_in D;
      pose proof (dial_exact _ _ _ _ _ D) as X;
      apply dial_step in D
  | |- run (liftW (write _ _)) _ _ =>
      let r := fresh "ok" in let w := fresh "w" in let D := fresh "W" in
      let X := fresh "X" in
      apply run_liftW; intros r w D; wp_simpl_in D;
      pose proof (write_exact _ _ _ _ _ D) as X; cbv zeta in X;
      apply write_step in D
  | |- run (liftW (read_full _ _)) _ _ =>
      let r := fresh "r" in let w := fresh "w" in let D := fresh "R" in
      let X := fresh "X" in
      apply run_liftW; intros r w D; wp_simpl_in D;
      pose proof (read_full_exact _ _ _ _ _ D) as X; cbv zeta in X;
      change (8 =? 0) with false in X; change (headerSize =? 0) with false in X;
      cbv iota in X;
      apply read_full_step in D
  | |- run (liftW (make_bytes _)) _ _ =>
      let r := fresh "ok" in let w := fresh "w" in let D := fresh "K" in
      let X := fresh "X" in
      apply run_liftW; intros r w D; wp_simpl_in D;
      pose proof (make_exact _ _ _ _ D) as X;
      apply make_step in D
  | |- run (doW (sleep _)) _ _ =>
      let w := fresh "w" in let E := fresh "E" in let D := fresh "Z" in
      apply run_doW; wp_simpl; intros w E;
      match type of E with
      | _ = sleep ?d ?w0 => pose proof (sleep_step d w0) as D
      end; rewrite <- E in D; clear E
  | |- run (doW (close _)) _ _ =>
      let w := fresh "w" in let E := fresh "E" in let D := fresh "C" in
      apply run_doW; wp_simpl; intros w E;
      match type of E with
      | _ = close ?c ?w0 => pose proof (close_step c w0) as D
      end; rewrite <- E in D; clear E
  | |- run (match ?x with _ => _ end) _ _ =>
      lazymatch x with
      | conn (client _) =>
          match goal with
          | H : conn (client _) = _ |- _ => rewrite H
          end
      | connLock (client _) =>
          match goal with
          | H : connLock (client _) = _ |- _ => rewrite H
          | H : lock_free _ |- _ => rewrite H
          end
      | negb ?y => is_var y; destruct y
      | match ?y with _ => _ end => is_var y; destruct y
      | json_Marshal ?r => rewrite (json_Marshal_payload r)
      | _ =>
          first [ is_var x; destruct x
                | let v := eval cbv in x in
                  lazymatch v with
                  | true => change x with true
                  | false => change x with false
                  end ]
      end
  end; wp_simpl.

Ltac wp := repeat wp_step.

(** ** Getting a connection *)

Definition same_counters (s s' : State) : Prop :=
  connLock (client s') = connLock (client s) /\
  metrics (client s') = metrics (client s).

(** The outcome the script holds for dial attempt number [k] from now:
    [None] for a failure. *)
Definition attempt (ds : list (option Peer)) (k : nat) : option Peer :=
  hd None (Nat.iter k (@tl _) ds).

(** How [ensureConnection] ends, by the events it adds: nothing when a
    connection is stored; up to two failed attempts and a successful one;
    or three failed attempts.  [c0], [w0] are the stored connection and the
    world before, [c1], [w1] after. *)
Inductive ensured (t : option Z) (addr : string)
    (c0 : option ConnId) (w0 : World)
  : option error -> option ConnId -> World -> list Event -> Prop :=
| ens_have c w1 :
    c0 = Some c -> w1 = w0 ->
    ensured t addr c0 w0 None (Some c) w1 []
| ens_dialled k id p w1 :
    c0 = None -> (k < 3)%nat ->
    (forall j, (j < k)%nat -> attempt (dial_script w0) j = None) ->
    attempt (dial_script w0) k = Some p ->
    conn_at w1 id = connect p ->
    (forall c, is_open w1 c = if (c =? id)%nat then true else is_open w0 c) ->
    ensured t addr c0 w0 None (Some id) w1
      (failed_dials addr t k ++ [EvDial addr t (Some id)])
| ens_failed w1 :
    c0 = None ->
    (forall j, (j < 3)%nat -> attempt (dial_script w0) j = None) ->
    (forall c, is_open w1 c = is_open w0 c) ->
    ensured t addr c0 w0 (Some ErrConnect) None w1
      (failed_dials addr t 2 ++ [EvDial addr t None]).

Definition ensure_post (t : option Z) (s : State)
    (o : outcome (option error)) (s' : State) : Prop :=
  exists e evs, o = Returns e /\
    ensured t (addr_of s) (conn (client s)) (world s)
            e (conn (client s')) (world s') evs /\
    extends s s' evs /\ same_static s s' /\ same_counters s s'.

Ltac open_steps :=
  repeat match goal with
         | H : _ /\ _ |- _ => destruct H
         | H : exists _, _ |- _ => destruct H
         | H : wstep _ _ _ |- _ => unfold wstep in H
         | H : forall buf, Some ?b = Some buf -> _ |- _ =>
             specialize (H b eq_refl)
         | H : 0 <= Uint64 ?b -> _ |- _ => specialize (H (Uint64_nonneg b))
         | H : 0 <= _ -> _ |- _ => specialize (H ltac:(discriminate))
         | H : true = (_ <=? _) |- _ => symmetry in H; apply Z.leb_le in H
         | H : false = (_ <=? _) |- _ => symmetry in H; apply Z.leb_gt in H
         end.

Ltac chase_limit :=
  repeat match goal with
         | H : mem_limit ?w = _ |- _ => rewrite H in *
         end.

Ltac chase_trace :=
  unfold extends, addr_of, closing, stage_events, encodeHeader in *;
  cbn [torn_down client world Host Port conn connLock metrics] in *;
  wp_simpl;
  repeat match goal with
         | H : trace ?w = _ |- context [trace ?w] => rewrite H
         end;
  cbn [failed_dials app]; rewrite <- ?app_assoc, ?app_nil_r; cbn [app];
  reflexivity.

(** The stage reached is the one [exchange] computes from the connection. *)
Ltac chase_exchange :=
  unfold exchange; unfold headerSize in *;
  repeat match goal with
         | H : (if ?n =? 0 then _ else _) |- _ =>
             let E := fresh "E" in destruct (n =? 0) eqn:E
         end;
  open_steps; chase_limit;
  repeat match goal with
         | H : context [conn_at _ _] |- _ =>
             lazymatch type of H with
             | conn_at _ _ = _ => fail
             | forall _, _ => fail
             | _ => revert H
             end
         end;
  repeat match goal with
         | H : conn_at ?w ?c = _ |- context [conn_at ?w ?c] => rewrite H
         | H : forall c, conn_at ?w c = _ |- context [conn_at ?w _] => rewrite H
         end;
  cbn [inbound write_ok closed connect]; intros;
  repeat match goal with
         | H : true = _ |- _ => rewrite <- H
         | H : false = _ |- _ => rewrite <- H
         | H : closed _ = false |- _ => rewrite H in *; cbv beta iota in *
         | H : (_ =? 0) = _ |- _ => rewrite H
         | H : readFull _ _ = _ |- _ => rewrite H
         | H : (if _ then None else readFull _ _) = None |- _ => rewrite H
         | H : Some _ = Some _ |- _ => injection H as H; subst
         | H : None = Some _ |- _ => discriminate H
         end;
  cbn [negb closed]; decide_cmp; try reflexivity.

(** What the dial script held for the attempts made. *)
Ltac chase_script :=
  repeat match goal with
         | H : dial_script ?w = _ |- _ => rewrite H in *; clear H
         end;
  try (let j := fresh "j" in let Hj := fresh "Hj" in
       intros j Hj; destruct j as [|[|[|j]]]; try lia);
  cbn [attempt Nat.iter nat_rect]; eassumption.

Ltac chase_static :=
  unfold same_static, same_counters, lock_free in *; wp_simpl;
  repeat split; congruence.

Ltac chase_open :=
  unfold open_at in *; cbn [torn_down]; wp_simpl; intros;
  repeat match goal with
         | H : forall c, is_open ?w c = _ |- context [is_open ?w _] => rewrite H
         end;
  rewrite ?andb_true_r, ?andb_false_r;
  repeat match goal with
         | |- context [(?a =? ?b)%nat] => destruct (a =? b)%nat
         end.

Ltac norm_hyps :=
  unfold extends, same_static, same_counters, lock_free in *;
  cbn [client world Host Port conn connLock metrics addr_of
       RequestsTotal ErrorsTotal ProcessingTimeMs fst snd] in *.

Ltac finish :=
  open_steps; repeat split; wp_simpl;
  try solve [ eassumption | chase_trace | chase_static | chase_open; auto
            | auto | lia
            | chase_limit; cbn [stage_ok]; auto; lia
            | chase_exchange | chase_script ].

Section CallSpecs.
Context `{GoLib}.

Lemma Mutex_dialLoop_spec s :
  conn (client s) = None ->
  run (Mutex.dialLoop 3) s (ensure_post (Some connectTimeout) s).
Proof.
  intros Hc. unfold Mutex.dialLoop, ensure_post.
  wp; open_steps; do 2 eexists; (split; [reflexivity|]); rewrite Hc.
  - split; [eapply (ens_dialled _ _ _ _ 0%nat)|]; finish.
  - split; [eapply (ens_dialled _ _ _ _ 1%nat)|]; finish.
  - split; [eapply (ens_dialled _ _ _ _ 2%nat)|]; finish.
  - split; [apply ens_failed|]; finish.
Qed.

Lemma Mutex_ensureConnection_spec s :
  lock_free s ->
  run Mutex.ensureConnection s (ensure_post (Some connectTimeout) s).
Proof.
  intros Hl. unfold Mutex.ensureConnection. wp.
  destruct (conn (client s)) as [c|] eqn:Hc.
  - wp. do 2 eexists; (split; [reflexivity|]). rewrite Hc.
    split; [eapply ens_have; reflexivity|]; finish.
  - wp. eapply run_conseq; [apply Mutex_dialLoop_spec; wp_simpl; auto|].
    intros o s' (e & evs & -> & He & Hx & Hs & Hl' & Hm). norm_hyps.
    wp. do 2 eexists; (split; [reflexivity|]). rewrite Hc.
    split; [exact He|]. finish.
Qed.

Lemma Part001_dialLoop_spec s :
  conn (client s) = None ->
  run (Part001.dialLoop 3) s (ensure_post None s).
Proof.
  intros Hc. unfold Part001.dialLoop, ensure_post.
  wp; open_steps; do 2 eexists; (split; [reflexivity|]); rewrite Hc.
  - split; [eapply (ens_dialled _ _ _ _ 0%nat)|]; finish.
  - split; [eapply (ens_dialled _ _ _ _ 1%nat)|]; finish.
  - split; [eapply (ens_dialled _ _ _ _ 2%nat)|]; finish.
  - split; [apply ens_failed|]; finish.
Qed.

Lemma Part001_ensureConnection_spec s :
  run Part001.ensureConnection s (ensure_post None s).
Proof.
  unfold Part001.ensureConnection. wp.
  destruct (conn (client s)) as [c|] eqn:Hc.
  - wp. do 2 eexists; (split; [reflexivity|]). rewrite Hc.
    split; [eapply ens_have; reflexivity|]; finish.
  - wp. apply Part001_dialLoop_spec; auto.
Qed.

Lemma Mutex_closeConnection_spec s :
  lock_free s ->
  run Mutex.closeConnection s (fun o s' =>
    o = Returns tt /\ conn (client s') = None /\
    same_static s s' /\ same_counters s s' /\
    match conn (client s) with
    | Some c =>
        extends s s' [EvClose c] /\
        forall c', open_at s' c' = if (c' =? c)%nat then false else open_at s c'
    | None => extends s s' [] /\ forall c', open_at s' c' = open_at s c'
    end).
Proof.
  intros Hl. unfold Mutex.closeConnection. wp.
  destruct (conn (client s)) as [c|] eqn:Hc; wp; open_steps; finish.
Qed.

Lemma Part001_closeConnection_spec s :
  run Part001.closeConnection s (fun o s' =>
    o = Returns tt /\ conn (client s') = None /\
    same_static s s' /\ same_counters s s' /\
    match conn (client s) with
    | Some c =>
        extends s s' [EvClose c] /\
        forall c', open_at s' c' = if (c' =? c)%nat then false else open_at s c'
    | None => extends s s' [] /\ forall c', open_at s' c' = open_at s c'
    end).
Proof.
  unfold Part001.closeConnection. wp.
  destruct (conn (client s)) as [c|] eqn:Hc; wp; open_steps; finish.
Qed.
End CallSpecs.


(** How [sendRequest] ends, over the stored connection and the world before
    ([c0], [w0]) and after ([c1], [w1]). *)
Inductive sent (t : option Z) (addr : string) (js : bytes)
    (c0 : option ConnId) (w0 : World)
  : outcome (result error bytes) -> option ConnId -> World -> list Event -> Prop :=
| sent_unreachable w1 evs :
    ensured t addr c0 w0 (Some ErrConnect) None w1 evs ->
    sent t addr js c0 w0 (Returns (Err ErrConnect)) None w1 evs
| sent_exchange c wm evs st o c1 w1 evs' :
    ensured t addr c0 w0 None (Some c) wm evs ->
    st = exchange (mem_limit w0) (conn_at wm c) ->
    stage_ok (mem_limit w0) st ->
    (forall c', is_open w1 c' =
                if (c' =? c)%nat && torn_down st then false else is_open wm c') ->
    o = stage_result st ->
    c1 = (if torn_down st then None else Some c) ->
    evs' = evs ++ stage_events c js st ++ closing c st ->
    sent t addr js c0 w0 o c1 w1 evs'.

Definition Mutex_bumped (s s' : State) : Prop :=
  metrics (client s') =
  mkMetrics (wrap64 (RequestsTotal (metrics (client s)) + 1))
            (ErrorsTotal (metrics (client s)))
            (wrap64 (ProcessingTimeMs (metrics (client s))
                     + Milliseconds (now (world s') - now (world s)))).

Ltac chase_metrics :=
  wp_simpl;
  repeat match goal with
         | H : metrics (client ?x) = _ |- context [metrics (client ?x)] =>
             rewrite H; wp_simpl
         end;
  reflexivity.

Ltac send_leaf He st :=
  eexists; split;
  [ eapply (sent_exchange _ _ _ _ _ _ _ _ st); [exact He|..]; finish
  | finish ].

Section SendSpecs.
Context `{GoLib}.

Definition send_post (t : option Z) (req : Request) (s : State)
    (o : outcome (result error bytes)) (s' : State) : Prop :=
  exists evs,
    sent t (addr_of s) (payload req) (conn (client s)) (world s)
         o (conn (client s')) (world s') evs /\
    extends s s' evs /\ same_static s s' /\ lock_free s'.

Lemma Mutex_sendRequest_spec req s :
  lock_free s ->
  run (Mutex.sendRequest req) s (fun o s' =>
    send_post (Some connectTimeout) req s o s' /\ Mutex_bumped s s').
Proof.
  intros Hl. unfold Mutex.sendRequest, Mutex.record_duration. wp.
  eapply run_conseq; [apply Mutex_ensureConnection_spec; exact Hl|].
  intros o s1 (e & evs & -> & He & Hx & Hs & Hl' & Hm). norm_hyps.
  destruct e as [err|]; wp.
  - assert (err = ErrConnect /\ conn (client s1) = None) as [-> Hc].
    { inversion He; subst; auto. }
    rewrite Hc in He.
    split; [|unfold Mutex_bumped; chase_metrics].
    unfold send_post; wp_simpl. rewrite ?Hc. eexists; split;
      [apply sent_unreachable; exact He | finish].
  - assert (exists c, conn (client s1) = Some c) as [c Hc].
    { inversion He; eauto. }
    rewrite Hc in He.
    repeat first
      [ wp_step
      | eapply run_conseq;
        [ apply Mutex_closeConnection_spec; unfold lock_free; wp_simpl; congruence
        | intros ? ? (-> & ? & ? & ? & ?); norm_hyps;
          repeat match goal with
                 | Hm : context [conn (client s1)] |- _ =>
                     lazymatch Hm with
                     | Hc => fail
                     | _ => rewrite Hc in Hm
                     end
                 end; open_steps ] ].
    all: open_steps.
    all: (split; [|unfold Mutex_bumped; chase_metrics]).
    all: unfold send_post; wp_simpl; try rewrite Hc.
    all: first
      [ solve [send_leaf He WriteHeaderFailed]
      | solve [send_leaf He WriteBodyFailed]
      | solve [send_leaf He ReadHeaderFailed]
      | match goal with
        | _ : context [EvMake (Uint64 ?hb)] |- _ =>
            first [ solve [send_leaf He (AllocRefused hb)]
                  | solve [send_leaf He (ReadBodyFailed hb)]
                  | match goal with
                    | _ : context [EvReadFull _ _ (Some ?buf)],
                      _ : len ?buf = Uint64 hb |- _ =>
                        solve [send_leaf He (Completed hb buf)]
                    end ]
        end
      ].
Qed.

Lemma Part001_sendRequest_spec req s :
  lock_free s ->
  run (Part001.sendRequest req) s (fun o s' =>
    send_post None req s o s' /\ metrics (client s') = metrics (client s)).
Proof.
  intros Hl. unfold Part001.sendRequest. wp.
  eapply run_conseq; [apply Part001_ensureConnection_spec|].
  intros o s1 (e & evs & -> & He & Hx & Hs & Hl' & Hm). norm_hyps.
  destruct e as [err|]; wp.
  - assert (err = ErrConnect /\ conn (client s1) = None) as [-> Hc].
    { inversion He; subst; auto. }
    rewrite Hc in He.
    split; [|chase_metrics].
    unfold send_post; wp_simpl. rewrite ?Hc. eexists; split;
      [apply sent_unreachable; exact He | finish].
  - assert (exists c, conn (client s1) = Some c) as [c Hc].
    { inversion He; eauto. }
    rewrite Hc in He.
    repeat first
      [ wp_step
      | eapply run_conseq;
        [ apply Part001_closeConnection_spec
        | intros ? ? (-> & ? & ? & ? & ?); norm_hyps;
          repeat match goal with
                 | Hm : context [conn (client s1)] |- _ =>
                     lazymatch Hm with
                     | Hc => fail
                     | _ => rewrite Hc in Hm
                     end
                 end; open_steps ] ].
    all: open_steps.
    all: (split; [|chase_metrics]).
    all: unfold send_post; wp_simpl; try rewrite Hc.
    all: first
      [ solve [send_leaf He WriteHeaderFailed]
      | solve [send_leaf He WriteBodyFailed]
      | solve [send_leaf He ReadHeaderFailed]
      | match goal with
        | _ : context [EvMake (Uint64 ?hb)] |- _ =>
            first [ solve [send_leaf He (AllocRefused hb)]
                  | solve [send_leaf He (ReadBodyFailed hb)]
                  | match goal with
                    | _ : context [EvReadFull _ _ (Some ?buf)],
                      _ : len ?buf = Uint64 hb |- _ =>
                        solve [send_leaf He (Completed hb buf)]
                    end ]
        end
      ].
Qed.
End SendSpecs.

(** ** The per-call connection of [sendRequestWithContext] *)

Definition wrapped_result (st : Stage) : outcome (result error bytes) :=
  match st with
  | WriteHeaderFailed => Returns (Err (Errorf "write header" ErrWrite))
  | WriteBodyFailed => Returns (Err (Errorf "write data" ErrWrite))
  | ReadHeaderFailed => Returns (Err (Errorf "read response header" ErrRead))
  | ReadBodyFailed _ => Returns (Err (Errorf "read response" ErrRead))
  | AllocRefused _ => Panics
  | Completed _ buf => Returns (Ok buf)
  end.

(** How [sendRequestWithContext] ends: the dial fails, or the exchange runs
    on the fresh connection [id], which is closed whatever happens. *)
Inductive sent_fresh (addr : string) (js : bytes) (w0 : World)
  : outcome (result error bytes) -> World -> list Event -> Prop :=
| fresh_unreachable w1 :
    hd None (dial_script w0) = None ->
    (forall c, is_open w1 c = is_open w0 c) ->
    sent_fresh addr js w0 (Returns (Err (Errorf "dial" ErrDial))) w1
               [EvDial addr (Some (30 * second)) None]
| fresh_exchange id p st o w1 evs :
    id = List.length (conns w0) ->
    hd None (dial_script w0) = Some p ->
    st = exchange (mem_limit w0) (connect p) ->
    stage_ok (mem_limit w0) st ->
    (forall c, is_open w1 c = if (c =? id)%nat then false else is_open w0 c) ->
    o = wrapped_result st ->
    evs = EvDial addr (Some (30 * second)) (Some id)
          :: stage_events id js st ++ [EvClose id] ->
    sent_fresh addr js w0 o w1 evs.

Ltac fresh_leaf st :=
  eexists; split;
  [ eapply (fresh_exchange _ _ _ _ _ st); finish
  | finish ].

Section FreshSpecs.
Context `{GoLib}.

Definition fresh_post (req : Request) (s : State)
    (o : outcome (result error bytes)) (s' : State) : Prop :=
  exists evs,
    sent_fresh (addr_of s) (payload req) (world s) o (world s') evs /\
    extends s s' evs /\ same_static s s' /\
    conn (client s') = conn (client s) /\
    connLock (client s') = connLock (client s).

Lemma Golang_sendRequestWithContext_spec ctx req s :
  run (Golang.sendRequestWithContext ctx req) s (fun o s' =>
    fresh_post req s o s' /\ Mutex_bumped s s').
Proof.
  unfold Golang.sendRequestWithContext, Mutex.record_duration. wp.
  all: open_steps.
  all: repeat match goal with
              | E : ?x = Datatypes.length _ |- _ => subst x
              end.
  all: (split; [|unfold Mutex_bumped; chase_metrics]).
  all: unfold fresh_post; wp_simpl.
  all: first
      [ solve [eexists; split; [apply fresh_unreachable; finish | finish]]
      | solve [fresh_leaf WriteHeaderFailed]
      | solve [fresh_leaf WriteBodyFailed]
      | solve [fresh_leaf ReadHeaderFailed]
      | match goal with
        | _ : context [EvMake (Uint64 ?hb)] |- _ =>
            first [ solve [fresh_leaf (AllocRefused hb)]
                  | solve [fresh_leaf (ReadBodyFailed hb)]
                  | match goal with
                    | _ : context [EvReadFull _ _ (Some ?buf)],
                      _ : len ?buf = Uint64 hb |- _ =>
                        solve [fresh_leaf (Completed hb buf)]
                    end ]
        end
      ].
Qed.

End FreshSpecs.

(* ================================================================== *)
(** * A small instance of the library, for running the client *)
(* ================================================================== *)

Module Demo.

Definition dq : byte := x22.

Definition quote (s : string) : bytes := dq :: list_byte_of_string s ++ [dq].

Definition b64_alphabet : string :=
  "ABCDEFGHIJKLMNOPQRSTUVWXYZabcdefghijklmnopqrstuvwxyz0123456789+/".

Definition b64_char (i : Z) : string :=
  match String.get (Z.to_nat i) b64_alphabet with
  | Some a => String a ""
  | None => ""
  end.

(** [base64.StdEncoding.EncodeToString]: three bytes to four characters,
    padded with [=]. *)
Fixpoint b64 (l : bytes) : string :=
  match l with
  | [] => ""
  | [a] =>
      let x := Z_of_byte a in
      b64_char (Z.shiftr x 2) ++ b64_char (Z.shiftl (Z.land x 3) 4) ++ "=="
  | [a; b] =>
      let x := Z_of_byte a in
      let y := Z_of_byte b in
      b64_char (Z.shiftr x 2)
      ++ b64_char (Z.lor (Z.shiftl (Z.land x 3) 4) (Z.shiftr y 4))
      ++ b64_char (Z.shiftl (Z.land y 15) 2) ++ "="
  | a :: b :: c :: rest =>
      let x := Z_of_byte a in
      let y := Z_of_byte b in
      let z := Z_of_byte c in
      b64_char (Z.shiftr x 2)
      ++ b64_char (Z.lor (Z.shiftl (Z.land x 3) 4) (Z.shiftr y 4))
      ++ b64_char (Z.lor (Z.shiftl (Z.land y 15) 2) (Z.shiftr z 6))
      ++ b64_char (Z.land z 63) ++ b64 rest
  end%string.

Fixpoint strip_prefix (p s : bytes) : option bytes :=
  match p, s with
  | [], _ => Some s
  | a :: p', b :: s' => if Byte.eqb a b then strip_prefix p' s' else None
  | _ :: _, [] => None
  end.

(** The text of a one-member object [{"key":"text"}] whose text needs no
    escape. *)
Definition one_member (key : string) (b : bytes) : option string :=
  match strip_prefix ([x7b] ++ quote key ++ [x3a; dq]) b with
  | Some r =>
      match rev r with
      | x7d :: x22 :: body =>
          if existsb (Byte.eqb dq) body then None
          else Some (string_of_list_byte (rev body))
      | _ => None
      end
  | None => None
  end.

Definition is_empty_object (b : bytes) : bool :=
  match b with
  | [x7b; x7d] => true
  | _ => false
  end.

(** A decoder for the three shapes of response the examples use: [{}],
    [{"error":"..."}] and [{"text":"..."}]; anything else fails to decode. *)
Definition unmarshal_transcription {seg} (b : bytes)
    : option (TranscriptionResponse seg) :=
  if is_empty_object b then Some (mkTranscription "" "" [] 0 "")
  else
    match one_member "error" b with
    | Some e => Some (mkTranscription "" "" [] 0 e)
    | None =>
        match one_member "text" b with
        | Some t => Some (mkTranscription t "" [] 0 "")
        | None => None
        end
    end.

Definition unmarshal_models (b : bytes) : option ModelsResponse :=
  if is_empty_object b then Some (mkModels [] [] "")
  else
    match one_member "error" b with
    | Some e => Some (mkModels [] [] e)
    | None => None
    end.

#[export] Instance lib : GoLib := {
  json_quote := quote;
  json_Unmarshal_Transcription := unmarshal_transcription;
  json_Unmarshal_TranscriptionMap := unmarshal_transcription;
  json_Unmarshal_Models := unmarshal_models;
  base64_EncodeToString := b64
}.

(** A process with a working file system, a 2 GiB allocation limit, the
    given dial outcomes to come and the given connections. *)
Definition world_of (script : list (option Peer)) (cs : list Conn) : World :=
  mkWorld script cs [] 0 [] (2 ^ 31)
          (fun p => Some ("/data/" ++ p)%string) (fun _ => StatOk).

Definition client_of (c : option ConnId) : WhisperClient :=
  mkClient "localhost" "9000" c false (mkMetrics 0 0 0).

Definition state_of (c : option ConnId) (script : list (option Peer))
    (cs : list Conn) : State :=
  mkState (client_of c) (world_of script cs).

(** A response frame carrying the text [s]. *)
Definition frame_of (s : string) : bytes := encodeFrame (list_byte_of_string s).

End Demo.

Example b64_Man : Demo.b64 (list_byte_of_string "Man") = "TWFu"%string.
Proof. reflexivity. Qed.

Example b64_Ma : Demo.b64 (list_byte_of_string "Ma") = "TWE="%string.
Proof. reflexivity. Qed.

Example demo_decode_error :
  Demo.unmarshal_transcription (seg := Segment)
    ([x7b] ++ Demo.quote "error" ++ [x3a] ++ Demo.quote "model not found" ++ [x7d])
  = Some (mkTranscription "" "" [] 0 "model not found").
Proof. reflexivity. Qed.

(* ================================================================== *)
(** * The call on a stored connection is the pure exchange *)
(* ================================================================== *)

Section OnStored.
Context `{GoLib}.

Lemma sent_on_stored t addr js c w0 o c1 w1 evs :
  sent t addr js (Some c) w0 o c1 w1 evs ->
  let st := exchange (mem_limit w0) (conn_at w0 c) in
  o = stage_result st /\
  c1 = (if torn_down st then None else Some c) /\
  evs = stage_events c js st ++ closing c st /\
  (forall c', is_open w1 c' =
              if (c' =? c)%nat && torn_down st then false else is_open w0 c').
Proof.
  intros Hs. inversion Hs as [w evs' He|c' wm evs' st o' c1' w evs'' He Hst Hok Ho]; subst.
  - inversion He; discriminate.
  - inversion He; subst; try discriminate.
    match goal with E : Some _ = Some _ |- _ => injection E as -> end.
    cbv zeta. repeat split; auto.
Qed.

Lemma Mutex_sendRequest_on_stored req s c :
  lock_free s -> conn (client s) = Some c ->
  let st := exchange (mem_limit (world s)) (conn_at (world s) c) in
  let r := Mutex.sendRequest req s in
  fst r = stage_result st /\
  conn (client (snd r)) = (if torn_down st then None else Some c) /\
  trace (world (snd r)) =
    trace (world s) ++ stage_events c (payload req) st ++ closing c st /\
  lock_free (snd r).
Proof.
  intros Hl Hc. cbv zeta.
  pose proof (Mutex_sendRequest_spec req s Hl) as [(evs & Hs & Hx & _ & Hl') _].
  rewrite Hc in Hs. apply sent_on_stored in Hs. cbv zeta in Hs.
  destruct Hs as (Ho & Hc1 & Hevs & _). subst evs.
  repeat split; assumption.
Qed.

Lemma Part001_sendRequest_on_stored req s c :
  lock_free s -> conn (client s) = Some c ->
  let st := exchange (mem_limit (world s)) (conn_at (world s) c) in
  let r := Part001.sendRequest req s in
  fst r = stage_result st /\
  conn (client (snd r)) = (if torn_down st then None else Some c) /\
  trace (world (snd r)) =
    trace (world s) ++ stage_events c (payload req) st ++ closing c st /\
  lock_free (snd r).
Proof.
  intros Hl Hc. cbv zeta.
  pose proof (Part001_sendRequest_spec req s Hl) as [(evs & Hs & Hx & _ & Hl') _].
  rewrite Hc in Hs. apply sent_on_stored in Hs. cbv zeta in Hs.
  destruct Hs as (Ho & Hc1 & Hevs & _). subst evs.
  repeat split; assumption.
Qed.

End OnStored.

(* ================================================================== *)
(** * Frames *)
(* ================================================================== *)

Section Frames.

Lemma uint64_small (n : Z) : 0 <= n < 2 ^ 64 -> uint64 n = n.
Proof. intros Hn. unfold uint64. now apply Z.mod_small. Qed.

Lemma len_nonneg {A} (l : list A) : 0 <= len l.
Proof. unfold len. lia. Qed.

Lemma len_app {A} (a b : list A) : len (a ++ b) = len a + len b.
Proof. unfold len. rewrite length_app. lia. Qed.

Lemma readFull_app (a b : bytes) : readFull (len a) (a ++ b) = Some (a, b).
Proof.
  unfold readFull. rewrite len_app.
  pose proof (len_nonneg b).
  destruct (Z.leb_spec (len a) (len a + len b)); [|lia].
  unfold len. rewrite Nat2Z.id.
  rewrite firstn_app, Nat.sub_diag, firstn_all. simpl. rewrite app_nil_r.
  rewrite skipn_app, Nat.sub_diag, skipn_all. reflexivity.
Qed.

Lemma readFull_zero (s : bytes) : readFull 0 s = Some ([], s).
Proof. apply (readFull_app [] s). Qed.

Lemma readFull_short (n : Z) (s : bytes) : len s < n -> readFull n s = None.
Proof.
  intros Hn. unfold readFull.
  destruct (Z.leb_spec n (len s)); [lia|reflexivity].
Qed.

Lemma Uint64_bound (b : bytes) : 0 <= Uint64 b < 2 ^ 64.
Proof.
  split; [apply Uint64_nonneg|].
  unfold Uint64.
  assert (Hlor : forall x y, 0 <= x < 2 ^ 64 -> 0 <= y < 2 ^ 64 ->
                             0 <= Z.lor x y < 2 ^ 64).
  { intros x y Hx Hy. split; [apply Z.lor_nonneg; lia|].
    destruct (Z.eq_dec (Z.lor x y) 0) as [->|Hnz]; [lia|].
    apply Z.log2_lt_pow2; [pose proof (proj2 (Z.lor_nonneg x y)); lia|].
    rewrite Z.log2_lor by lia.
    apply Z.max_lub_lt.
    - destruct (Z.eq_dec x 0) as [->|]; [simpl; lia|apply Z.log2_lt_pow2; lia].
    - destruct (Z.eq_dec y 0) as [->|]; [simpl; lia|apply Z.log2_lt_pow2; lia]. }
  assert (Hsh : forall i k, 0 <= k <= 56 ->
                            0 <= Z.shiftl (at_ b i) k < 2 ^ 64).
  { intros i k Hk. unfold at_.
    pose proof (Z_of_byte_range (nth i b x00)) as Hb.
    rewrite Z.shiftl_mul_pow2 by lia. split; [apply Z.mul_nonneg_nonneg; lia|].
    apply Z.lt_le_trans with (2 ^ 8 * 2 ^ k).
    - apply Z.mul_lt_mono_pos_r; [apply Z.pow_pos_nonneg; lia|simpl; lia].
    - rewrite <- Z.pow_add_r by lia. apply Z.pow_le_mono_r; lia. }
  assert (H0 : 0 <= at_ b 7 < 2 ^ 64).
  { unfold at_. pose proof (Z_of_byte_range (nth 7 b x00)). simpl. lia. }
  repeat (apply Hlor; [first [exact H0 | apply Hsh; lia]|]).
  apply Hsh; lia.
Qed.

Lemma encodeHeader_length (p : bytes) : len (encodeHeader p) = headerSize.
Proof. reflexivity. Qed.

End Frames.

(* ================================================================== *)
(** * C4, C10: the frame codec *)
(* ================================================================== *)

Section Codec.
Context `{GoLib}.

Lemma exchange_of_frame (lim : Z) (p rest : bytes) (wo : list bool) :
  len p <= 2 ^ 32 - 1 -> len p <= lim ->
  exchange lim (mkConn (encodeFrame p ++ rest) (true :: true :: wo) false)
  = Completed (encodeHeader p) p.
Proof.
  intros Hp Hl. pose proof (len_nonneg p) as H0.
  unfold exchange. cbn [closed write_ok inbound hd tl negb andb].
  unfold encodeFrame. rewrite <- app_assoc.
  rewrite <- (encodeHeader_length p) at 1. rewrite readFull_app.
  unfold encodeHeader. rewrite uint64_small by lia.
  rewrite Uint64_PutUint64 by lia.
  destruct (Z.leb_spec (len p) lim); [|lia].
  destruct (Z.eqb_spec (len p) 0) as [E|E].
  - destruct p; [reflexivity|]. unfold len in E. simpl in E. lia.
  - now rewrite readFull_app.
Qed.

(** C4. A payload of at most 2^32-1 bytes is framed as its length in eight
    big-endian bytes followed by the payload, and reading that frame back
    as [sendRequest] reads a response yields the payload, leaving what follows
    it on the stream; [sendRequest] handed such a frame by its peer returns
    the payload. *)
Theorem frame_roundtrip (payload rest : bytes) :
  len payload <= 2 ^ 32 - 1 ->
  encodeFrame payload = PutUint64 (len payload) ++ payload /\
  len (PutUint64 (len payload)) = headerSize /\
  Uint64 (PutUint64 (len payload)) = len payload /\
  decodeFrame (encodeFrame payload ++ rest) = Some (payload, rest) /\
  (forall req s c wo,
     lock_free s -> conn (client s) = Some c ->
     conn_at (world s) c = mkConn (encodeFrame payload ++ rest)
                                  (true :: true :: wo) false ->
     len payload <= mem_limit (world s) ->
     fst (Mutex.sendRequest req s) = Returns (Ok payload) /\
     fst (Part001.sendRequest req s) = Returns (Ok payload)).
Proof.
  intros Hp. pose proof (len_nonneg payload) as H0.
  assert (Hu : uint64 (len payload) = len payload) by (apply uint64_small; lia).
  assert (Hr : Uint64 (PutUint64 (len payload)) = len payload)
    by (apply Uint64_PutUint64; lia).
  split; [unfold encodeFrame, encodeHeader; now rewrite Hu|].
  split; [reflexivity|]. split; [exact Hr|]. split.
  - unfold decodeFrame, encodeFrame. rewrite <- app_assoc.
    rewrite <- (encodeHeader_length payload) at 1. rewrite readFull_app.
    unfold encodeHeader. rewrite Hu, Hr. apply readFull_app.
  - intros req s c wo Hl Hc Hcn Hlim. split.
    + destruct (Mutex_sendRequest_on_stored req s c Hl Hc) as (Ho & _).
      rewrite Ho, Hcn, exchange_of_frame by assumption. reflexivity.
    + destruct (Part001_sendRequest_on_stored req s c Hl Hc) as (Ho & _).
      rewrite Ho, Hcn, exchange_of_frame by assumption. reflexivity.
Qed.

Lemma exchange_of_header (lim : Z) (hb rest : bytes) (wo : list bool) :
  len hb = headerSize ->
  exchange lim (mkConn (hb ++ rest) (true :: true :: wo) false)
  = if Uint64 hb <=? lim
    then match readFull (Uint64 hb) rest with
         | Some (buf, _) => Completed hb buf
         | None => ReadBodyFailed hb
         end
    else AllocRefused hb.
Proof.
  intros Hh. unfold exchange. cbn [closed write_ok inbound hd tl negb andb].
  rewrite <- Hh, readFull_app.
  destruct (Uint64 hb <=? lim); [|reflexivity].
  destruct (Z.eqb_spec (Uint64 hb) 0) as [E|E]; [|reflexivity].
  rewrite E, readFull_zero. reflexivity.
Qed.

(** What follows the header read in the trace, for a header [hb]. *)
Definition after_header (c : ConnId) (lim : Z) (hb rest : bytes) : list Event :=
  EvMake (Uint64 hb) ::
  (if Uint64 hb <=? lim
   then match readFull (Uint64 hb) rest with
        | Some (buf, _) => [EvReadFull c (Uint64 hb) (Some buf)]
        | None => [EvReadFull c (Uint64 hb) None; EvClose c]
        end
   else []).

(** C10. Whatever eight bytes arrive as the header, [sendRequest] takes
    their full big-endian value, anything from 0 to 2^64-1, as the length,
    and every value below 2^64 is the value of some header.  With no check
    in between it asks the allocator for exactly that many bytes and, when
    it gets them, reads exactly that many: the result is the bytes read or
    the read error.  When the allocator does not grant the length the call
    neither reads nor returns: there is no error return for a length that
    is too large. *)
Theorem response_length_unchecked (hb rest : bytes) (wo : list bool)
    (req : Request) (s : State) (c : ConnId) :
  len hb = headerSize ->
  lock_free s -> conn (client s) = Some c ->
  conn_at (world s) c = mkConn (hb ++ rest) (true :: true :: wo) false ->
  0 <= Uint64 hb < 2 ^ 64 /\
  (forall n, 0 <= n < 2 ^ 64 ->
             len (PutUint64 n) = headerSize /\ Uint64 (PutUint64 n) = n) /\
  (forall send,
     send = Mutex.sendRequest \/ send = Part001.sendRequest ->
     trace (world (snd (send req s))) =
       trace (world s)
       ++ [EvWrite c (encodeHeader (payload req)) true;
           EvWrite c (payload req) true;
           EvReadFull c headerSize (Some hb)]
       ++ after_header c (mem_limit (world s)) hb rest /\
     (Uint64 hb <= mem_limit (world s) ->
      fst (send req s) =
        match readFull (Uint64 hb) rest with
        | Some (buf, _) => Returns (Ok buf)
        | None => Returns (Err ErrRead)
        end) /\
     (mem_limit (world s) < Uint64 hb ->
      forall r, fst (send req s) <> Returns r)).
Proof.
  intros Hh Hl Hc Hcn. split; [apply Uint64_bound|]. split.
  { intros n Hn. split; [reflexivity|now apply Uint64_PutUint64]. }
  assert (Hgen : forall r : outcome (result error bytes) * State,
    (let st := exchange (mem_limit (world s)) (conn_at (world s) c) in
     fst r = stage_result st /\
     conn (client (snd r)) = (if torn_down st then None else Some c) /\
     trace (world (snd r)) =
       trace (world s) ++ stage_events c (payload req) st ++ closing c st /\
     lock_free (snd r)) ->
    trace (world (snd r)) =
      trace (world s)
      ++ [EvWrite c (encodeHeader (payload req)) true;
          EvWrite c (payload req) true;
          EvReadFull c headerSize (Some hb)]
      ++ after_header c (mem_limit (world s)) hb rest /\
    (Uint64 hb <= mem_limit (world s) ->
     fst r =
       match readFull (Uint64 hb) rest with
       | Some (buf, _) => Returns (Ok buf)
       | None => Returns (Err ErrRead)
       end) /\
    (mem_limit (world s) < Uint64 hb -> forall a, fst r <> Returns a)).
  { intros r. cbv zeta. rewrite Hcn, (exchange_of_header _ _ _ _ Hh).
    intros (Ho & _ & Ht & _). rewrite Ht, Ho. unfold after_header.
    destruct (Z.leb_spec (Uint64 hb) (mem_limit (world s))) as [Hle|Hgt].
    - split; [|split; [intros _|lia]];
        destruct (readFull (Uint64 hb) rest) as [[buf rest']|]; reflexivity.
    - split; [reflexivity|]. split; [lia|]. intros _ a. discriminate. }
  intros send [->| ->]; apply Hgen.
  - now apply Mutex_sendRequest_on_stored.
  - now apply Part001_sendRequest_on_stored.
Qed.

End Codec.

Lemma frame_roundtrip_witness :
  decodeFrame (encodeFrame (list_byte_of_string "{}") ++ [x01])
  = Some (list_byte_of_string "{}", [x01]).
Proof.
  refine (proj1 (proj2 (proj2 (proj2
    (frame_roundtrip (H := Demo.lib) (list_byte_of_string "{}") [x01] _))))).
  vm_compute. discriminate.
Defined.

(** A header that announces 2^20 bytes, followed by two: the client asks
    for the 2^20 bytes and tries to read them. *)
Lemma response_length_unchecked_witness :
  trace (world (snd
    (Mutex.sendRequest (H := Demo.lib) (ModelsRequest "list_models")
       (Demo.state_of (Some 0%nat) []
          [mkConn (PutUint64 (2 ^ 20) ++ [x7b; x7d]) [true; true] false]))))
  = []
    ++ [EvWrite 0%nat
          (encodeHeader (payload (H := Demo.lib) (ModelsRequest "list_models")))
          true;
        EvWrite 0%nat (payload (H := Demo.lib) (ModelsRequest "list_models"))
          true;
        EvReadFull 0%nat headerSize (Some (PutUint64 (2 ^ 20)))]
    ++ [EvMake (2 ^ 20); EvReadFull 0%nat (2 ^ 20) None; EvClose 0%nat].
Proof.
  refine (proj1 (proj2 (proj2
    (response_length_unchecked (H := Demo.lib) (PutUint64 (2 ^ 20))
       [x7b; x7d] [] (ModelsRequest "list_models")
       (Demo.state_of (Some 0%nat) []
          [mkConn (PutUint64 (2 ^ 20) ++ [x7b; x7d]) [true; true] false])
       0%nat _ _ _ _)) _ (or_introl eq_refl)));
    reflexivity.
Defined.

(* ================================================================== *)
(** * C5: bounded dial retry *)
(* ================================================================== *)

(** The next three dial attempts all fail. *)
Definition unreachable (ds : list (option Peer)) : Prop :=
  forall j, (j < 3)%nat -> attempt ds j = None.

Section Retry.
Context `{GoLib}.

Lemma ensured_unreachable t addr w0 e c1 w1 evs :
  unreachable (dial_script w0) ->
  ensured t addr None w0 e c1 w1 evs ->
  e = Some ErrConnect /\ c1 = None /\
  evs = [EvDial addr t None; EvSleep retryTimeout;
         EvDial addr t None; EvSleep retryTimeout; EvDial addr t None].
Proof.
  intros Hu He. inversion He; subst; try discriminate.
  - match goal with
    | Hk : (?k < 3)%nat, Ha : attempt _ ?k = Some _ |- _ =>
        rewrite (Hu k Hk) in Ha; discriminate
    end.
  - repeat split.
Qed.

Lemma ensured_reached t addr w0 e c1 w1 evs k p :
  (k < 3)%nat ->
  (forall j, (j < k)%nat -> attempt (dial_script w0) j = None) ->
  attempt (dial_script w0) k = Some p ->
  ensured t addr None w0 e c1 w1 evs ->
  e = None /\
  exists id, c1 = Some id /\ is_open w1 id = true /\ conn_at w1 id = connect p /\
             evs = failed_dials addr t k ++ [EvDial addr t (Some id)].
Proof.
  intros Hk Hbefore Hat He. inversion He as [| k' id p' w Hc Hk' Hb' Ha' Hcn Hop | w Hc Hall Hop];
    subst; try discriminate.
  - assert (k' = k) as ->.
    { destruct (Nat.lt_trichotomy k' k) as [Hlt|[Heq|Hgt]]; [|exact Heq|].
      - rewrite (Hbefore k' Hlt) in Ha'. discriminate.
      - rewrite (Hb' k Hgt) in Hat. discriminate. }
    assert (p' = p) as -> by congruence.
    split; [reflexivity|]. exists id. repeat split; auto.
    rewrite Hop, Nat.eqb_refl. reflexivity.
  - rewrite (Hall k Hk) in Hat. discriminate.
Qed.

(** C5. With no connection stored, [ensureConnection] dials at most three
    times.  If all three attempts fail it has made exactly three, slept the
    back-off after the first and the second only, and returns the
    connection error with no connection stored.  If attempt [k+1] is the
    first to succeed it stops there, after [k] failures each followed by the
    back-off, and returns success with the new connection stored and open. *)
Theorem ensureConnection_retries (s : State)
    (ensure : M State (option error)) (t : option Z) :
  lock_free s -> conn (client s) = None ->
  (ensure = Mutex.ensureConnection /\ t = Some connectTimeout) \/
  (ensure = Part001.ensureConnection /\ t = None) ->
  (unreachable (dial_script (world s)) ->
     fst (ensure s) = Returns (Some ErrConnect) /\
     conn (client (snd (ensure s))) = None /\
     trace (world (snd (ensure s))) =
       trace (world s)
       ++ [EvDial (addr_of s) t None; EvSleep retryTimeout;
           EvDial (addr_of s) t None; EvSleep retryTimeout;
           EvDial (addr_of s) t None]) /\
  (forall k p,
     (k < 3)%nat ->
     (forall j, (j < k)%nat -> attempt (dial_script (world s)) j = None) ->
     attempt (dial_script (world s)) k = Some p ->
     fst (ensure s) = Returns None /\
     exists id,
       conn (client (snd (ensure s))) = Some id /\
       is_open (world (snd (ensure s))) id = true /\
       conn_at (world (snd (ensure s))) id = connect p /\
       trace (world (snd (ensure s))) =
         trace (world s) ++ failed_dials (addr_of s) t k
         ++ [EvDial (addr_of s) t (Some id)]).
Proof.
  intros Hl Hc Hwhich.
  assert (Hpost : ensure_post t s (fst (ensure s)) (snd (ensure s))).
  { destruct Hwhich as [[-> ->]|[-> ->]].
    - apply Mutex_ensureConnection_spec. exact Hl.
    - apply Part001_ensureConnection_spec. }
  destruct Hpost as (e & evs & Ho & He & Hx & _). rewrite Hc in He.
  unfold extends in Hx. split.
  - intros Hu. destruct (ensured_unreachable _ _ _ _ _ _ _ Hu He) as (-> & Hc1 & ->).
    repeat split; assumption.
  - intros k p Hk Hb Ha.
    destruct (ensured_reached _ _ _ _ _ _ _ k p Hk Hb Ha He)
      as (-> & id & Hc1 & Hop & Hcn & ->).
    split; [assumption|]. exists id. repeat split; assumption.
Qed.

End Retry.

Lemma ensureConnection_retries_witness :
  fst (Mutex.ensureConnection
         (Demo.state_of None [None; None; None] []))
  = Returns (Some ErrConnect).
Proof.
  refine (proj1 (proj1
    (ensureConnection_retries
       (Demo.state_of None [None; None; None] [])
       Mutex.ensureConnection (Some connectTimeout) _ _ _) _)).
  - reflexivity.
  - reflexivity.
  - left. split; reflexivity.
  - intros [|[|[|j]]] Hj; try reflexivity. lia.
Defined.

(* ================================================================== *)
(** * C7: a failed write or read tears the connection down *)
(* ================================================================== *)

Section Teardown.
Context `{GoLib}.

Lemma failed_dials_no_io addr t k ev :
  In ev (failed_dials addr t k) -> io_conn ev = None.
Proof.
  induction k as [|k IH]; simpl; [tauto|].
  intros [<-|[<-|Hin]]; auto.
Qed.

Lemma ensured_no_io t addr c0 w0 e c1 w1 evs ev :
  ensured t addr c0 w0 e c1 w1 evs -> In ev evs -> io_conn ev = None.
Proof.
  intros He Hin. inversion He; subst.
  - destruct Hin.
  - apply in_app_or in Hin as [Hin|[<-|[]]]; [|reflexivity].
    now apply failed_dials_no_io in Hin.
  - apply in_app_or in Hin as [Hin|[<-|[]]]; [|reflexivity].
    now apply failed_dials_no_io in Hin.
Qed.

Lemma stage_events_on c js st ev c' :
  In ev (stage_events c js st) -> io_conn ev = Some c' -> c' = c.
Proof.
  destruct st; simpl; intros Hin Hio;
    repeat (destruct Hin as [<-|Hin]; [simpl in Hio; congruence|]);
    destruct Hin.
Qed.

Lemma ensured_starts_with_dial t addr w0 e c1 w1 evs :
  ensured t addr None w0 e c1 w1 evs ->
  exists r rest, evs = EvDial addr t r :: rest.
Proof.
  intros He. inversion He as [| k id p w ? Hk | w]; subst; try discriminate.
  - destruct k as [|k]; simpl; eauto.
  - simpl. eauto.
Qed.

Lemma sent_inv t addr js c0 w0 o c1 w1 evs :
  sent t addr js c0 w0 o c1 w1 evs ->
  (o = Returns (Err ErrConnect) /\ c1 = None /\
   ensured t addr c0 w0 (Some ErrConnect) None w1 evs) \/
  (exists c wm evs1 st,
     ensured t addr c0 w0 None (Some c) wm evs1 /\
     st = exchange (mem_limit w0) (conn_at wm c) /\
     stage_ok (mem_limit w0) st /\
     (forall c', is_open w1 c' =
                 if (c' =? c)%nat && torn_down st then false
                 else is_open wm c') /\
     o = stage_result st /\
     c1 = (if torn_down st then None else Some c) /\
     evs = evs1 ++ stage_events c js st ++ closing c st).
Proof.
  intros Hs.
  destruct Hs as [w1 evs He|c wm evs st o c1 w1 evs' He Hst Hok Hop Ho Hc1 Hevs].
  - left. auto.
  - right. exists c, wm, evs, st.
    exact (conj He (conj Hst (conj Hok (conj Hop (conj Ho (conj Hc1 Hevs)))))).
Qed.

Lemma sent_starts_with_dial t addr js w0 o c1 w1 evs :
  sent t addr js None w0 o c1 w1 evs ->
  exists r rest, evs = EvDial addr t r :: rest.
Proof.
  intros Hs. apply sent_inv in Hs as [(_ & _ & He)|(c & wm & evs1 & st & He & _ & _ & _ & _ & _ & ->)].
  - eapply ensured_starts_with_dial; eauto.
  - destruct (ensured_starts_with_dial _ _ _ _ _ _ _ He) as (r & rest & ->).
    simpl. eauto.
Qed.

Lemma io_error_stage st e :
  stage_result st = Returns (Err e) -> torn_down st = true.
Proof. destruct st; simpl; intros E; try reflexivity; discriminate. Qed.

(** What both variants of [sendRequest] guarantee. *)
Definition is_sendRequest (send : Request -> M State (result error bytes))
    (t : option Z) : Prop :=
  forall req s, lock_free s ->
    send_post t req s (fst (send req s)) (snd (send req s)).

Lemma Mutex_is_sendRequest :
  is_sendRequest Mutex.sendRequest (Some connectTimeout).
Proof. intros req s Hl. now apply Mutex_sendRequest_spec. Qed.

Lemma Part001_is_sendRequest : is_sendRequest Part001.sendRequest None.
Proof. intros req s Hl. now apply Part001_sendRequest_spec. Qed.

Lemma teardown_generic send t (req : Request) (s : State) (e : error) :
  is_sendRequest send t ->
  lock_free s ->
  fst (send req s) = Returns (Err e) ->
  e = ErrWrite \/ e = ErrRead ->
  conn (client (snd (send req s))) = None /\
  lock_free (snd (send req s)) /\
  (exists c evs,
     trace (world (snd (send req s))) = trace (world s) ++ evs ++ [EvClose c] /\
     is_open (world (snd (send req s))) c = false /\
     (forall ev c', In ev evs -> io_conn ev = Some c' -> c' = c)) /\
  (forall req2, exists r evs2,
     trace (world (snd (send req2 (snd (send req s))))) =
       trace (world (snd (send req s))) ++ EvDial (addr_of s) t r :: evs2).
Proof.
  intros Hsend Hl Ho He.
  destruct (Hsend req s Hl) as (evs & Hs & Hx & Hst & Hl').
  rewrite Ho in Hs. unfold extends in Hx.
  apply sent_inv in Hs
    as [(Hres & _)|(c & wm & evs' & st & Hen & _ & _ & Hop & Hres & Hc1 & ->)].
  { destruct He; subst; discriminate. }
  pose proof (io_error_stage _ _ (eq_sym Hres)) as Htorn.
  rewrite Htorn in Hc1. unfold closing in Hx. rewrite Htorn in Hx.
  assert (Hnone : conn (client (snd (send req s))) = None) by exact Hc1.
  split; [exact Hnone|]. split; [exact Hl'|]. split.
  - exists c, (evs' ++ stage_events c (payload req) st). split; [|split].
    + rewrite Hx, <- !app_assoc. reflexivity.
    + rewrite Hop, Nat.eqb_refl, Htorn. reflexivity.
    + intros ev c' Hin Hio. apply in_app_or in Hin as [Hin|Hin].
      * rewrite (ensured_no_io _ _ _ _ _ _ _ _ _ Hen Hin) in Hio. discriminate.
      * eapply stage_events_on; eauto.
  - intros req2.
    destruct (Hsend req2 _ Hl') as (evs2 & Hs2 & Hx2 & _).
    rewrite Hnone in Hs2.
    destruct (sent_starts_with_dial _ _ _ _ _ _ _ _ Hs2) as (r & rest & ->).
    exists r, rest. unfold extends in Hx2. rewrite Hx2.
    destruct Hst as (Hh & Hp & _). unfold addr_of. now rewrite Hh, Hp.
Qed.

(** What the connection [cn] is going to do makes the exchange fail with
    [e]: the header or the body cannot be written, or the stream ends
    before the eight bytes of the header, or before the announced body (of
    a length the allocator grants). *)
Definition io_fails (lim : Z) (cn : Conn) (e : error) : Prop :=
  let header_written := negb (closed cn) && hd false (write_ok cn) in
  let body_written := negb (closed cn) && hd false (tl (write_ok cn)) in
  (header_written = false /\ e = ErrWrite) \/
  (header_written = true /\ body_written = false /\ e = ErrWrite) \/
  (header_written = true /\ body_written = true /\
   readFull headerSize (inbound cn) = None /\ e = ErrRead) \/
  (header_written = true /\ body_written = true /\
   exists hb rest,
     readFull headerSize (inbound cn) = Some (hb, rest) /\
     Uint64 hb <= lim /\ readFull (Uint64 hb) rest = None /\ e = ErrRead).

(** The connection the next call is going to use: the stored one, or, with
    none stored, the one of the first dial attempt that succeeds among the
    three. *)
Definition uses (s : State) (cn : Conn) : Prop :=
  match conn (client s) with
  | Some c => cn = conn_at (world s) c
  | None =>
      exists k p,
        (k < 3)%nat /\
        (forall j, (j < k)%nat -> attempt (dial_script (world s)) j = None) /\
        attempt (dial_script (world s)) k = Some p /\
        cn = connect p
  end.

Lemma io_fails_exchange lim cn e :
  io_fails lim cn e ->
  stage_result (exchange lim cn) = Returns (Err e) /\
  (e = ErrWrite \/ e = ErrRead).
Proof.
  unfold io_fails, exchange. cbv zeta.
  intros [(H1 & ->)|[(H1 & H2 & ->)|[(H1 & H2 & Hr & ->)
                                     |(H1 & H2 & hb & rest & Hr & Hlim & Hb & ->)]]].
  - rewrite H1. simpl. auto.
  - rewrite H1, H2. simpl. auto.
  - rewrite H1, H2. cbn [negb].
    apply andb_prop in H1 as [Hc _]. apply negb_true_iff in Hc. rewrite Hc, Hr.
    simpl. auto.
  - rewrite H1, H2. cbn [negb].
    apply andb_prop in H1 as [Hc _]. apply negb_true_iff in Hc. rewrite Hc, Hr.
    destruct (Z.leb_spec (Uint64 hb) lim); [|lia].
    destruct (Z.eqb_spec (Uint64 hb) 0) as [E0|E0].
    + rewrite E0, readFull_zero in Hb. discriminate.
    + rewrite Hb. simpl. auto.
Qed.

(** The exchange of a call runs on the connection the state [uses]. *)
Lemma sent_uses t req s o c1 w1 evs cn :
  uses s cn ->
  sent t (addr_of s) (payload req) (conn (client s)) (world s) o c1 w1 evs ->
  o = stage_result (exchange (mem_limit (world s)) cn).
Proof.
  unfold uses. intros Hu Hs.
  apply sent_inv in Hs
    as [(_ & _ & He)|(c & wm & evs1 & st & He & -> & _ & _ & -> & _)].
  - exfalso. destruct (conn (client s)) as [c|].
    + inversion He; discriminate.
    + destruct Hu as (k & p & Hk & Hb & Ha & _).
      destruct (ensured_reached _ _ _ _ _ _ _ _ _ Hk Hb Ha He) as [E _].
      discriminate.
  - destruct (conn (client s)) as [c0|].
    + subst cn. inversion He; subst; try discriminate.
      match goal with E : Some _ = Some _ |- _ => injection E as -> end.
      reflexivity.
    + destruct Hu as (k & p & Hk & Hb & Ha & ->).
      destruct (ensured_reached _ _ _ _ _ _ _ _ _ Hk Hb Ha He)
        as (_ & id & E & _ & Hcn & _).
      injection E as ->. now rewrite Hcn.
Qed.

(** C7. When a write or a read of [sendRequest] fails on the connection it
    uses (the stored one, or the one it has just dialled), the call returns
    that error with the connection closed and nothing stored any more;
    closing was the last thing it did on the network, and all its reads and
    writes were on that one connection.  The next call starts by
    dialling. *)
Theorem io_failure_tears_down (req : Request) (s : State) (e : error)
    (cn : Conn)
    (send : Request -> M State (result error bytes)) (t : option Z) :
  lock_free s ->
  (send = Mutex.sendRequest /\ t = Some connectTimeout) \/
  (send = Part001.sendRequest /\ t = None) ->
  uses s cn ->
  io_fails (mem_limit (world s)) cn e ->
  fst (send req s) = Returns (Err e) /\
  conn (client (snd (send req s))) = None /\
  lock_free (snd (send req s)) /\
  (exists c evs,
     trace (world (snd (send req s))) = trace (world s) ++ evs ++ [EvClose c] /\
     is_open (world (snd (send req s))) c = false /\
     (forall c', conn (client s) = Some c' -> c = c') /\
     (forall ev c', In ev evs -> io_conn ev = Some c' -> c' = c)) /\
  (forall req2, exists r evs2,
     trace (world (snd (send req2 (snd (send req s))))) =
       trace (world (snd (send req s))) ++ EvDial (addr_of s) t r :: evs2).
Proof.
  intros Hl Hwhich Hu Hf.
  assert (Hsend : is_sendRequest send t).
  { destruct Hwhich as [[-> ->]|[-> ->]];
      [apply Mutex_is_sendRequest|apply Part001_is_sendRequest]. }
  destruct (io_fails_exchange _ _ _ Hf) as [Hst He].
  destruct (Hsend req s Hl) as (evs & Hs & Hx & _).
  pose proof (sent_uses _ _ _ _ _ _ _ _ Hu Hs) as Ho. rewrite Hst in Ho.
  split; [exact Ho|].
  destruct (teardown_generic send t req s e Hsend Hl Ho He)
    as (Hnone & Hl' & (c & evs' & Ht & Hop & Hio) & Hnext).
  split; [exact Hnone|]. split; [exact Hl'|]. split; [|exact Hnext].
  exists c, evs'. split; [exact Ht|]. split; [exact Hop|]. split; [|exact Hio].
  intros c' Hc'.
  rewrite Ho, Hc' in Hs. apply sent_on_stored in Hs. cbv zeta in Hs.
  destruct Hs as (Hres & _ & Hevs & _).
  pose proof (io_error_stage _ _ (eq_sym Hres)) as Htorn.
  unfold extends in Hx. rewrite Hx in Ht. apply app_inv_head in Ht.
  rewrite Hevs in Ht. unfold closing in Ht. rewrite Htorn in Ht.
  apply app_inj_tail in Ht as [_ E]. now injection E.
Qed.

End Teardown.

Lemma io_failure_tears_down_witness :
  fst (Part001.sendRequest (H := Demo.lib) (ModelsRequest "list_models")
         (Demo.state_of None
            [None; Some (mkPeer (firstn 9 (Demo.frame_of "{}")) [true; true])]
            []))
  = Returns (Err ErrRead).
Proof.
  refine (proj1
    (io_failure_tears_down (H := Demo.lib) (ModelsRequest "list_models")
       (Demo.state_of None
          [None; Some (mkPeer (firstn 9 (Demo.frame_of "{}")) [true; true])]
          [])
       ErrRead
       (connect (mkPeer (firstn 9 (Demo.frame_of "{}")) [true; true]))
       Part001.sendRequest None _ _ _ _)).
  - reflexivity.
  - right. split; reflexivity.
  - exists 1%nat, (mkPeer (firstn 9 (Demo.frame_of "{}")) [true; true]).
    split; [lia|]. split; [|split; reflexivity].
    intros [|j] Hj; [reflexivity|lia].
  - right. right. right. split; [reflexivity|]. split; [reflexivity|].
    exists (firstn 8 (Demo.frame_of "{}")), [x7b].
    split; [reflexivity|]. split; [vm_compute; discriminate|].
    split; reflexivity.
Defined.

(* ================================================================== *)
(** * The facade operations *)
(* ================================================================== *)

Section Facade.
Context `{GoLib}.

(** The language as the two later variants put it in the request. *)
Definition normalized (language : option string) : option string :=
  match language with
  | Some l => if String.eqb l "" then None else language
  | None => language
  end.

(** What [handleResponse] makes of the outcome of the transport call, and
    whether it counts an error. *)
Definition handled (o1 : outcome (result error bytes))
    : outcome (result error (TranscriptionResponse Segment)) * bool :=
  match o1 with
  | Returns (Ok buf) =>
      match json_Unmarshal_Transcription buf with
      | None => (Returns (Err ErrUnmarshal), true)
      | Some r =>
          if negb (String.eqb (tr_Error r) "")
          then (Returns (Err (ErrResponse (tr_Error r))), true)
          else (Returns (Ok r), false)
      end
  | Returns (Err e) => (Returns (Err e), false)
  | Panics => (Panics, false)
  | Blocks => (Blocks, false)
  end.

(** The inline decoding of [ListModels], which counts nothing. *)
Definition listed (o1 : outcome (result error bytes))
    : outcome (result error ModelsResponse) * bool :=
  match o1 with
  | Returns (Ok buf) =>
      match json_Unmarshal_Models buf with
      | None => (Returns (Err ErrUnmarshal), false)
      | Some r =>
          if negb (String.eqb (mr_Error r) "")
          then (Returns (Err (ErrResponse (mr_Error r))), false)
          else (Returns (Ok r), false)
      end
  | Returns (Err e) => (Returns (Err e), false)
  | Panics => (Panics, false)
  | Blocks => (Blocks, false)
  end.

(** The inline decoding of the variant without metrics. *)
Definition decoded_map (o1 : outcome (result error bytes))
    : outcome (result error (TranscriptionResponse json)) * bool :=
  match o1 with
  | Returns (Ok buf) =>
      match json_Unmarshal_TranscriptionMap buf with
      | None => (Returns (Err ErrUnmarshal), false)
      | Some r =>
          if negb (String.eqb (tr_Error r) "")
          then (Returns (Err (ErrResponse (tr_Error r))), false)
          else (Returns (Ok r), false)
      end
  | Returns (Err e) => (Returns (Err e), false)
  | Panics => (Panics, false)
  | Blocks => (Blocks, false)
  end.

(** [Transcribe] of golang/whisper_client.go wraps a transport error. *)
Definition wrapped (o1 : outcome (result error bytes))
    : outcome (result error bytes) :=
  match o1 with
  | Returns (Err e) => Returns (Err (Errorf "send request" e))
  | _ => o1
  end.

(** [s'] is [s1] but for the error counter, which went up by one if [err]. *)
Definition then_counted (s1 s' : State) (err : bool) : Prop :=
  world s' = world s1 /\
  Host (client s') = Host (client s1) /\
  Port (client s') = Port (client s1) /\
  conn (client s') = conn (client s1) /\
  connLock (client s') = connLock (client s1) /\
  RequestsTotal (metrics (client s')) = RequestsTotal (metrics (client s1)) /\
  ProcessingTimeMs (metrics (client s')) = ProcessingTimeMs (metrics (client s1)) /\
  ErrorsTotal (metrics (client s')) =
    (if err then wrap64 (ErrorsTotal (metrics (client s1)) + 1)
     else ErrorsTotal (metrics (client s1))).

(** A facade operation: a transport call [send] that ends in [o1], [s1],
    then the decoding [f] of its outcome. *)
Definition facade_post {A} (send : M State (result error bytes))
    (f : outcome (result error bytes) -> outcome (result error A) * bool)
    (s : State) (o : outcome (result error A)) (s' : State) : Prop :=
  let o1 := fst (send s) in
  let s1 := snd (send s) in
  o = fst (f o1) /\ then_counted s1 s' (snd (f o1)).

Lemma then_counted_refl s : then_counted s s false.
Proof. repeat split. Qed.

Ltac facade_leaf :=
  unfold facade_post; cbv zeta;
  match goal with
  | E : ?m ?s = (_, _) |- context [?m ?s] => rewrite E
  end;
  cbn [fst snd handled listed decoded_map wrapped];
  repeat match goal with
         | E : ?x = _ |- context [match ?x with _ => _ end] => rewrite E
         end;
  cbn [fst snd negb];
  split; [reflexivity|]; unfold then_counted; wp_simpl; repeat split.

Lemma Mutex_handleResponse_spec buf s :
  run (Mutex.handleResponse buf) s (fun o s' =>
    o = fst (handled (Returns (Ok buf))) /\
    then_counted s s' (snd (handled (Returns (Ok buf))))).
Proof.
  unfold Mutex.handleResponse, handled.
  destruct (json_Unmarshal_Transcription buf) as [r|]; wp.
  - destruct (negb (tr_Error r =? "")%string); wp;
      cbn [fst snd]; split; try reflexivity; unfold then_counted; wp_simpl;
      repeat split.
  - cbn [fst snd]; split; try reflexivity; unfold then_counted; wp_simpl;
      repeat split.
Qed.

Lemma Mutex_TranscribeData_spec data model language task s :
  run (Mutex.TranscribeData data model language task) s
    (facade_post
       (Mutex.sendRequest
          (DataTranscriptionRequest "transcribe" (base64_EncodeToString data)
             model (normalized language) task))
       handled s).
Proof.
  unfold Mutex.TranscribeData. fold (normalized language). wp_simpl.
  apply run_bind. apply run_intro. intros o s1 E.
  destruct o as [[buf|e]| |].
  - eapply run_conseq; [apply Mutex_handleResponse_spec|].
    intros o s' [-> Hc]. unfold facade_post. rewrite E. cbn [fst snd]. auto.
  - wp. facade_leaf.
  - facade_leaf.
  - facade_leaf.
Qed.

Lemma Mutex_ListModels_spec s :
  run Mutex.ListModels s
    (facade_post (Mutex.sendRequest (ModelsRequest "list_models")) listed s).
Proof.
  unfold Mutex.ListModels. wp_simpl.
  apply run_bind. apply run_intro. intros o s1 E.
  destruct o as [[buf|e]| |].
  - destruct (json_Unmarshal_Models buf) as [r|] eqn:Er;
      [destruct (negb (mr_Error r =? "")%string) eqn:Ee|]; wp; facade_leaf.
  - wp. facade_leaf.
  - facade_leaf.
  - facade_leaf.
Qed.

Lemma Part000_Transcribe_spec path model language task s absPath :
  fs_abs (world s) path = Some absPath ->
  run (Part000.Transcribe path model language task) s
    (facade_post
       (Mutex.sendRequest
          (FileTranscriptionRequest "transcribe" absPath model
             (normalized language) task))
       handled s).
Proof.
  intros Ha. unfold Part000.Transcribe. fold (normalized language). wp.
  rewrite Ha. wp_simpl.
  apply run_bind. apply run_intro. intros o s1 E.
  destruct o as [[buf|e]| |].
  - eapply run_conseq; [apply Mutex_handleResponse_spec|].
    intros o s' [-> Hc]. unfold facade_post. rewrite E. cbn [fst snd]. auto.
  - wp. facade_leaf.
  - facade_leaf.
  - facade_leaf.
Qed.

(** A transport call whose error, if any, the caller wraps. *)
Definition wrapping (m : M State (result error bytes))
    : M State (result error bytes) :=
  fun s => (wrapped (fst (m s)), snd (m s)).

(** The context [Transcribe] of golang/whisper_client.go makes for itself. *)
Definition own_context (s : State) : Context :=
  mkContext (Some (now (world s) + 30 * minute)) DeadlineExceeded.

Lemma Golang_Transcribe_spec path model language task s absPath :
  fs_abs (world s) path = Some absPath ->
  fs_stat (world s) absPath <> StatNotExist ->
  run (Golang.Transcribe path model language task) s
    (facade_post
       (wrapping
          (Golang.sendRequestWithContext (own_context s)
             (FileTranscriptionRequest "transcribe" absPath model
                (normalized language) task)))
       handled s).
Proof.
  intros Ha Hst. unfold Golang.Transcribe, Golang.context_WithTimeout.
  fold (normalized language). wp. rewrite Ha. wp.
  assert (Hgo : forall Q,
    run (ctx <- (t <- time_Now;; ret (mkContext (Some (t + 30 * minute)) DeadlineExceeded));;
         r <- Golang.sendRequestWithContext ctx
                (FileTranscriptionRequest "transcribe" absPath model
                   (normalized language) task);;
         match r with
         | Ok responseData => Mutex.handleResponse responseData
         | Err err => ret (Err (Errorf "send request" err))
         end) s Q ->
    run match fs_stat (world s) absPath with
        | StatNotExist => ret (Err (ErrNotExist absPath))
        | _ =>
            ctx <- (t <- time_Now;; ret (mkContext (Some (t + 30 * minute)) DeadlineExceeded));;
            r <- Golang.sendRequestWithContext ctx
                   (FileTranscriptionRequest "transcribe" absPath model
                      (normalized language) task);;
            match r with
            | Ok responseData => Mutex.handleResponse responseData
            | Err err => ret (Err (Errorf "send request" err))
            end
        end s Q).
  { intros Q HQ. destruct (fs_stat (world s) absPath); [exact HQ|congruence|exact HQ]. }
  apply Hgo. apply run_bind. apply run_bind. unfold time_Now.
  apply run_gets. wp_simpl. apply run_ret. wp_simpl. fold (own_context s).
  apply run_bind. apply run_intro. intros o s1 E.
  unfold facade_post, wrapping. cbv zeta. cbn [fst snd]. rewrite E. cbn [fst snd].
  destruct o as [[buf|e]| |]; cbn [wrapped].
  - eapply run_conseq; [apply Mutex_handleResponse_spec|].
    intros o s' [-> Hc]. auto.
  - wp. cbn [handled fst snd]. split; [reflexivity|apply then_counted_refl].
  - cbn [handled fst snd]. split; [reflexivity|apply then_counted_refl].
  - cbn [handled fst snd]. split; [reflexivity|apply then_counted_refl].
Qed.

Lemma Part001_decode_spec buf s :
  run match json_Unmarshal_TranscriptionMap buf with
      | Some response =>
          if negb (tr_Error response =? "")%string
          then ret (Err (ErrResponse (tr_Error response)))
          else ret (Ok response)
      | None => ret (Err ErrUnmarshal)
      end s
    (fun o s' => o = fst (decoded_map (Returns (Ok buf))) /\ s' = s).
Proof.
  unfold decoded_map.
  destruct (json_Unmarshal_TranscriptionMap buf) as [r|]; wp.
  - destruct (negb (tr_Error r =? "")%string); wp; cbn [fst]; auto.
  - cbn [fst]; auto.
Qed.

Lemma Part001_Transcribe_spec path model language task s absPath :
  fs_abs (world s) path = Some absPath ->
  run (Part001.Transcribe path model language task) s
    (facade_post
       (Part001.sendRequest
          (TranscriptionRequest "transcribe" absPath "" model language task))
       decoded_map s).
Proof.
  intros Ha. unfold Part001.Transcribe. wp. rewrite Ha. wp_simpl.
  apply run_bind. apply run_intro. intros o s1 E.
  unfold facade_post. cbv zeta. rewrite E. cbn [fst snd].
  destruct o as [[buf|e]| |].
  - eapply run_conseq; [apply Part001_decode_spec|].
    intros o s' [-> ->]. split; [reflexivity|].
    replace (snd (decoded_map (Returns (Ok buf)))) with false;
      [apply then_counted_refl|].
    unfold decoded_map.
    destruct (json_Unmarshal_TranscriptionMap buf) as [r|]; [|reflexivity].
    destruct (negb (tr_Error r =? "")%string); reflexivity.
  - wp. split; [reflexivity|apply then_counted_refl].
  - split; [reflexivity|apply then_counted_refl].
  - split; [reflexivity|apply then_counted_refl].
Qed.

Lemma Part001_TranscribeData_spec data model language task s :
  run (Part001.TranscribeData data model language task) s
    (facade_post
       (Part001.sendRequest
          (TranscriptionRequest "transcribe" "" (base64_EncodeToString data)
             model language task))
       decoded_map s).
Proof.
  unfold Part001.TranscribeData. wp_simpl.
  apply run_bind. apply run_intro. intros o s1 E.
  unfold facade_post. cbv zeta. rewrite E. cbn [fst snd].
  destruct o as [[buf|e]| |].
  - eapply run_conseq; [apply Part001_decode_spec|].
    intros o s' [-> ->]. split; [reflexivity|].
    replace (snd (decoded_map (Returns (Ok buf)))) with false;
      [apply then_counted_refl|].
    unfold decoded_map.
    destruct (json_Unmarshal_TranscriptionMap buf) as [r|]; [|reflexivity].
    destruct (negb (tr_Error r =? "")%string); reflexivity.
  - wp. split; [reflexivity|apply then_counted_refl].
  - split; [reflexivity|apply then_counted_refl].
  - split; [reflexivity|apply then_counted_refl].
Qed.

Lemma Part001_ListModels_spec s :
  run Part001.ListModels s
    (facade_post (Part001.sendRequest (ModelsRequest "list_models")) listed s).
Proof.
  unfold Part001.ListModels. wp_simpl.
  apply run_bind. apply run_intro. intros o s1 E.
  destruct o as [[buf|e]| |].
  - destruct (json_Unmarshal_Models buf) as [r|] eqn:Er;
      [destruct (negb (mr_Error r =? "")%string) eqn:Ee|]; wp; facade_leaf.
  - wp. facade_leaf.
  - facade_leaf.
  - facade_leaf.
Qed.

End Facade.

(* ================================================================== *)
(** * C9: the context is consulted once, on entry *)
(* ================================================================== *)

(** Is [ctx.Done()] closed in state [s]? *)
Definition done_in (ctx : Context) (s : State) : bool :=
  match done_at ctx with
  | Some d => d <=? now (world s)
  | None => false
  end.

Section Cancellation.
Context `{GoLib}.

(** C9. Each [...WithContext] operation looks at the context once, before
    anything else: if it is done the operation returns the context's error
    and the state is untouched; if not, the operation is the plain one,
    whenever (if ever) the context is cancelled afterwards. *)
Theorem context_checked_on_entry (ctx : Context) (path model task : string)
    (language : option string) (data : bytes) (s : State) :
  Golang.TranscribeWithContext ctx path model language task s
  = (if done_in ctx s then (Returns (Err (ErrContext (ctx_Err ctx))), s)
     else Golang.Transcribe path model language task s) /\
  Part000.TranscribeWithContext ctx path model language task s
  = (if done_in ctx s then (Returns (Err (ErrContext (ctx_Err ctx))), s)
     else Part000.Transcribe path model language task s) /\
  Mutex.TranscribeDataWithContext ctx data model language task s
  = (if done_in ctx s then (Returns (Err (ErrContext (ctx_Err ctx))), s)
     else Mutex.TranscribeData data model language task s).
Proof.
  unfold Golang.TranscribeWithContext, Part000.TranscribeWithContext,
    Mutex.TranscribeDataWithContext, Mutex.ctx_is_done, done_in,
    time_Now, bind, gets, ret.
  destruct (done_at ctx) as [d|]; [destruct (d <=? now (world s))|];
    repeat split.
Qed.

(** Two contexts that are both still open on entry give the same call,
    whatever happens to them later. *)
Lemma later_cancellation_is_ignored (ctx1 ctx2 : Context)
    (path model task : string) (language : option string) (s : State) :
  done_in ctx1 s = false -> done_in ctx2 s = false ->
  Golang.TranscribeWithContext ctx1 path model language task s
  = Golang.TranscribeWithContext ctx2 path model language task s.
Proof.
  unfold done_in, Golang.TranscribeWithContext, Mutex.ctx_is_done,
    time_Now, bind, gets, ret.
  destruct (done_at ctx1) as [d1|], (done_at ctx2) as [d2|]; simpl;
    intros H1 H2; rewrite ?H1, ?H2; reflexivity.
Qed.

End Cancellation.

(* ================================================================== *)
(** * C8: the path is resolved before anything is sent *)
(* ================================================================== *)

Section Paths.
Context `{GoLib}.

(** The data of every [Write] among [evs] is the header or the body of the
    frame of [js]. *)
Definition writes_frame_of (js : bytes) (evs : list Event) : Prop :=
  forall c d ok, In (EvWrite c d ok) evs -> d = encodeHeader js \/ d = js.

Lemma failed_dials_no_write addr t k c d ok :
  ~ In (EvWrite c d ok) (failed_dials addr t k).
Proof.
  induction k as [|k IH]; simpl; [tauto|].
  intros [E|[E|Hin]]; try discriminate. auto.
Qed.

Lemma stage_events_writes c js st : writes_frame_of js (stage_events c js st).
Proof.
  intros c' d ok Hin. destruct st; simpl in Hin;
    repeat (destruct Hin as [E|Hin]; [inversion E; auto|]); destruct Hin.
Qed.

Lemma ensured_no_write t addr c0 w0 e c1 w1 evs c d ok :
  ensured t addr c0 w0 e c1 w1 evs -> ~ In (EvWrite c d ok) evs.
Proof.
  intros He Hin. apply (ensured_no_io _ _ _ _ _ _ _ _ _ He) in Hin.
  discriminate.
Qed.

Lemma sent_writes t addr js c0 w0 o c1 w1 evs :
  sent t addr js c0 w0 o c1 w1 evs -> writes_frame_of js evs.
Proof.
  intros Hs c d ok Hin.
  apply sent_inv in Hs as [(_ & _ & He)|(c' & wm & evs1 & st & He & _ & _ & _ & _ & _ & ->)].
  - now apply (ensured_no_write _ _ _ _ _ _ _ _ c d ok) in He.
  - apply in_app_or in Hin as [Hin|Hin].
    + now apply (ensured_no_write _ _ _ _ _ _ _ _ c d ok) in He.
    + apply in_app_or in Hin as [Hin|Hin].
      * eapply stage_events_writes; eauto.
      * unfold closing in Hin. destruct (torn_down st); simpl in Hin;
          [destruct Hin as [E|[]]; discriminate|destruct Hin].
Qed.

Lemma sent_fresh_writes addr js w0 o w1 evs :
  sent_fresh addr js w0 o w1 evs -> writes_frame_of js evs.
Proof.
  intros Hs c d ok Hin. destruct Hs as [w1 Hd Hop|id p st o w1 evs Hid Hd Hst Hok Hop Ho ->].
  - destruct Hin as [E|[]]. discriminate.
  - destruct Hin as [E|Hin]; [discriminate|].
    apply in_app_or in Hin as [Hin|[E|[]]]; [|discriminate].
    eapply stage_events_writes; eauto.
Qed.

Lemma facade_trace {A} send (f : _ -> outcome (result error A) * bool) s o s' :
  facade_post send f s o s' -> trace (world s') = trace (world (snd (send s))).
Proof. intros (_ & Hw & _). now rewrite Hw. Qed.

(** On a connection that accepts both writes, the header and the body of
    the request are written, in this order, before anything else. *)
Lemma exchange_writes_frame lim cn c js :
  closed cn = false ->
  hd false (write_ok cn) = true -> hd false (tl (write_ok cn)) = true ->
  exists rest,
    stage_events c js (exchange lim cn)
    = EvWrite c (encodeHeader js) true :: EvWrite c js true :: rest.
Proof.
  intros Hcl Hw1 Hw2. unfold exchange. rewrite Hcl, Hw1, Hw2. cbn [negb andb].
  destruct (readFull headerSize (inbound cn)) as [[hb rest]|];
    [|simpl; eauto].
  destruct (Uint64 hb <=? lim); [|simpl; eauto].
  destruct (Uint64 hb =? 0); [simpl; eauto|].
  destruct (readFull (Uint64 hb) rest) as [[buf ?]|]; simpl; eauto.
Qed.

Lemma stored_call_writes_frame send t req s c :
  is_sendRequest send t -> lock_free s ->
  conn (client s) = Some c ->
  closed (conn_at (world s) c) = false ->
  hd false (write_ok (conn_at (world s) c)) = true ->
  hd false (tl (write_ok (conn_at (world s) c))) = true ->
  exists rest,
    trace (world (snd (send req s)))
    = trace (world s)
      ++ EvWrite c (encodeHeader (payload req)) true
      :: EvWrite c (payload req) true :: rest.
Proof.
  intros Hsend Hl Hc Hcl Hw1 Hw2.
  destruct (Hsend req s Hl) as (evs & Hs & Hx & _).
  rewrite Hc in Hs. apply sent_on_stored in Hs. cbv zeta in Hs.
  destruct Hs as (_ & _ & -> & _). unfold extends in Hx. rewrite Hx.
  destruct (exchange_writes_frame (mem_limit (world s)) _ c (payload req)
              Hcl Hw1 Hw2) as (rest & ->).
  eexists. simpl. reflexivity.
Qed.

Lemma fresh_call_writes_frame ctx req s p :
  hd None (dial_script (world s)) = Some p ->
  hd false (p_write_ok p) = true -> hd false (tl (p_write_ok p)) = true ->
  exists rest,
    trace (world (snd (Golang.sendRequestWithContext ctx req s)))
    = trace (world s)
      ++ EvDial (addr_of s) (Some (30 * second))
                (Some (List.length (conns (world s))))
      :: EvWrite (List.length (conns (world s)))
                 (encodeHeader (payload req)) true
      :: EvWrite (List.length (conns (world s))) (payload req) true :: rest.
Proof.
  intros Hd Hw1 Hw2.
  destruct (Golang_sendRequestWithContext_spec ctx req s)
    as [(evs & Hs & Hx & _) _].
  unfold extends in Hx. rewrite Hx.
  destruct Hs as [w1 Hd' _|id p' st o w1 evs' -> Hd' -> _ _ _ ->];
    [congruence|].
  rewrite Hd in Hd'. injection Hd' as <-.
  destruct (exchange_writes_frame (mem_limit (world s)) (connect p)
              (List.length (conns (world s))) (payload req)
              eq_refl Hw1 Hw2) as (rest & ->).
  eexists. simpl. reflexivity.
Qed.

(** C8. [Transcribe] first makes the path absolute.  If that fails, or, in
    golang/whisper_client.go, if the file does not exist, it returns the
    error with the state as it was: nothing dialled, written or counted.
    Otherwise the call is the transport call of the request whose
    [audio_path] is the absolute path, followed by the decoding of its
    result: on a connection that accepts the writes, the frame of that
    request is what goes on the wire, and nothing else is ever written. *)
Theorem path_resolved_before_sending (path model task : string)
    (language : option string) (s : State) :
  (fs_abs (world s) path = None ->
   Golang.Transcribe path model language task s
     = (Returns (Err (Errorf "absolute path" ErrAbs)), s) /\
   Part000.Transcribe path model language task s
     = (Returns (Err (Errorf "absolute path" ErrAbs)), s) /\
   Part001.Transcribe path model language task s
     = (Returns (Err (Errorf "absolute path" ErrAbs)), s)) /\
  (forall absPath,
     fs_abs (world s) path = Some absPath ->
     let req := FileTranscriptionRequest "transcribe" absPath model
                  (normalized language) task in
     let req1 := TranscriptionRequest "transcribe" absPath "" model
                   language task in
     (fs_stat (world s) absPath = StatNotExist ->
      Golang.Transcribe path model language task s
        = (Returns (Err (ErrNotExist absPath)), s)) /\
     In (member "audio_path" absPath) (members req) /\
     (absPath <> ""%string -> In (member "audio_path" absPath) (members req1)) /\
     (* golang/whisper_client.go *)
     (fs_stat (world s) absPath <> StatNotExist ->
      facade_post
        (wrapping (Golang.sendRequestWithContext (own_context s) req))
        handled s
        (fst (Golang.Transcribe path model language task s))
        (snd (Golang.Transcribe path model language task s)) /\
      (exists evs,
         trace (world (snd (Golang.Transcribe path model language task s)))
         = trace (world s) ++ evs /\ writes_frame_of (payload req) evs) /\
      (forall p,
         hd None (dial_script (world s)) = Some p ->
         hd false (p_write_ok p) = true ->
         hd false (tl (p_write_ok p)) = true ->
         exists rest,
           trace (world (snd (Golang.Transcribe path model language task s)))
           = trace (world s)
             ++ EvDial (addr_of s) (Some (30 * second))
                       (Some (List.length (conns (world s))))
             :: EvWrite (List.length (conns (world s)))
                        (encodeHeader (payload req)) true
             :: EvWrite (List.length (conns (world s))) (payload req) true
             :: rest)) /\
     (* unnamed/part_000 and unnamed/part_001 *)
     (lock_free s ->
      facade_post (Mutex.sendRequest req) handled s
        (fst (Part000.Transcribe path model language task s))
        (snd (Part000.Transcribe path model language task s)) /\
      facade_post (Part001.sendRequest req1) decoded_map s
        (fst (Part001.Transcribe path model language task s))
        (snd (Part001.Transcribe path model language task s)) /\
      (exists evs,
         trace (world (snd (Part000.Transcribe path model language task s)))
         = trace (world s) ++ evs /\ writes_frame_of (payload req) evs) /\
      (exists evs,
         trace (world (snd (Part001.Transcribe path model language task s)))
         = trace (world s) ++ evs /\ writes_frame_of (payload req1) evs) /\
      (forall c,
         conn (client s) = Some c ->
         closed (conn_at (world s) c) = false ->
         hd false (write_ok (conn_at (world s) c)) = true ->
         hd false (tl (write_ok (conn_at (world s) c))) = true ->
         (exists rest,
            trace (world (snd (Part000.Transcribe path model language task s)))
            = trace (world s)
              ++ EvWrite c (encodeHeader (payload req)) true
              :: EvWrite c (payload req) true :: rest) /\
         (exists rest,
            trace (world (snd (Part001.Transcribe path model language task s)))
            = trace (world s)
              ++ EvWrite c (encodeHeader (payload req1)) true
              :: EvWrite c (payload req1) true :: rest)))).
Proof.
  split.
  - intros Ha.
    unfold Golang.Transcribe, Part000.Transcribe, Part001.Transcribe,
      bind, gets, ret. rewrite Ha. repeat split.
  - intros absPath Ha. cbv zeta.
    split; [|split; [|split; [|split]]].
    + intros Hst. unfold Golang.Transcribe, bind, gets, ret. rewrite Ha, Hst.
      reflexivity.
    + simpl. auto.
    + intros Hne. unfold members, omitempty.
      destruct (String.eqb_spec absPath ""); [contradiction|].
      simpl. auto.
    + intros Hst.
      pose proof (Golang_Transcribe_spec path model language task s absPath
                    Ha Hst) as Hf. unfold run in Hf.
      split; [exact Hf|].
      rewrite (facade_trace _ _ _ _ _ Hf). unfold wrapping. cbn [snd].
      split.
      * destruct (Golang_sendRequestWithContext_spec (own_context s)
                    (FileTranscriptionRequest "transcribe" absPath model
                       (normalized language) task) s)
          as [(evs & Hs & Hx & _) _].
        exists evs. split; [exact Hx|]. eapply sent_fresh_writes; eauto.
      * intros p Hd Hw1 Hw2. now apply fresh_call_writes_frame with p.
    + intros Hl.
      pose proof (Part000_Transcribe_spec path model language task s absPath Ha)
        as Hf0. unfold run in Hf0.
      pose proof (Part001_Transcribe_spec path model language task s absPath Ha)
        as Hf1. unfold run in Hf1.
      split; [exact Hf0|]. split; [exact Hf1|].
      rewrite (facade_trace _ _ _ _ _ Hf0), (facade_trace _ _ _ _ _ Hf1).
      split; [|split].
      * destruct (Mutex_sendRequest_spec
                    (FileTranscriptionRequest "transcribe" absPath model
                       (normalized language) task) s Hl)
          as [(evs & Hs & Hx & _) _].
        exists evs. split; [exact Hx|]. eapply sent_writes; eauto.
      * destruct (Part001_sendRequest_spec
                    (TranscriptionRequest "transcribe" absPath "" model
                       language task) s Hl)
          as [(evs & Hs & Hx & _) _].
        exists evs. split; [exact Hx|]. eapply sent_writes; eauto.
      * intros c Hc Hcl Hw1 Hw2. split.
        -- now apply stored_call_writes_frame with (Some connectTimeout);
             [apply Mutex_is_sendRequest|..].
        -- now apply stored_call_writes_frame with None;
             [apply Part001_is_sendRequest|..].
Qed.

End Paths.

(** The relative path [a.wav] resolves to [/data/a.wav], the file exists
    and the backend accepts the connection: the frame of the request with
    the absolute path is written on the new connection. *)
Lemma path_resolved_before_sending_witness :
  exists rest,
    trace (world (snd
      (Golang.Transcribe (H := Demo.lib) "a.wav" "base" None "transcribe"
         (Demo.state_of None
            [Some (mkPeer (Demo.frame_of "{}") [true; true])] []))))
    = []
      ++ EvDial "localhost:9000" (Some (30 * second)) (Some 0%nat)
      :: EvWrite 0%nat
           (encodeHeader
              (payload (H := Demo.lib)
                 (FileTranscriptionRequest "transcribe" "/data/a.wav" "base"
                    None "transcribe"))) true
      :: EvWrite 0%nat
           (payload (H := Demo.lib)
              (FileTranscriptionRequest "transcribe" "/data/a.wav" "base"
                 None "transcribe")) true
      :: rest.
Proof.
  refine (proj2 (proj2 (proj1 (proj2 (proj2 (proj2
    (proj2
       (path_resolved_before_sending (H := Demo.lib) "a.wav" "base"
          "transcribe" None
          (Demo.state_of None
             [Some (mkPeer (Demo.frame_of "{}") [true; true])] []))
       "/data/a.wav"%string _)))) _))
    (mkPeer (Demo.frame_of "{}") [true; true]) _ _ _).
  - reflexivity.
  - discriminate.
  - reflexivity.
  - reflexivity.
  - reflexivity.
Defined.

(* ================================================================== *)
(** * C6: the empty language *)
(* ================================================================== *)

Section Language.
Context `{GoLib}.

Lemma omitempty_key key value k v :
  In (member k v) (omitempty key value) -> k = key /\ v = value /\ v <> ""%string.
Proof.
  unfold omitempty. destruct (String.eqb_spec value ""); simpl; [tauto|].
  intros [E|[]]. unfold member in E. inversion E; subst. auto.
Qed.

Lemma omitnil_key key value k v :
  In (member k v) (omitnil key value) -> k = key /\ value = Some v.
Proof.
  unfold omitnil. destruct value as [l|]; simpl; [|tauto].
  intros [E|[]]. unfold member in E. inversion E; subst. auto.
Qed.

(** A request carries a [language] member exactly for a non-nil pointer. *)
Lemma language_member (req : Request) (v : string) :
  In (member "language" v) (members req) ->
  match req with
  | FileTranscriptionRequest _ _ _ l _
  | DataTranscriptionRequest _ _ _ l _
  | TranscriptionRequest _ _ _ _ l _ => l = Some v
  | ModelsRequest _ => False
  end.
Proof.
  destruct req; simpl; intros Hin;
    repeat match goal with
           | H : _ \/ _ |- _ => destruct H
           | H : member _ _ = member _ _ |- _ => unfold member in H; inversion H
           | H : In _ (_ ++ _) |- _ => apply in_app_or in H
           | H : In _ (omitempty _ _) |- _ =>
               apply omitempty_key in H; destruct H as (? & _); discriminate
           | H : In _ (omitnil _ _) |- _ =>
               apply omitnil_key in H; destruct H as (_ & ?); assumption
           | H : False |- _ => destruct H
           end.
Qed.

Lemma normalized_not_empty (language : option string) :
  normalized language <> Some ""%string.
Proof.
  destruct language as [l|]; simpl; [|discriminate].
  destruct (String.eqb_spec l ""); [discriminate|congruence].
Qed.

Lemma normalized_absent (language : option string) :
  language = None \/ language = Some ""%string -> normalized language = None.
Proof. intros [->| ->]; reflexivity. Qed.

(** The request of the two variants that normalize never carries an empty
    [language], and carries none at all for a nil or empty one; the calls
    with an empty language are the calls with none. *)
Lemma Mutex_language_normalized (data : bytes) (path model task : string)
    (language : option string) (s : State) :
  let dreq := DataTranscriptionRequest "transcribe"
                (base64_EncodeToString data) model (normalized language) task in
  let freq := FileTranscriptionRequest "transcribe" path model
                (normalized language) task in
  ~ In (member "language" "") (members dreq) /\
  ~ In (member "language" "") (members freq) /\
  (language = None \/ language = Some ""%string ->
   (forall v, ~ In (member "language" v) (members dreq)) /\
   (forall v, ~ In (member "language" v) (members freq)) /\
   Mutex.TranscribeData data model language task s
     = Mutex.TranscribeData data model None task s /\
   Golang.Transcribe path model language task s
     = Golang.Transcribe path model None task s /\
   Part000.Transcribe path model language task s
     = Part000.Transcribe path model None task s).
Proof.
  cbv zeta. split; [|split].
  - intros Hin. apply language_member in Hin.
    now apply normalized_not_empty in Hin.
  - intros Hin. apply language_member in Hin.
    now apply normalized_not_empty in Hin.
  - intros Hl. pose proof (normalized_absent _ Hl) as Hn.
    split; [|split].
    + intros v Hin. apply language_member in Hin. congruence.
    + intros v Hin. apply language_member in Hin. congruence.
    + destruct Hl as [->| ->]; repeat split.
Qed.

(** C6, on unnamed/part_001.  That variant hands the language pointer to
    the request as it is: for a pointer to the empty string the request has
    a [language] member with the empty value, and that is what goes on the
    wire. *)
Theorem Part001_sends_empty_language (path model task absPath : string)
    (data : bytes) (s : State) :
  lock_free s ->
  fs_abs (world s) path = Some absPath ->
  let req := TranscriptionRequest "transcribe" absPath "" model
               (Some ""%string) task in
  let dreq := TranscriptionRequest "transcribe" ""
                (base64_EncodeToString data) model (Some ""%string) task in
  In (member "language" "") (members req) /\
  In (member "language" "") (members dreq) /\
  facade_post (Part001.sendRequest req) decoded_map s
    (fst (Part001.Transcribe path model (Some ""%string) task s))
    (snd (Part001.Transcribe path model (Some ""%string) task s)) /\
  facade_post (Part001.sendRequest dreq) decoded_map s
    (fst (Part001.TranscribeData data model (Some ""%string) task s))
    (snd (Part001.TranscribeData data model (Some ""%string) task s)) /\
  (forall c, conn (client s) = Some c ->
     hd false (write_ok (conn_at (world s) c)) = true ->
     hd false (tl (write_ok (conn_at (world s) c))) = true ->
     closed (conn_at (world s) c) = false ->
     In (EvWrite c (payload req) true)
        (trace (world (snd (Part001.Transcribe path model (Some ""%string)
                              task s))))).
Proof.
  intros Hl Ha. cbv zeta.
  assert (Hin : forall r, In (member "language" "") (omitnil "language" (Some ""%string) ++ r))
    by (intros r; simpl; auto).
  split; [|split; [|split; [|split]]].
  - unfold members. apply in_or_app. right. apply in_or_app. right.
    apply in_or_app. right. apply in_or_app. right. apply Hin.
  - unfold members. apply in_or_app. right. apply in_or_app. right.
    apply in_or_app. right. apply in_or_app. right. apply Hin.
  - now apply Part001_Transcribe_spec.
  - apply Part001_TranscribeData_spec.
  - intros c Hc Hw1 Hw2 Hcl.
    pose proof (Part001_Transcribe_spec path model (Some ""%string) task s absPath Ha) as Hf.
    unfold run in Hf. rewrite (facade_trace _ _ _ _ _ Hf).
    destruct (Part001_sendRequest_on_stored
                (TranscriptionRequest "transcribe" absPath "" model
                   (Some ""%string) task) s c Hl Hc) as (_ & _ & Ht & _).
    rewrite Ht. apply in_or_app. right. apply in_or_app. left.
    unfold exchange. rewrite Hcl, Hw1, Hw2. cbn [negb andb].
    destruct (readFull headerSize (inbound (conn_at (world s) c))) as [[hb rest]|];
      [|simpl; auto].
    destruct (Uint64 hb <=? mem_limit (world s)); [|simpl; auto].
    destruct (Uint64 hb =? 0); [simpl; auto|].
    destruct (readFull (Uint64 hb) rest) as [[buf ?]|]; simpl; auto.
Qed.

End Language.

Lemma Part001_sends_empty_language_witness :
  In (EvWrite 0%nat
        (payload (H := Demo.lib)
           (TranscriptionRequest "transcribe" "/data/a.wav" "" "base"
              (Some ""%string) "transcribe")) true)
     (trace (world (snd (Part001.Transcribe (H := Demo.lib) "a.wav" "base"
                           (Some ""%string) "transcribe"
                           (Demo.state_of (Some 0%nat) []
                              [mkConn (Demo.frame_of "{}") [true; true] false]))))).
Proof.
  refine (proj2 (proj2 (proj2 (proj2
    (Part001_sends_empty_language (H := Demo.lib) "a.wav" "base" "transcribe"
       "/data/a.wav" []
       (Demo.state_of (Some 0%nat) []
          [mkConn (Demo.frame_of "{}") [true; true] false]) _ _))))
    0%nat _ _ _ _); reflexivity.
Defined.

(* ================================================================== *)
(** * C2: the counters *)
(* ================================================================== *)




Section Counters.
Context `{GoLib}.









End Counters.



(* ================================================================== *)
(** * C3: the stored connection *)
(* ================================================================== *)



Section Single.
Context `{GoLib}.









End Single.



(* ================================================================== *)
(** * C1: concurrent callers *)
(* ================================================================== *)

Module Sched.

(** What a call does, as far as other calls can tell: it takes the lock, it
    gives it back, or it performs one operation of the environment. *)
Inductive Action :=
| Acquire
| Release
| Do (e : Event).

(** unnamed/part_001: [sendRequest] takes the token from the channel first,
    and its deferred function puts it back last; [ensureConnection], the
    writes and reads and [closeConnection] all happen in between. *)
Definition chan_call (body : list Event) : list Action :=
  Acquire :: map Do body ++ [Release].

(** golang/whisper_client.go and unnamed/part_000: the mutex is held inside
    [ensureConnection] (around the dial attempts [ens]) and inside
    [closeConnection]; the writes and reads of [sendRequest] on connection
    [c], which end at stage [st], are made with the mutex free. *)
Definition mutex_call (ens : list Event) (c : ConnId) (js : bytes) (st : Stage)
    : list Action :=
  Acquire :: map Do ens ++ [Release]
  ++ map Do (stage_events c js st)
  ++ (if torn_down st then [Acquire; Do (EvClose c); Release] else []).

(** The callers, the lock and the operations performed so far, each tagged
    with the caller that performed it. *)
Record Config := mkConfig {
  lock : option nat;
  pcs  : list (list Action);
  wire : list (nat * Event)
}.

Definition init (programs : list (list Action)) : Config :=
  mkConfig None programs [].

(** Caller [t] performs its next action, if it has one and is not blocked. *)
Definition step (t : nat) (cfg : Config) : option Config :=
  match nth_error (pcs cfg) t with
  | Some (Acquire :: rest) =>
      match lock cfg with
      | None => Some (mkConfig (Some t) (update (pcs cfg) t rest) (wire cfg))
      | Some _ => None
      end
  | Some (Release :: rest) =>
      match lock cfg with
      | Some _ => Some (mkConfig None (update (pcs cfg) t rest) (wire cfg))
      | None => None
      end
  | Some (Do e :: rest) =>
      Some (mkConfig (lock cfg) (update (pcs cfg) t rest) (wire cfg ++ [(t, e)]))
  | Some [] | None => None
  end.

(** A schedule names the caller that moves at each step. *)
Fixpoint run_schedule (schedule : list nat) (cfg : Config) : option Config :=
  match schedule with
  | [] => Some cfg
  | t :: rest =>
      match step t cfg with
      | Some cfg' => run_schedule rest cfg'
      | None => None
      end
  end.

(** The operations of caller [t], tagged. *)
Definition call_block (bodies : list (list Event)) (t : nat) : list (nat * Event) :=
  map (pair t) (nth t bodies []).

(** The wire shows whole calls one after another: the calls of [order], each
    with all its operations in one piece, then the operations [cur] of the
    call in progress. *)
Definition serialized (bodies : list (list Event)) (cfg : Config) : Prop :=
  exists order cur,
    NoDup order /\
    wire cfg = flat_map (call_block bodies) order ++ cur /\
    match lock cfg with
    | Some h =>
        ~ In h order /\
        exists done rest, nth h bodies [] = done ++ rest /\ cur = map (pair h) done
    | None => cur = []
    end.

(** Two callers' operations alternate: [t], then [u], then [t] again. *)
Definition interleaved (l : list (nat * Event)) : Prop :=
  exists t u e1 e2 e3 l1 l2 l3 l4,
    t <> u /\
    l = l1 ++ (t, e1) :: l2 ++ (u, e2) :: l3 ++ (t, e3) :: l4.

End Sched.

Import Sched.

Section ChannelLock.

Variable bodies : list (list Event).

(** Where each caller stands. *)
Inductive standing (cfg : Config) (order : list nat) (cur : list (nat * Event))
    (t : nat) : Prop :=
| st_finished :
    In t order -> nth_error (pcs cfg) t = Some [] -> lock cfg <> Some t ->
    standing cfg order cur t
| st_idle :
    ~ In t order -> lock cfg <> Some t ->
    nth_error (pcs cfg) t = Some (chan_call (nth t bodies [])) ->
    standing cfg order cur t
| st_inside done rest :
    ~ In t order -> lock cfg = Some t ->
    nth t bodies [] = done ++ rest ->
    nth_error (pcs cfg) t = Some (map Do rest ++ [Release]) ->
    cur = map (pair t) done ->
    standing cfg order cur t.

Definition inv (cfg : Config) : Prop :=
  List.length (pcs cfg) = List.length bodies /\
  exists order cur,
    NoDup order /\
    wire cfg = flat_map (call_block bodies) order ++ cur /\
    (lock cfg = None -> cur = []) /\
    (forall h, lock cfg = Some h -> (h < List.length bodies)%nat) /\
    (forall t, (t < List.length bodies)%nat -> standing cfg order cur t).

Lemma NoDup_snoc {A} (l : list A) x : NoDup l -> ~ In x l -> NoDup (l ++ [x]).
Proof.
  induction l as [|y l IH]; simpl; intros Hnd Hin.
  - constructor; [intros []|constructor].
  - inversion Hnd as [|? ? Hy Hl]; subst. constructor.
    + intros H. apply in_app_or in H as [H|[H|[]]]; [now apply Hy|]. apply Hin. now left.
    + apply IH; auto.
Qed.

Lemma inv_init : inv (init (map chan_call bodies)).
Proof.
  split; [simpl; apply length_map|].
  exists [], []. split; [constructor|]. split; [reflexivity|].
  split; [reflexivity|]. split; [discriminate|].
  intros t Ht. apply st_idle; simpl; auto; try discriminate.
  rewrite nth_error_map.
  rewrite (nth_error_nth' bodies [] Ht). reflexivity.
Qed.

Lemma standing_other cfg cfg' order cur t u rest :
  u <> t ->
  pcs cfg' = update (pcs cfg) u rest ->
  lock cfg' = lock cfg ->
  standing cfg order cur t -> standing cfg' order cur t.
Proof.
  intros Hne Hp Hl Hs.
  assert (Hnth : nth_error (pcs cfg') t = nth_error (pcs cfg) t)
    by (rewrite Hp; now apply nth_error_update_neq).
  destruct Hs as [Hin Hpc Hlk|Hin Hlk Hpc|done rest' Hin Hlk Hb Hpc Hcur].
  - apply st_finished; congruence.
  - apply st_idle; congruence.
  - eapply st_inside; eauto; congruence.
Qed.

Lemma inv_step t cfg cfg' : inv cfg -> step t cfg = Some cfg' -> inv cfg'.
Proof.
  intros (Hlen & order & cur & Hnd & Hw & Hnone & Hbound & Hall) Hstep.
  unfold step in Hstep.
  destruct (nth_error (pcs cfg) t) as [pc|] eqn:Hpc; [|discriminate].
  assert (Ht : (t < List.length bodies)%nat).
  { rewrite <- Hlen. apply nth_error_Some. congruence. }
  pose proof (Hall t Ht) as Hst.
  destruct pc as [|[| |e] rest]; [discriminate| | |].
  - (* Acquire: the caller was idle and the lock free *)
    destruct (lock cfg) as [h|] eqn:Hlk; [discriminate|].
    injection Hstep as <-.
    destruct Hst as [Hin Hpc' _|Hin _ Hpc'|done rest' _ Hlk' _ _ _];
      [congruence| |congruence].
    rewrite Hpc in Hpc'. injection Hpc' as Hrest.
    specialize (Hnone eq_refl). subst cur.
    split; [simpl; now rewrite length_update|].
    exists order, []. simpl. split; [exact Hnd|]. split; [exact Hw|].
    split; [discriminate|]. split; [intros h E; now injection E as <-|].
    intros u Hu. destruct (Nat.eq_dec u t) as [->|Hne].
    + apply (st_inside _ _ _ _ [] (nth t bodies [])); simpl; auto.
      rewrite (nth_error_update_eq _ _ _ _ Hpc). now rewrite Hrest.
    + pose proof (Hall u Hu) as Hsu.
      destruct Hsu as [Hin' Hpc' Hlk'|Hin' Hlk' Hpc'|done rest' _ Hlk' _ _ _];
        [| |congruence].
      * apply st_finished; simpl; auto; [|congruence].
        now rewrite nth_error_update_neq.
      * apply st_idle; simpl; auto; [congruence|].
        now rewrite nth_error_update_neq.
  - (* Release: the caller was inside, with nothing left to do *)
    destruct (lock cfg) as [h|] eqn:Hlk; [|discriminate].
    injection Hstep as <-.
    destruct Hst as [_ Hpc' _|_ _ Hpc'|done rest' Hin Hlk' Hb Hpc' Hcur];
      [congruence|rewrite Hpc in Hpc'; discriminate|].
    rewrite Hpc in Hpc'. injection Hpc' as Hrest.
    destruct rest' as [|e rest']; [|discriminate].
    simpl in Hrest. injection Hrest as ->.
    rewrite app_nil_r in Hb.
    split; [simpl; now rewrite length_update|].
    exists (order ++ [t]), []. simpl.
    split; [apply NoDup_snoc; auto|].
    split; [rewrite flat_map_app; simpl; rewrite !app_nil_r, Hw, Hcur;
            unfold call_block; now rewrite Hb|].
    split; [reflexivity|]. split; [discriminate|].
    intros u Hu. destruct (Nat.eq_dec u t) as [->|Hne].
    + apply st_finished; simpl; [apply in_or_app; simpl; auto| |discriminate].
      now rewrite (nth_error_update_eq _ _ _ _ Hpc).
    + pose proof (Hall u Hu) as Hsu.
      assert (Hlu : lock cfg <> Some u) by congruence.
      destruct Hsu as [Hin' Hpc' Hlk''|Hin' Hlk'' Hpc'|done' rest' _ Hlk'' _ _ _];
        [| |congruence].
      * apply st_finished; simpl; [apply in_or_app; auto| |discriminate].
        now rewrite nth_error_update_neq.
      * apply st_idle; simpl; [|discriminate|].
        -- intros Hin''. apply in_app_or in Hin'' as [?|[?|[]]]; auto.
        -- now rewrite nth_error_update_neq.
  - (* an operation: the caller is the one inside *)
    injection Hstep as <-.
    destruct Hst as [_ Hpc' _|_ _ Hpc'|done rest' Hin Hlk Hb Hpc' Hcur];
      [congruence|rewrite Hpc in Hpc'; discriminate|].
    rewrite Hpc in Hpc'.
    destruct rest' as [|e' rest']; [discriminate|].
    simpl in Hpc'. injection Hpc' as <- Hrest.
    split; [simpl; now rewrite length_update|].
    exists order, (cur ++ [(t, e)]). simpl.
    split; [exact Hnd|]. split; [now rewrite Hw, app_assoc|].
    split; [congruence|]. split; [exact Hbound|].
    intros u Hu. destruct (Nat.eq_dec u t) as [->|Hne].
    + apply (st_inside _ _ _ _ (done ++ [e]) rest'); simpl; auto.
      * now rewrite Hb, <- app_assoc.
      * rewrite (nth_error_update_eq _ _ _ _ Hpc). now rewrite Hrest.
      * rewrite Hcur, map_app. reflexivity.
    + pose proof (Hall u Hu) as Hsu.
      destruct Hsu as [Hin' Hpc'' Hlk'|Hin' Hlk' Hpc''|done' rest'' _ Hlk' _ _ _];
        [| |congruence].
      * apply st_finished; simpl; auto. now rewrite nth_error_update_neq.
      * apply st_idle; simpl; auto. now rewrite nth_error_update_neq.
Qed.

Lemma inv_run schedule cfg cfg' :
  inv cfg -> run_schedule schedule cfg = Some cfg' -> inv cfg'.
Proof.
  revert cfg. induction schedule as [|t rest IH]; simpl; intros cfg Hi Hr.
  - now injection Hr as <-.
  - destruct (step t cfg) as [cfg1|] eqn:Hs; [|discriminate].
    eapply IH; [|exact Hr]. eapply inv_step; eauto.
Qed.

(** X1. With the one-slot channel of unnamed/part_001 as the lock, whatever the
    calls do between taking the token and putting it back and however the
    callers are scheduled, the operations on the wire are those of one whole
    call after another. *)
Theorem channel_lock_serializes schedule cfg :
  run_schedule schedule (init (map chan_call bodies)) = Some cfg ->
  serialized bodies cfg.
Proof.
  intros Hr. pose proof (inv_run _ _ _ inv_init Hr) as (Hlen & order & cur & Hnd & Hw & Hnone & Hbound & Hall).
  exists order, cur. split; [exact Hnd|]. split; [exact Hw|].
  destruct (lock cfg) as [h|] eqn:Hlk; [|now apply Hnone].
  pose proof (Hall h (Hbound h eq_refl)) as Hst.
  destruct Hst as [_ _ Hl|_ Hl _|done rest Hin _ Hb _ Hcur]; try congruence.
  split; [exact Hin|]. exists done, rest. auto.
Qed.

End ChannelLock.

Section Interleaving.

(** The callers whose operations are on the wire, in order. *)
Definition callers (l : list (nat * Event)) : list nat := map fst l.

Definition blocks (n : nat -> nat) (order : list nat) : list nat :=
  flat_map (fun t => repeat t (n t)) order.

Lemma blocks_in n order t : In t (blocks n order) -> In t order.
Proof.
  unfold blocks. intros Hin. apply in_flat_map in Hin as (u & Hu & Hr).
  apply repeat_spec in Hr. now subst.
Qed.

Lemma repeat_then (a : nat) k B l2 u l3 :
  repeat a k ++ B = l2 ++ u :: l3 -> In a l3 -> ~ In a B -> u = a.
Proof.
  revert l2. induction k as [|k IH]; simpl; intros l2 E Hin Hn.
  - exfalso. apply Hn. rewrite E. apply in_or_app. right. now right.
  - destruct l2 as [|x l2]; simpl in E.
    + now injection E as ->.
    + injection E as _ E. now apply IH with l2.
Qed.

Lemma blocks_grouped n order :
  NoDup order ->
  forall l1 t l2 u l3 l4,
    blocks n order = l1 ++ t :: l2 ++ u :: l3 ++ t :: l4 -> t = u.
Proof.
  induction order as [|a rest IH]; intros Hnd l1 t l2 u l3 l4 E.
  - destruct l1; discriminate.
  - inversion Hnd as [|? ? Ha Hrest]; subst.
    change (blocks n (a :: rest)) with (repeat a (n a) ++ blocks n rest) in E.
    assert (HB : ~ In a (blocks n rest))
      by (intros Hin; apply Ha; now apply blocks_in with n).
    revert l1 E. induction (n a) as [|k IHk]; simpl; intros l1 E.
    + now apply (IH Hrest l1 t l2 u l3 l4).
    + destruct l1 as [|x l1]; simpl in E.
      * injection E as -> E. symmetry.
        apply (repeat_then _ _ _ _ _ _ E); [|exact HB].
        apply in_or_app. right. now left.
      * injection E as _ E. now apply IHk with l1.
Qed.

Lemma callers_block bodies order :
  callers (flat_map (call_block bodies) order)
  = blocks (fun t => List.length (nth t bodies [])) order.
Proof.
  unfold callers, blocks, call_block.
  induction order as [|t order IH]; simpl; [reflexivity|].
  rewrite map_app, IH. f_equal.
  induction (nth t bodies []) as [|e l IHl]; simpl; [reflexivity|].
  now rewrite IHl.
Qed.

Lemma callers_pair h (l : list Event) :
  callers (map (pair h) l) = repeat h (List.length l).
Proof.
  unfold callers. induction l as [|e l IH]; simpl; [reflexivity|now rewrite IH].
Qed.

Lemma blocks_ext n m order :
  (forall t, In t order -> n t = m t) -> blocks n order = blocks m order.
Proof.
  unfold blocks. induction order as [|t order IH]; simpl; intros E; [reflexivity|].
  rewrite E, IH; auto.
Qed.

(** A wire that shows whole calls one after another has no caller coming
    back after another one. *)
Lemma serialized_not_interleaved bodies cfg :
  serialized bodies cfg -> ~ interleaved (wire cfg).
Proof.
  intros (order & cur & Hnd & Hw & Hl)
         (t & u & e1 & e2 & e3 & l1 & l2 & l3 & l4 & Hne & E).
  apply Hne.
  assert (Ec : callers (wire cfg)
               = callers l1 ++ t :: callers l2 ++ u :: callers l3 ++ t :: callers l4).
  { rewrite E. unfold callers.
    repeat (rewrite ?map_app; simpl). reflexivity. }
  rewrite Hw in Ec. unfold callers at 1 in Ec. rewrite map_app in Ec.
  fold (callers (flat_map (call_block bodies) order)) in Ec.
  rewrite callers_block in Ec.
  destruct (lock cfg) as [h|].
  - destruct Hl as (Hin & done & rest & Hb & ->).
    fold (callers (map (pair h) done)) in Ec. rewrite callers_pair in Ec.
    set (n := fun t => if (t =? h)%nat then List.length done
                       else List.length (nth t bodies [])).
    apply (blocks_grouped n (order ++ [h])) with (l1 := callers l1)
      (l2 := callers l2) (l3 := callers l3) (l4 := callers l4).
    + apply NoDup_snoc; auto.
    + rewrite <- Ec. unfold blocks at 1. rewrite flat_map_app. simpl.
      rewrite app_nil_r. subst n. simpl. rewrite Nat.eqb_refl. f_equal.
      apply blocks_ext. intros x Hx.
      destruct (Nat.eqb_spec x h) as [->|]; [contradiction|reflexivity].
  - subst cur. simpl in Ec. rewrite app_nil_r in Ec.
    exact (blocks_grouped _ order Hnd (callers l1) t (callers l2) u
             (callers l3) (callers l4) Ec).
Qed.

Lemma run_schedule_app s1 s2 cfg :
  run_schedule (s1 ++ s2) cfg =
  match run_schedule s1 cfg with
  | Some cfg' => run_schedule s2 cfg'
  | None => None
  end.
Proof.
  revert cfg. induction s1 as [|t s1 IH]; simpl; intros cfg; [reflexivity|].
  destruct (step t cfg); [apply IH|reflexivity].
Qed.

Lemma update_same {A} (l : list A) i x :
  nth_error l i = Some x -> update l i x = l.
Proof.
  revert i. induction l as [|y l IH]; intros [|i]; simpl; intros E;
    try discriminate.
  - now injection E as ->.
  - now rewrite IH.
Qed.

(** A caller that is left alone performs its operations in a row. *)
Lemma run_operations t evs rest cfg :
  nth_error (pcs cfg) t = Some (map Do evs ++ rest) ->
  run_schedule (repeat t (List.length evs)) cfg
  = Some (mkConfig (lock cfg) (update (pcs cfg) t rest)
                   (wire cfg ++ map (pair t) evs)).
Proof.
  revert cfg. induction evs as [|e evs IH]; simpl; intros cfg E.
  - rewrite (update_same _ _ _ E), app_nil_r. now destruct cfg.
  - unfold step. rewrite E.
    rewrite IH; simpl.
    + rewrite update_update, <- app_assoc. reflexivity.
    + now apply nth_error_update_eq with (Do e :: map Do evs ++ rest).
Qed.

(** One caller from the start to the point where it has written its
    header: it takes the mutex, dials if it has to, releases the mutex and
    writes. *)
Definition until_first_write (t : nat) (ens : list Event) : list nat :=
  t :: repeat t (List.length ens) ++ [t; t].

End Interleaving.

Section MutexLock.

Lemma run_until_first_write t ens e rest cfg :
  lock cfg = None ->
  nth_error (pcs cfg) t
  = Some (Acquire :: map Do ens ++ [Release] ++ Do e :: rest) ->
  run_schedule (until_first_write t ens) cfg
  = Some (mkConfig None (update (pcs cfg) t rest)
                   (wire cfg ++ map (pair t) ens ++ [(t, e)])).
Proof.
  intros Hl E. unfold until_first_write. simpl.
  unfold step at 1. rewrite E, Hl.
  rewrite run_schedule_app.
  rewrite (run_operations t ens ([Release] ++ Do e :: rest)); simpl.
  - unfold step. simpl.
    rewrite !update_update, (nth_error_update_eq _ _ _ _ E). simpl.
    rewrite !update_update, (nth_error_update_eq _ _ _ _ E). simpl.
    rewrite !update_update, <- app_assoc. reflexivity.
  - now apply nth_error_update_eq with (Acquire :: map Do ens ++ [Release] ++ Do e :: rest).
Qed.

(** What the two callers of the theorem below have done, as whole calls. *)
Definition call_events (ens : list Event) (c : ConnId) (js : bytes) (st : Stage)
    : list Event :=
  ens ++ stage_events c js st ++ closing c st.

(** The operations of a call, without the lock. *)
Definition operations (p : list Action) : list Event :=
  flat_map (fun a => match a with Do e => [e] | _ => [] end) p.

Lemma operations_Do evs : operations (map Do evs) = evs.
Proof. induction evs as [|e evs IH]; simpl; [reflexivity|now rewrite IH]. Qed.

Lemma operations_app p q : operations (p ++ q) = operations p ++ operations q.
Proof. apply flat_map_app. Qed.

(** Both ways of locking perform the operations of [sendRequest]: what
    differs is where the lock is held. *)
Lemma operations_chan_call body : operations (chan_call body) = body.
Proof.
  unfold chan_call. simpl. rewrite operations_app, operations_Do. simpl.
  apply app_nil_r.
Qed.

Lemma operations_mutex_call ens c js st :
  operations (mutex_call ens c js st) = call_events ens c js st.
Proof.
  unfold mutex_call, call_events, closing.
  change (operations (Acquire :: ?l)) with (operations l).
  rewrite !operations_app, !operations_Do.
  now destruct (torn_down st).
Qed.

(** C1, golang/whisper_client.go and unnamed/part_000: the mutex does not
    cover the exchange.  For any two calls on the stored connection,
    whatever they send and however they end, there is a schedule in which
    the second caller writes between two operations of the first: the wire
    is not that of one whole call after another. *)
Theorem mutex_lock_interleaves ens1 ens2 c js1 js2 st1 st2 :
  exists schedule cfg,
    run_schedule schedule
      (init [mutex_call ens1 c js1 st1; mutex_call ens2 c js2 st2]) = Some cfg /\
    interleaved (wire cfg) /\
    ~ serialized [call_events ens1 c js1 st1; call_events ens2 c js2 st2] cfg.
Proof.
  assert (H : exists schedule cfg,
    run_schedule schedule
      (init [mutex_call ens1 c js1 st1; mutex_call ens2 c js2 st2]) = Some cfg /\
    interleaved (wire cfg)).
  { exists (until_first_write 0 ens1 ++ until_first_write 1 ens2
            ++ (match st1 with WriteHeaderFailed => [0; 0] | _ => [0] end))%nat.
    destruct st1, st2; eexists;
      (split;
       [ rewrite !run_schedule_app; unfold mutex_call;
         simpl stage_events; simpl torn_down; cbv iota; simpl map;
         (erewrite run_until_first_write; [|reflexivity|reflexivity]);
         cbv beta iota; rewrite run_schedule_app;
         (erewrite run_until_first_write; [|reflexivity|reflexivity]);
         reflexivity
       | exists 0%nat, 1%nat; simpl; do 3 eexists;
         exists (map (pair 0%nat) ens1), (map (pair 1%nat) ens2), [], [];
         (split; [discriminate|]);
         rewrite <- ?app_assoc; simpl; reflexivity ]). }
  destruct H as (schedule & cfg & Hr & Hi).
  exists schedule, cfg. split; [exact Hr|]. split; [exact Hi|].
  intros Hs. now apply serialized_not_interleaved in Hs.
Qed.

End MutexLock.

(** Two calls on connection 0 under the channel lock, the second starting
    when the first has put the token back. *)
Lemma channel_lock_serializes_witness :
  serialized
    [[EvWrite 0%nat [x01] true; EvWrite 0%nat [x02] true];
     [EvWrite 0%nat [x03] true]]
    (mkConfig None [[]; []]
       [(0%nat, EvWrite 0%nat [x01] true); (0%nat, EvWrite 0%nat [x02] true);
        (1%nat, EvWrite 0%nat [x03] true)]).
Proof.
  apply (channel_lock_serializes
           [[EvWrite 0%nat [x01] true; EvWrite 0%nat [x02] true];
            [EvWrite 0%nat [x03] true]]
           [0; 0; 0; 0; 1; 1; 1]%nat).
  reflexivity.
Defined.

(* ================================================================== *)
(** * The frame format is self-delimiting *)
(* ================================================================== *)

Section Delimiting.
Context `{GoLib}.

Lemma decodeFrame_encodeFrame (p rest : bytes) :
  len p < 2 ^ 64 -> decodeFrame (encodeFrame p ++ rest) = Some (p, rest).
Proof.
  intros Hp. pose proof (len_nonneg p) as H0.
  unfold decodeFrame, encodeFrame. rewrite <- app_assoc.
  rewrite <- (encodeHeader_length p) at 1. rewrite readFull_app.
  unfold encodeHeader. rewrite uint64_small by lia.
  rewrite Uint64_PutUint64 by lia. apply readFull_app.
Qed.

(** X2. A stream that starts with a frame starts with one frame only: the
    payload and what follows it are determined.  The bound holds for every
    Go slice, whose length is an [int]. *)
Theorem frames_parse_uniquely (p1 p2 r1 r2 : bytes) :
  len p1 < 2 ^ 64 -> len p2 < 2 ^ 64 ->
  encodeFrame p1 ++ r1 = encodeFrame p2 ++ r2 ->
  p1 = p2 /\ r1 = r2.
Proof.
  intros H1 H2 E.
  pose proof (decodeFrame_encodeFrame p1 r1 H1) as D1.
  rewrite E, (decodeFrame_encodeFrame p2 r2 H2) in D1.
  injection D1 as -> ->. split; reflexivity.
Qed.

(** The response side of the exchange, as a function of the stream. *)
Lemma exchange_decodes (lim : Z) (stream : bytes) (wo : list bool) :
  (forall hb rest, readFull headerSize stream = Some (hb, rest) ->
                   Uint64 hb <= lim) ->
  let st := exchange lim (mkConn stream (true :: true :: wo) false) in
  stage_result st =
    match decodeFrame stream with
    | Some (buf, _) => Returns (Ok buf)
    | None => Returns (Err ErrRead)
    end /\
  torn_down st = match decodeFrame stream with Some _ => false | None => true end.
Proof.
  intros Hlim. cbv zeta. unfold exchange, decodeFrame.
  cbn [closed write_ok inbound hd tl negb andb].
  destruct (readFull headerSize stream) as [[hb rest]|] eqn:Eh;
    [|split; reflexivity].
  specialize (Hlim hb rest eq_refl).
  destruct (Z.leb_spec (Uint64 hb) lim); [|lia].
  destruct (Z.eqb_spec (Uint64 hb) 0) as [E0|E0].
  - rewrite E0, readFull_zero. split; reflexivity.
  - destruct (readFull (Uint64 hb) rest) as [[buf rest']|]; split; reflexivity.
Qed.

(** X3. On a stored connection that accepts both writes, and provided the
    length the header announces, if a header arrives, is one the allocator
    grants, [sendRequest] reads exactly one frame: it returns the payload
    of the first frame of the incoming stream and keeps the connection; if
    the stream ends (the peer closes, or the read deadline passes) before
    that frame is complete, it returns the read error with the connection
    torn down. *)
Theorem sendRequest_reads_one_frame (req : Request) (s : State) (c : ConnId)
    (stream : bytes) (wo : list bool)
    (send : Request -> M State (result error bytes)) :
  send = Mutex.sendRequest \/ send = Part001.sendRequest ->
  lock_free s -> conn (client s) = Some c ->
  conn_at (world s) c = mkConn stream (true :: true :: wo) false ->
  (forall hb rest, readFull headerSize stream = Some (hb, rest) ->
                   Uint64 hb <= mem_limit (world s)) ->
  match decodeFrame stream with
  | Some (buf, _) =>
      fst (send req s) = Returns (Ok buf) /\
      conn (client (snd (send req s))) = Some c
  | None =>
      fst (send req s) = Returns (Err ErrRead) /\
      conn (client (snd (send req s))) = None /\
      exists evs, trace (world (snd (send req s)))
                  = trace (world s) ++ evs ++ [EvClose c]
  end.
Proof.
  intros Hsend Hl Hc Hcn Hlim.
  assert (Hon :
    let st := exchange (mem_limit (world s)) (conn_at (world s) c) in
    fst (send req s) = stage_result st /\
    conn (client (snd (send req s))) = (if torn_down st then None else Some c) /\
    trace (world (snd (send req s))) =
      trace (world s) ++ stage_events c (payload req) st ++ closing c st /\
    lock_free (snd (send req s))).
  { destruct Hsend as [->| ->].
    - now apply Mutex_sendRequest_on_stored.
    - now apply Part001_sendRequest_on_stored. }
  cbv zeta in Hon. rewrite Hcn in Hon.
  destruct (exchange_decodes (mem_limit (world s)) stream wo Hlim) as [Hr Ht].
  cbv zeta in Hr, Ht. destruct Hon as (Ho & Hc1 & Htr & _).
  rewrite Hr in Ho. rewrite Ht in Hc1. unfold closing in Htr. rewrite Ht in Htr.
  destruct (decodeFrame stream) as [[buf rest]|].
  - split; assumption.
  - split; [assumption|]. split; [assumption|]. eauto.
Qed.

End Delimiting.

Lemma frames_parse_uniquely_witness :
  [x7b; x7d] = [x7b; x7d] /\ [x01] = [x01].
Proof.
  apply (frames_parse_uniquely [x7b; x7d] [x7b; x7d] [x01] [x01]);
    [vm_compute; reflexivity|vm_compute; reflexivity|reflexivity].
Defined.

Lemma sendRequest_reads_one_frame_witness :
  fst (Part001.sendRequest (H := Demo.lib) (ModelsRequest "list_models")
         (Demo.state_of (Some 0%nat) []
            [mkConn (firstn 9 (Demo.frame_of "{}")) [true; true] false]))
  = Returns (Err ErrRead).
Proof.
  refine (proj1
    (sendRequest_reads_one_frame (H := Demo.lib) (ModelsRequest "list_models")
       (Demo.state_of (Some 0%nat) []
          [mkConn (firstn 9 (Demo.frame_of "{}")) [true; true] false])
       0%nat (firstn 9 (Demo.frame_of "{}")) [] Part001.sendRequest
       (or_intror eq_refl) _ _ _ _)).
  - reflexivity.
  - reflexivity.
  - reflexivity.
  - intros hb rest E. vm_compute in E. injection E as <- _. vm_compute. discriminate.
Defined.

(* ================================================================== *)
(** * The life of the stored connection *)
(* ================================================================== *)

Section Lifecycle.
Context `{GoLib}.

Lemma Mutex_ensureConnection_stored s c :
  lock_free s -> conn (client s) = Some c ->
  Mutex.ensureConnection s = (Returns None, s).
Proof.
  destruct s as [[h p cn l m] w]. unfold lock_free. simpl.
  intros -> ->. reflexivity.
Qed.

Lemma Part001_ensureConnection_stored s c :
  conn (client s) = Some c -> Part001.ensureConnection s = (Returns None, s).
Proof.
  destruct s as [[h p cn l m] w]. simpl. intros ->. reflexivity.
Qed.

(** X4. Once [ensureConnection] has succeeded, calling it again does nothing:
    no dial, no event, the same state. *)
Theorem ensureConnection_idempotent (s : State)
    (ensure : M State (option error)) :
  ensure = Mutex.ensureConnection \/ ensure = Part001.ensureConnection ->
  lock_free s ->
  fst (ensure s) = Returns None ->
  ensure (snd (ensure s)) = (Returns None, snd (ensure s)).
Proof.
  intros [->| ->] Hl Ho.
  - pose proof (Mutex_ensureConnection_spec s Hl) as Hp. unfold run in Hp.
    destruct Hp as (e & evs & Ho' & He & _ & _ & Hl' & _).
    rewrite Ho in Ho'. injection Ho' as <-.
    assert (exists c, conn (client (snd (Mutex.ensureConnection s))) = Some c)
      as [c Hc] by (inversion He; eauto).
    apply Mutex_ensureConnection_stored with c; [|exact Hc].
    unfold lock_free in *. congruence.
  - pose proof (Part001_ensureConnection_spec s) as Hp. unfold run in Hp.
    destruct Hp as (e & evs & Ho' & He & _).
    rewrite Ho in Ho'. injection Ho' as <-.
    assert (exists c, conn (client (snd (Part001.ensureConnection s))) = Some c)
      as [c Hc] by (inversion He; eauto).
    now apply Part001_ensureConnection_stored with c.
Qed.

Lemma Mutex_Close_absent s :
  lock_free s -> conn (client s) = None -> Mutex.Close s = (Returns tt, s).
Proof.
  destruct s as [[h p cn l m] w]. unfold lock_free. simpl.
  intros -> ->. reflexivity.
Qed.

Lemma Part001_Close_absent s :
  lock_free s -> conn (client s) = None -> Part001.Close s = (Returns tt, s).
Proof.
  destruct s as [[h p cn l m] w]. unfold lock_free. simpl.
  intros -> ->. reflexivity.
Qed.

Lemma Part001_Close_spec s :
  lock_free s ->
  run Part001.Close s (fun o s' =>
    o = Returns tt /\ conn (client s') = None /\ lock_free s' /\
    match conn (client s) with
    | Some c =>
        extends s s' [EvClose c] /\
        forall c', open_at s' c' = if (c' =? c)%nat then false else open_at s c'
    | None => extends s s' [] /\ forall c', open_at s' c' = open_at s c'
    end).
Proof.
  intros Hl. unfold Part001.Close, Part001.closeConnection. wp.
  destruct (conn (client s)) as [c|] eqn:Hc; wp; open_steps; finish.
Qed.

(** X5. [Close] closes the stored connection, if there is one, and forgets it;
    with nothing stored it does nothing at all, so closing twice is closing
    once. *)
Theorem Close_idempotent (s : State) (Close : M State unit) :
  Close = Mutex.Close \/ Close = Part001.Close ->
  lock_free s ->
  fst (Close s) = Returns tt /\
  conn (client (snd (Close s))) = None /\
  lock_free (snd (Close s)) /\
  (forall c, conn (client s) = Some c ->
             trace (world (snd (Close s))) = trace (world s) ++ [EvClose c] /\
             is_open (world (snd (Close s))) c = false) /\
  (conn (client s) = None -> Close s = (Returns tt, s)) /\
  Close (snd (Close s)) = (Returns tt, snd (Close s)).
Proof.
  intros Hwhich Hl.
  assert (Hp : fst (Close s) = Returns tt /\
               conn (client (snd (Close s))) = None /\
               lock_free (snd (Close s)) /\
               match conn (client s) with
               | Some c =>
                   extends s (snd (Close s)) [EvClose c] /\
                   forall c', open_at (snd (Close s)) c'
                              = if (c' =? c)%nat then false else open_at s c'
               | None => extends s (snd (Close s)) [] /\
                         forall c', open_at (snd (Close s)) c' = open_at s c'
               end).
  { destruct Hwhich as [->| ->].
    - pose proof (Mutex_closeConnection_spec s Hl) as Hp. unfold run in Hp.
      fold Mutex.Close in Hp.
      destruct Hp as (Ho & Hc & _ & (Hlk & _) & Hm).
      repeat split; auto. unfold lock_free in *. congruence.
    - exact (Part001_Close_spec s Hl). }
  destruct Hp as (Ho & Hc & Hl' & Hm).
  split; [exact Ho|]. split; [exact Hc|]. split; [exact Hl'|].
  split; [|split].
  - intros c Hs. rewrite Hs in Hm. destruct Hm as [Hx Hop].
    split; [exact Hx|]. unfold open_at in Hop. rewrite Hop, Nat.eqb_refl.
    reflexivity.
  - intros Hn. destruct Hwhich as [->| ->];
      [now apply Mutex_Close_absent|now apply Part001_Close_absent].
  - destruct Hwhich as [->| ->];
      [now apply Mutex_Close_absent|now apply Part001_Close_absent].
Qed.

(** X6. A completed exchange keeps the connection: the next call neither dials
    nor sleeps, it starts by writing its header on the same connection. *)
Theorem connection_reused (req req2 : Request) (s : State) (buf : bytes)
    (send : Request -> M State (result error bytes)) (t : option Z) :
  (send = Mutex.sendRequest /\ t = Some connectTimeout) \/
  (send = Part001.sendRequest /\ t = None) ->
  lock_free s ->
  fst (send req s) = Returns (Ok buf) ->
  exists c,
    conn (client (snd (send req s))) = Some c /\
    exists evs,
      trace (world (snd (send req2 (snd (send req s)))))
      = trace (world (snd (send req s))) ++ evs /\
      (exists ok rest,
         evs = EvWrite c (encodeHeader (payload req2)) ok :: rest) /\
      (forall addr t' r, ~ In (EvDial addr t' r) evs) /\
      (forall d, ~ In (EvSleep d) evs).
Proof.
  intros Hwhich Hl Ho.
  assert (Hsend : is_sendRequest send t).
  { destruct Hwhich as [[-> ->]|[-> ->]];
      [apply Mutex_is_sendRequest|apply Part001_is_sendRequest]. }
  destruct (Hsend req s Hl) as (evs & Hs & _ & _ & Hl1).
  rewrite Ho in Hs. apply sent_inv in Hs
    as [(E & _)|(c & wm & evs1 & st & _ & _ & _ & _ & E & Hc1 & _)];
    [discriminate|].
  assert (Ht : torn_down st = false)
    by (destruct st; simpl in E; try discriminate; reflexivity).
  rewrite Ht in Hc1.
  exists c. split; [exact Hc1|].
  destruct (Hsend req2 _ Hl1) as (evs2 & Hs2 & Hx2 & _).
  rewrite Hc1 in Hs2. apply sent_on_stored in Hs2. cbv zeta in Hs2.
  destruct Hs2 as (_ & _ & Hevs & _).
  exists evs2. split; [exact Hx2|]. subst evs2.
  set (st2 := exchange _ _). split; [|split].
  - destruct st2; simpl; eauto.
  - intros addr t' r Hin. unfold closing in Hin.
    destruct st2; simpl in Hin;
      repeat (destruct Hin as [Hin|Hin]; [discriminate|]); destruct Hin.
  - intros d Hin. unfold closing in Hin.
    destruct st2; simpl in Hin;
      repeat (destruct Hin as [Hin|Hin]; [discriminate|]); destruct Hin.
Qed.

End Lifecycle.

Lemma ensureConnection_idempotent_witness :
  Part001.ensureConnection
    (snd (Part001.ensureConnection
            (Demo.state_of None [None; Some (mkPeer [] [])] [])))
  = (Returns None,
     snd (Part001.ensureConnection
            (Demo.state_of None [None; Some (mkPeer [] [])] []))).
Proof.
  apply (ensureConnection_idempotent
           (Demo.state_of None [None; Some (mkPeer [] [])] [])
           Part001.ensureConnection (or_intror eq_refl));
    reflexivity.
Defined.

Lemma Close_idempotent_witness :
  trace (world (snd (Mutex.Close
                       (Demo.state_of (Some 0%nat) [] [mkConn [] [] false]))))
  = [] ++ [EvClose 0%nat].
Proof.
  refine (proj1 (proj1 (proj2 (proj2 (proj2
    (Close_idempotent (Demo.state_of (Some 0%nat) [] [mkConn [] [] false])
       Mutex.Close (or_introl eq_refl) _)))) 0%nat _));
    reflexivity.
Defined.

Lemma connection_reused_witness :
  exists c,
    conn (client (snd (Mutex.sendRequest (H := Demo.lib)
                         (ModelsRequest "list_models")
                         (Demo.state_of None
                            [Some (mkPeer (Demo.frame_of "{}") [true; true])]
                            [])))) = Some c.
Proof.
  destruct (connection_reused (H := Demo.lib) (ModelsRequest "list_models")
              (ModelsRequest "list_models")
              (Demo.state_of None
                 [Some (mkPeer (Demo.frame_of "{}") [true; true])] [])
              (list_byte_of_string "{}") Mutex.sendRequest
              (Some connectTimeout) (or_introl (conj eq_refl eq_refl))
              eq_refl eq_refl) as (c & Hc & _).
  exists c. exact Hc.
Defined.

(* ================================================================== *)
(** * No call of the model blocks *)
(* ================================================================== *)

Section NotBlocking.
Context `{GoLib}.

Lemma stage_result_not_Blocks st : stage_result st <> Blocks.
Proof. destruct st; discriminate. Qed.

Lemma sent_not_Blocks t addr js c0 w0 o c1 w1 evs :
  sent t addr js c0 w0 o c1 w1 evs -> o <> Blocks.
Proof.
  intros Hs. apply sent_inv in Hs
    as [(-> & _)|(c & wm & evs1 & st & _ & _ & _ & _ & -> & _)];
    [discriminate|apply stage_result_not_Blocks].
Qed.

Lemma sent_fresh_not_Blocks addr js w0 o w1 evs :
  sent_fresh addr js w0 o w1 evs -> o <> Blocks.
Proof.
  intros [w1' _ _|id p st o' w1' evs' _ _ _ _ _ -> _]; [discriminate|].
  destruct st; discriminate.
Qed.

Lemma handled_not_Blocks o1 : o1 <> Blocks -> fst (handled o1) <> Blocks.
Proof.
  destruct o1 as [[buf|e]| |]; simpl; try discriminate; [|congruence].
  intros _. destruct (json_Unmarshal_Transcription buf) as [r|]; [|discriminate].
  destruct (negb (tr_Error r =? "")%string); discriminate.
Qed.

End NotBlocking.

(* ================================================================== *)
(** * Calls that return *)
(* ================================================================== *)

(** The length the connection [cn] is going to announce, if it gets as far
    as a header, is one the allocator grants. *)
Definition grants (lim : Z) (cn : Conn) : Prop :=
  forall hb rest,
    readFull headerSize (inbound cn) = Some (hb, rest) -> Uint64 hb <= lim.

(** The call [r] returned, with a result or an error, and left the lock
    free. *)
Definition returns_free {A} (r : outcome A * State) : Prop :=
  (exists a, fst r = Returns a) /\ lock_free (snd r).

(** If the call [r] returned, it left the lock free. *)
Definition frees_on_return {A} (r : outcome A * State) : Prop :=
  forall a, fst r = Returns a -> lock_free (snd r).

Section Returning.
Context `{GoLib}.

Lemma exchange_returns lim cn :
  grants lim cn -> exists r, stage_result (exchange lim cn) = Returns r.
Proof.
  unfold grants, exchange. intros Hg.
  destruct (negb (negb (closed cn) && hd false (write_ok cn))); [simpl; eauto|].
  destruct (negb (negb (closed cn) && hd false (tl (write_ok cn))));
    [simpl; eauto|].
  destruct (closed cn); [simpl; eauto|].
  destruct (readFull headerSize (inbound cn)) as [[hb rest]|]; [|simpl; eauto].
  specialize (Hg hb rest eq_refl).
  destruct (Z.leb_spec (Uint64 hb) lim); [|lia].
  destruct (Uint64 hb =? 0); [simpl; eauto|].
  destruct (readFull (Uint64 hb) rest) as [[buf ?]|]; simpl; eauto.
Qed.

(** A call either fails to connect or runs its exchange on the connection
    the state [uses]. *)
Lemma sent_cases t req s o c1 w1 evs :
  sent t (addr_of s) (payload req) (conn (client s)) (world s) o c1 w1 evs ->
  o = Returns (Err ErrConnect) \/
  exists cn, uses s cn /\ o = stage_result (exchange (mem_limit (world s)) cn).
Proof.
  intros Hs. pose proof Hs as Hs'. apply sent_inv in Hs'
    as [(-> & _)|(c & wm & evs1 & st & He & -> & _ & _ & -> & _)];
    [now left|].
  right. exists (conn_at wm c). split; [|reflexivity].
  unfold uses. inversion He as [x w Hx Hw|k id p w Hc0 Hk Hb Ha Hcn|]; subst.
  - rewrite Hx. reflexivity.
  - rewrite Hc0. exists k, p. auto.
Qed.

Lemma sendRequest_returns send t req s :
  is_sendRequest send t -> lock_free s ->
  (forall cn, uses s cn -> grants (mem_limit (world s)) cn) ->
  returns_free (send req s).
Proof.
  intros Hsend Hl Hg. destruct (Hsend req s Hl) as (evs & Hs & _ & _ & Hl').
  split; [|exact Hl'].
  apply sent_cases in Hs as [->|(cn & Hu & ->)]; [eauto|].
  apply exchange_returns. now apply Hg.
Qed.

Lemma sendRequestWithContext_returns ctx req s :
  (forall p, hd None (dial_script (world s)) = Some p ->
             grants (mem_limit (world s)) (connect p)) ->
  exists a, fst (Golang.sendRequestWithContext ctx req s) = Returns a.
Proof.
  intros Hg.
  destruct (Golang_sendRequestWithContext_spec ctx req s)
    as [(evs & Hs & _) _].
  destruct Hs as [w1 _ _|id p st o w1 evs' _ Hd -> _ _ -> _]; [eauto|].
  destruct (exchange_returns _ _ (Hg p Hd)) as (r & Hr).
  destruct (exchange (mem_limit (world s)) (connect p)); simpl in *;
    try discriminate; eauto.
Qed.

Lemma facade_returns {A} send
    (f : outcome (result error bytes) -> outcome (result error A) * bool)
    s o s' :
  (forall r, exists a, fst (f (Returns r)) = Returns a) ->
  (exists r, fst (send s) = Returns r) ->
  lock_free (snd (send s)) ->
  facade_post send f s o s' ->
  returns_free (o, s').
Proof.
  intros Hf (r & Hr) Hl (-> & _ & _ & _ & _ & Hlk & _).
  split; [rewrite Hr; apply Hf|]. cbn [snd]. unfold lock_free in *. congruence.
Qed.

Lemma handled_returns r : exists a, fst (handled (Returns r)) = Returns a.
Proof.
  destruct r as [buf|e]; simpl; [|eauto].
  destruct (json_Unmarshal_Transcription buf) as [x|]; [|simpl; eauto].
  destruct (negb (tr_Error x =? "")%string); simpl; eauto.
Qed.

Lemma listed_returns r : exists a, fst (listed (Returns r)) = Returns a.
Proof.
  destruct r as [buf|e]; simpl; [|eauto].
  destruct (json_Unmarshal_Models buf) as [x|]; [|simpl; eauto].
  destruct (negb (mr_Error x =? "")%string); simpl; eauto.
Qed.

Lemma Golang_Transcribe_returns path model language task s :
  lock_free s ->
  (forall p, hd None (dial_script (world s)) = Some p ->
             grants (mem_limit (world s)) (connect p)) ->
  returns_free (Golang.Transcribe path model language task s).
Proof.
  intros Hl Hg.
  destruct (fs_abs (world s) path) as [absPath|] eqn:Ha.
  - destruct (fs_stat (world s) absPath) eqn:Hst.
    1, 3: (assert (Hne : fs_stat (world s) absPath <> StatNotExist)
             by (rewrite Hst; discriminate);
           pose proof (Golang_Transcribe_spec path model language task s
                         absPath Ha Hne) as Hf;
           unfold run in Hf;
           rewrite (surjective_pairing
                      (Golang.Transcribe path model language task s));
           eapply facade_returns; [apply handled_returns| | |exact Hf];
           unfold wrapping; cbn [fst snd];
           [ destruct (sendRequestWithContext_returns (own_context s)
                         (FileTranscriptionRequest "transcribe" absPath model
                            (normalized language) task) s Hg) as (a & ->);
             destruct a; simpl; eauto
           | destruct (Golang_sendRequestWithContext_spec (own_context s)
                         (FileTranscriptionRequest "transcribe" absPath model
                            (normalized language) task) s)
               as [(evs & _ & _ & _ & _ & Hlk) _];
             unfold lock_free in *; congruence ]).
    unfold Golang.Transcribe, bind, gets, ret. simpl. rewrite Ha, Hst.
    split; [simpl; eauto|exact Hl].
  - unfold Golang.Transcribe, bind, gets, ret. simpl. rewrite Ha.
    split; [simpl; eauto|exact Hl].
Qed.

End Returning.

(* ================================================================== *)
(** * The lock is given back *)
(* ================================================================== *)

Section Locking.
Context `{GoLib}.

Lemma Part001_frees send
    (Hsend : forall req s, lock_free s ->
       send_post None req s (fst (send req s)) (snd (send req s)))
    (req : Request) (s : State) :
  lock_free s -> frees_on_return (send req s).
Proof.
  intros Hl a _. now destruct (Hsend req s Hl) as (evs & _ & _ & _ & Hl').
Qed.

Lemma facade_frees {A} send
    (f : outcome (result error bytes) -> outcome (result error A) * bool)
    s o s' :
  lock_free (snd (send s)) ->
  facade_post send f s o s' ->
  frees_on_return (o, s').
Proof.
  intros Hl (_ & _ & _ & _ & _ & Hlk & _) a _. cbn [snd].
  unfold lock_free in *. congruence.
Qed.

(** X7. In golang/whisper_client.go and unnamed/part_000, where every dial,
    write and read has a timeout or a deadline, each operation started
    with the mutex free returns, with a result or an error, and leaves the
    mutex free, as long as the length announced on the connection it uses
    is one the allocator grants.  In unnamed/part_001 every operation that
    returns has put the token back. *)
Theorem calls_release_the_lock (req : Request) (data : bytes)
    (path model task : string) (language : option string) (s : State) :
  lock_free s ->
  (forall cn, uses s cn -> grants (mem_limit (world s)) cn) ->
  (forall p, hd None (dial_script (world s)) = Some p ->
             grants (mem_limit (world s)) (connect p)) ->
  returns_free (Mutex.sendRequest req s) /\
  returns_free (Mutex.TranscribeData data model language task s) /\
  returns_free (Mutex.ListModels s) /\
  returns_free (Mutex.Close s) /\
  returns_free (Golang.Transcribe path model language task s) /\
  returns_free (Part000.Transcribe path model language task s) /\
  frees_on_return (Part001.sendRequest req s) /\
  frees_on_return (Part001.Transcribe path model language task s) /\
  frees_on_return (Part001.TranscribeData data model language task s) /\
  frees_on_return (Part001.ListModels s) /\
  frees_on_return (Part001.Close s).
Proof.
  intros Hl Hg1 Hg2.
  pose proof (fun req => sendRequest_returns _ _ req s Mutex_is_sendRequest
                           Hl Hg1) as HM.
  pose proof (fun req => Part001_frees _ Part001_is_sendRequest req s Hl) as HP.
  assert (HPl : forall req, lock_free (snd (Part001.sendRequest req s))).
  { intros r. now destruct (Part001_is_sendRequest r s Hl)
      as (evs & _ & _ & _ & Hl'). }
  repeat match goal with |- _ /\ _ => split end.
  - apply HM.
  - rewrite (surjective_pairing (Mutex.TranscribeData data model language task s)).
    eapply facade_returns;
      [apply handled_returns|apply HM|apply HM|apply Mutex_TranscribeData_spec].
  - rewrite (surjective_pairing (Mutex.ListModels s)).
    eapply facade_returns;
      [apply listed_returns|apply HM|apply HM|apply Mutex_ListModels_spec].
  - pose proof (Mutex_closeConnection_spec s Hl) as Hc. unfold run in Hc.
    fold Mutex.Close in Hc. destruct Hc as (Ho & _ & _ & (Hlk & _) & _).
    split; [eauto|unfold lock_free in *; congruence].
  - now apply Golang_Transcribe_returns.
  - destruct (fs_abs (world s) path) as [absPath|] eqn:Ha.
    + rewrite (surjective_pairing (Part000.Transcribe path model language task s)).
      eapply facade_returns; [apply handled_returns|apply HM|apply HM|].
      apply (Part000_Transcribe_spec path model language task s absPath Ha).
    + unfold Part000.Transcribe, bind, gets, ret. simpl. rewrite Ha.
      split; [simpl; eauto|exact Hl].
  - apply HP.
  - destruct (fs_abs (world s) path) as [absPath|] eqn:Ha.
    + rewrite (surjective_pairing (Part001.Transcribe path model language task s)).
      eapply facade_frees; [apply HPl|].
      apply (Part001_Transcribe_spec path model language task s absPath Ha).
    + unfold Part001.Transcribe, bind, gets, ret. simpl. rewrite Ha.
      intros a _. exact Hl.
  - rewrite (surjective_pairing (Part001.TranscribeData data model language task s)).
    eapply facade_frees; [apply HPl|]. apply Part001_TranscribeData_spec.
  - rewrite (surjective_pairing (Part001.ListModels s)).
    eapply facade_frees; [apply HPl|]. apply Part001_ListModels_spec.
  - intros a _. pose proof (Part001_Close_spec s Hl) as Hc. unfold run in Hc.
    now destruct Hc as (_ & _ & Hlk & _).
Qed.

End Locking.

(** The backend answers [{}] on the stored connection: [ListModels]
    returns and the mutex is free. *)
Lemma calls_release_the_lock_witness :
  returns_free
    (Mutex.ListModels (H := Demo.lib)
       (Demo.state_of (Some 0%nat) []
          [mkConn (Demo.frame_of "{}") [true; true] false])).
Proof.
  refine (proj1 (proj2 (proj2
    (calls_release_the_lock (H := Demo.lib) (ModelsRequest "list_models") []
       "a.wav" "base" "transcribe" None
       (Demo.state_of (Some 0%nat) []
          [mkConn (Demo.frame_of "{}") [true; true] false]) _ _ _)))).
  - reflexivity.
  - intros cn Hu hb rest E. unfold uses in Hu. cbn in Hu. subst cn.
    vm_compute in E. injection E as <- _. vm_compute. discriminate.
  - intros p E. discriminate E.
Defined.

(* ================================================================== *)
(** * What the transport does to the counters *)
(* ================================================================== *)

Section Metrics.
Context `{GoLib}.

(** X8. Whenever [sendRequest] or [sendRequestWithContext] returns, with a
    result or with any of its errors (and it does return when the length
    announced on the connection it uses is one the allocator grants), it has
    counted the request, left the error counter alone and added the elapsed
    milliseconds of the call to the processing time: the duration is
    recorded by a deferred function, so on the error returns too. *)
Theorem transport_metrics (req : Request) (ctx : Context) (s : State)
    (r : outcome (result error bytes) * State) :
  lock_free s ->
  (r = Mutex.sendRequest req s /\
   forall cn, uses s cn -> grants (mem_limit (world s)) cn) \/
  (r = Golang.sendRequestWithContext ctx req s /\
   forall p, hd None (dial_script (world s)) = Some p ->
             grants (mem_limit (world s)) (connect p)) ->
  (exists a, fst r = Returns a) /\
  RequestsTotal (metrics (client (snd r)))
    = wrap64 (RequestsTotal (metrics (client s)) + 1) /\
  ErrorsTotal (metrics (client (snd r))) = ErrorsTotal (metrics (client s)) /\
  ProcessingTimeMs (metrics (client (snd r)))
    = wrap64 (ProcessingTimeMs (metrics (client s))
              + Milliseconds (now (world (snd r)) - now (world s))).
Proof.
  intros Hl Hr.
  assert (Hb : (exists a, fst r = Returns a) /\ Mutex_bumped s (snd r)).
  { destruct Hr as [[-> Hg]|[-> Hg]].
    - split; [|apply (Mutex_sendRequest_spec req s Hl)].
      now apply (sendRequest_returns _ _ req s Mutex_is_sendRequest Hl).
    - split; [|apply (Golang_sendRequestWithContext_spec ctx req s)].
      now apply sendRequestWithContext_returns. }
  destruct Hb as [Ha Hb]. split; [exact Ha|].
  unfold Mutex_bumped in Hb. rewrite Hb. repeat split.
Qed.

(** X9. [ListModels] never counts an error: not for a failed transport, and not
    for a response that does not decode or that carries an error text,
    which [handleResponse] would have counted. *)
Theorem ListModels_never_counts_errors (s : State) :
  lock_free s ->
  ErrorsTotal (metrics (client (snd (Mutex.ListModels s))))
  = ErrorsTotal (metrics (client s)).
Proof.
  intros Hl.
  pose proof (Mutex_ListModels_spec s) as Hf. unfold run in Hf.
  destruct Hf as (_ & _ & _ & _ & _ & _ & _ & _ & He).
  destruct (Mutex_sendRequest_spec (ModelsRequest "list_models") s Hl) as [_ Hb].
  unfold Mutex_bumped in Hb.
  replace (snd (listed (fst (Mutex.sendRequest (ModelsRequest "list_models") s))))
    with false in He.
  - rewrite He, Hb. reflexivity.
  - unfold listed.
    destruct (fst (Mutex.sendRequest (ModelsRequest "list_models") s))
      as [[buf|e]| |]; try reflexivity.
    destruct (json_Unmarshal_Models buf) as [r|]; [|reflexivity].
    destruct (negb (mr_Error r =? "")%string); reflexivity.
Qed.

End Metrics.

(** The backend answers [{}] on the stored connection: the call returns and
    the request is counted. *)
Lemma transport_metrics_witness :
  RequestsTotal (metrics (client (snd
    (Mutex.sendRequest (H := Demo.lib) (ModelsRequest "list_models")
       (Demo.state_of (Some 0%nat) []
          [mkConn (Demo.frame_of "{}") [true; true] false])))))
  = wrap64 (0 + 1).
Proof.
  refine (proj1 (proj2
    (transport_metrics (H := Demo.lib) (ModelsRequest "list_models")
       (mkContext None Canceled)
       (Demo.state_of (Some 0%nat) []
          [mkConn (Demo.frame_of "{}") [true; true] false]) _ _
       (or_introl (conj eq_refl _))))).
  - reflexivity.
  - intros cn Hu hb rest E. unfold uses in Hu. cbn in Hu. subst cn.
    vm_compute in E. injection E as <- _. vm_compute. discriminate.
Defined.

(** The server answers [{"error":"no models"}]: the call fails and the
    counter stays at zero. *)
Lemma ListModels_never_counts_errors_witness :
  ErrorsTotal (metrics (client (snd
    (Mutex.ListModels (H := Demo.lib)
       (Demo.state_of None
          [Some (mkPeer
                   (encodeFrame ([x7b] ++ Demo.quote "error" ++ [x3a]
                                 ++ Demo.quote "no models" ++ [x7d]))
                   [true; true])] [])))))
  = 0.
Proof.
  apply (ListModels_never_counts_errors (H := Demo.lib)
           (Demo.state_of None
              [Some (mkPeer
                       (encodeFrame ([x7b] ++ Demo.quote "error" ++ [x3a]
                                     ++ Demo.quote "no models" ++ [x7d]))
                       [true; true])] [])).
  reflexivity.
Defined.

(* ================================================================== *)
(** * The connection [Transcribe] makes for itself *)
(* ================================================================== *)

Section PerCall.
Context `{GoLib}.

(** X10. [sendRequestWithContext] of golang/whisper_client.go never looks at
    its context.  It dials once, with a 30 s timeout and no retry; if the
    dial fails that is its error, and the stored connection and the mutex
    are as they were.  If the dial succeeds and the length announced on the
    new connection is one the allocator grants, the call returns, everything
    it reads and writes is on the new connection, the last thing it does,
    whether the exchange completes or fails, is to close that connection,
    and again the stored connection and the mutex are as they were. *)
Theorem per_call_connection (ctx : Context) (req : Request) (s : State) :
  let r := Golang.sendRequestWithContext ctx req s in
  let id := List.length (conns (world s)) in
  (forall ctx', Golang.sendRequestWithContext ctx' req s = r) /\
  (hd None (dial_script (world s)) = None ->
   fst r = Returns (Err (Errorf "dial" ErrDial)) /\
   conn (client (snd r)) = conn (client s) /\
   connLock (client (snd r)) = connLock (client s) /\
   trace (world (snd r))
   = trace (world s) ++ [EvDial (addr_of s) (Some (30 * second)) None]) /\
  (forall p, hd None (dial_script (world s)) = Some p ->
   grants (mem_limit (world s)) (connect p) ->
   (exists a, fst r = Returns a) /\
   conn (client (snd r)) = conn (client s) /\
   connLock (client (snd r)) = connLock (client s) /\
   is_open (world (snd r)) id = false /\
   exists evs,
     trace (world (snd r))
     = trace (world s)
       ++ EvDial (addr_of s) (Some (30 * second)) (Some id) :: evs
       ++ [EvClose id] /\
     evs = stage_events id (payload req)
             (exchange (mem_limit (world s)) (connect p)) /\
     (forall ev c', In ev evs -> io_conn ev = Some c' -> c' = id)).
Proof.
  cbv zeta. split; [reflexivity|].
  destruct (Golang_sendRequestWithContext_spec ctx req s)
    as [(evs & Hs & Hx & _ & Hc & Hlk) _].
  unfold extends in Hx. split.
  - intros Hd.
    destruct Hs as [w1 _ _|id p st o w1 evs' _ Hd' _ _ _ _ _];
      [repeat split; assumption|congruence].
  - intros p Hd Hg.
    split; [now apply sendRequestWithContext_returns; intros p' Hd';
            rewrite Hd in Hd'; injection Hd' as <-|].
    split; [exact Hc|]. split; [exact Hlk|].
    destruct Hs as [w1 Hd' _|id p' st o w1 evs' -> Hd' -> _ Hop _ ->];
      [congruence|].
    rewrite Hd in Hd'. injection Hd' as <-.
    split; [rewrite Hop, Nat.eqb_refl; reflexivity|].
    eexists. split; [exact Hx|]. split; [reflexivity|].
    intros ev c' Hin Hio. eapply stage_events_on; eauto.
Qed.

Lemma Golang_Transcribe_trace path model language task s absPath :
  fs_abs (world s) path = Some absPath ->
  fs_stat (world s) absPath <> StatNotExist ->
  trace (world (snd (Golang.Transcribe path model language task s)))
  = trace (world (snd (Golang.sendRequestWithContext (own_context s)
                         (FileTranscriptionRequest "transcribe" absPath model
                            (normalized language) task) s))).
Proof.
  intros Ha Hst.
  pose proof (Golang_Transcribe_spec path model language task s absPath Ha Hst)
    as Hf. unfold run in Hf.
  apply facade_trace in Hf. exact Hf.
Qed.

(** X11. Only a missing file stops [Transcribe] early.  If [os.Stat] fails in
    another way (no permission, say) golang/whisper_client.go goes on and
    dials; unnamed/part_000 and unnamed/part_001 never look at the file and
    go to the network even when it does not exist. *)
Theorem only_a_missing_file_stops_Transcribe (path model task absPath : string)
    (language : option string) (s : State) :
  lock_free s ->
  fs_abs (world s) path = Some absPath ->
  (fs_stat (world s) absPath = StatOtherError ->
   exists r rest,
     trace (world (snd (Golang.Transcribe path model language task s)))
     = trace (world s) ++ EvDial (addr_of s) (Some (30 * second)) r :: rest) /\
  (fs_stat (world s) absPath = StatNotExist ->
   (exists ev rest,
      trace (world (snd (Part000.Transcribe path model language task s)))
      = trace (world s) ++ ev :: rest /\ is_net ev = true) /\
   (exists ev rest,
      trace (world (snd (Part001.Transcribe path model language task s)))
      = trace (world s) ++ ev :: rest /\ is_net ev = true)).
Proof.
  intros Hl Ha. split.
  - intros Hst.
    rewrite (Golang_Transcribe_trace path model language task s absPath Ha)
      by (rewrite Hst; discriminate).
    destruct (Golang_sendRequestWithContext_spec (own_context s)
                (FileTranscriptionRequest "transcribe" absPath model
                   (normalized language) task) s)
      as [(evs & Hs & Hx & _) _].
    unfold extends in Hx. rewrite Hx.
    destruct Hs as [w1 _ _|id p st o w1 evs' _ _ _ _ _ _ ->]; eauto.
  - intros _.
    assert (Hfirst : forall send t req,
      is_sendRequest send t ->
      exists ev rest,
        trace (world (snd (send req s))) = trace (world s) ++ ev :: rest /\
        is_net ev = true).
    { intros send t req Hsend.
      destruct (Hsend req s Hl) as (evs & Hs & Hx & _).
      unfold extends in Hx. rewrite Hx.
      destruct (conn (client s)) as [c|].
      - apply sent_on_stored in Hs. cbv zeta in Hs.
        destruct Hs as (_ & _ & -> & _).
        destruct (exchange _ _); simpl; eauto.
      - apply sent_starts_with_dial in Hs as (r & rest & ->). eauto. }
    split.
    + pose proof (Part000_Transcribe_spec path model language task s absPath Ha)
        as Hf. unfold run in Hf. apply facade_trace in Hf. rewrite Hf.
      eapply Hfirst. apply Mutex_is_sendRequest.
    + pose proof (Part001_Transcribe_spec path model language task s absPath Ha)
        as Hf. unfold run in Hf. apply facade_trace in Hf. rewrite Hf.
      eapply Hfirst. apply Part001_is_sendRequest.
Qed.

End PerCall.

(** The backend accepts the connection and answers [{}]: the call ends by
    closing the connection it made. *)
Lemma per_call_connection_witness :
  is_open (world (snd
    (Golang.sendRequestWithContext (H := Demo.lib) (mkContext None Canceled)
       (ModelsRequest "list_models")
       (Demo.state_of None
          [Some (mkPeer (Demo.frame_of "{}") [true; true])] [])))) 0%nat
  = false.
Proof.
  refine (proj1 (proj2 (proj2 (proj2 (proj2 (proj2
    (per_call_connection (H := Demo.lib) (mkContext None Canceled)
       (ModelsRequest "list_models")
       (Demo.state_of None
          [Some (mkPeer (Demo.frame_of "{}") [true; true])] [])))
    (mkPeer (Demo.frame_of "{}") [true; true]) _ _))))).
  - reflexivity.
  - intros hb rest E. vm_compute in E. injection E as <- _.
    vm_compute. discriminate.
Defined.

Lemma only_a_missing_file_stops_Transcribe_witness :
  exists ev rest,
    trace (world (snd
      (Part000.Transcribe (H := Demo.lib) "a.wav" "base" None "transcribe"
         (mkState (Demo.client_of None)
            (mkWorld [] [] [] 0 [] (2 ^ 31)
               (fun p => Some p) (fun _ => StatNotExist))))))
    = [] ++ ev :: rest /\ is_net ev = true.
Proof.
  refine (proj1 (proj2
    (only_a_missing_file_stops_Transcribe (H := Demo.lib) "a.wav" "base"
       "transcribe" "a.wav" None
       (mkState (Demo.client_of None)
          (mkWorld [] [] [] 0 [] (2 ^ 31)
             (fun p => Some p) (fun _ => StatNotExist))) _ _) _));
    reflexivity.
Defined.

(* ================================================================== *)
(** * What goes on the wire for the language *)
(* ================================================================== *)

Section LanguageOnWire.
Context `{GoLib}.

(** X12. In golang/whisper_client.go and unnamed/part_000, [Transcribe] and
    [TranscribeData] are the transport call of a request built from the
    normalized language, so a request with no empty [language] member, and
    with no [language] member at all for a nil or empty language.  On a
    connection that accepts the writes, the header and the body of that
    request are what goes on the wire, and no call writes anything else. *)
Theorem language_never_empty_on_wire (data : bytes)
    (path model task absPath : string) (language : option string) (s : State) :
  lock_free s ->
  fs_abs (world s) path = Some absPath ->
  fs_stat (world s) absPath <> StatNotExist ->
  let dreq := DataTranscriptionRequest "transcribe"
                (base64_EncodeToString data) model (normalized language) task in
  let freq := FileTranscriptionRequest "transcribe" absPath model
                (normalized language) task in
  (* the requests *)
  ~ In (member "language" "") (members dreq) /\
  ~ In (member "language" "") (members freq) /\
  (language = None \/ language = Some ""%string ->
   forall v, ~ In (member "language" v) (members dreq) /\
             ~ In (member "language" v) (members freq)) /\
  (* the calls are the transport calls of these requests *)
  facade_post (Mutex.sendRequest dreq) handled s
    (fst (Mutex.TranscribeData data model language task s))
    (snd (Mutex.TranscribeData data model language task s)) /\
  facade_post (Mutex.sendRequest freq) handled s
    (fst (Part000.Transcribe path model language task s))
    (snd (Part000.Transcribe path model language task s)) /\
  facade_post
    (wrapping (Golang.sendRequestWithContext (own_context s) freq)) handled s
    (fst (Golang.Transcribe path model language task s))
    (snd (Golang.Transcribe path model language task s)) /\
  (* what is written on a stored connection that accepts the writes *)
  (forall c,
     conn (client s) = Some c ->
     closed (conn_at (world s) c) = false ->
     hd false (write_ok (conn_at (world s) c)) = true ->
     hd false (tl (write_ok (conn_at (world s) c))) = true ->
     (exists rest,
        trace (world (snd (Mutex.TranscribeData data model language task s)))
        = trace (world s)
          ++ EvWrite c (encodeHeader (payload dreq)) true
          :: EvWrite c (payload dreq) true :: rest) /\
     (exists rest,
        trace (world (snd (Part000.Transcribe path model language task s)))
        = trace (world s)
          ++ EvWrite c (encodeHeader (payload freq)) true
          :: EvWrite c (payload freq) true :: rest)) /\
  (* and on the connection that [Transcribe] of golang/ makes *)
  (forall p,
     hd None (dial_script (world s)) = Some p ->
     hd false (p_write_ok p) = true ->
     hd false (tl (p_write_ok p)) = true ->
     exists rest,
       trace (world (snd (Golang.Transcribe path model language task s)))
       = trace (world s)
         ++ EvDial (addr_of s) (Some (30 * second))
                   (Some (List.length (conns (world s))))
         :: EvWrite (List.length (conns (world s)))
                    (encodeHeader (payload freq)) true
         :: EvWrite (List.length (conns (world s))) (payload freq) true
         :: rest) /\
  (* nothing else is ever written *)
  (exists evs,
     trace (world (snd (Mutex.TranscribeData data model language task s)))
     = trace (world s) ++ evs /\ writes_frame_of (payload dreq) evs) /\
  (exists evs,
     trace (world (snd (Golang.Transcribe path model language task s)))
     = trace (world s) ++ evs /\ writes_frame_of (payload freq) evs) /\
  (exists evs,
     trace (world (snd (Part000.Transcribe path model language task s)))
     = trace (world s) ++ evs /\ writes_frame_of (payload freq) evs).
Proof.
  intros Hl Ha Hst. cbv zeta.
  assert (HM : forall req, exists evs,
    trace (world (snd (Mutex.sendRequest req s))) = trace (world s) ++ evs /\
    writes_frame_of (payload req) evs).
  { intros req. destruct (Mutex_sendRequest_spec req s Hl) as [(evs & Hs & Hx & _) _].
    exists evs. split; [exact Hx|]. now apply sent_writes in Hs. }
  pose proof (Mutex_TranscribeData_spec data model language task s) as Hfd.
  pose proof (Part000_Transcribe_spec path model language task s absPath Ha)
    as Hf0.
  pose proof (Golang_Transcribe_spec path model language task s absPath Ha Hst)
    as Hfg.
  unfold run in Hfd, Hf0, Hfg.
  split; [|split; [|split]].
  - intros Hin. apply language_member in Hin.
    now apply normalized_not_empty in Hin.
  - intros Hin. apply language_member in Hin.
    now apply normalized_not_empty in Hin.
  - intros Hempty v. pose proof (normalized_absent _ Hempty) as Hn.
    split; intros Hin; apply language_member in Hin; congruence.
  - split; [exact Hfd|]. split; [exact Hf0|]. split; [exact Hfg|].
    rewrite (facade_trace _ _ _ _ _ Hfd), (facade_trace _ _ _ _ _ Hf0),
      (facade_trace _ _ _ _ _ Hfg).
    unfold wrapping. cbn [snd].
    split; [|split; [|split; [|split]]].
    + intros c Hc Hcl Hw1 Hw2.
      split; now apply stored_call_writes_frame with (Some connectTimeout);
        [apply Mutex_is_sendRequest|..].
    + intros p Hd Hw1 Hw2. now apply fresh_call_writes_frame with p.
    + apply HM.
    + destruct (Golang_sendRequestWithContext_spec (own_context s)
                  (FileTranscriptionRequest "transcribe" absPath model
                     (normalized language) task) s)
        as [(evs & Hs & Hx & _) _].
      exists evs. split; [exact Hx|]. now apply sent_fresh_writes in Hs.
    + apply HM.
Qed.

(** X13. The request struct of unnamed/part_001 and the two structs of the later
    variants encode to the same members, in the same order, exactly when
    the path (or the data) is not empty: [audio_path] and [audio_data] are
    [omitempty] in the first and always present in the others. *)
Theorem request_structs_agree (command path data model task : string)
    (language : option string) :
  (members (TranscriptionRequest command path "" model language task)
   = members (FileTranscriptionRequest command path model language task)
   <-> path <> ""%string) /\
  (members (TranscriptionRequest command "" data model language task)
   = members (DataTranscriptionRequest command data model language task)
   <-> data <> ""%string) /\
  (path <> ""%string ->
   json_Marshal (TranscriptionRequest command path "" model language task)
   = json_Marshal (FileTranscriptionRequest command path model language task)) /\
  (data <> ""%string ->
   json_Marshal (TranscriptionRequest command "" data model language task)
   = json_Marshal (DataTranscriptionRequest command data model language task)).
Proof.
  assert (Hp : members (TranscriptionRequest command path "" model language task)
     = members (FileTranscriptionRequest command path model language task)
     <-> path <> ""%string).
  { unfold members, omitempty, omitnil, member.
    destruct (String.eqb_spec path "") as [->|Hne].
    - split; [|congruence]. simpl.
      destruct (model =? "")%string, language, (task =? "")%string;
        simpl; intros E; discriminate.
    - split; [intros _; exact Hne|reflexivity]. }
  assert (Hd : members (TranscriptionRequest command "" data model language task)
     = members (DataTranscriptionRequest command data model language task)
     <-> data <> ""%string).
  { unfold members, omitempty, omitnil, member.
    destruct (String.eqb_spec data "") as [->|Hne].
    - split; [|congruence]. simpl.
      destruct (model =? "")%string, language, (task =? "")%string;
        simpl; intros E; discriminate.
    - split; [intros _; exact Hne|reflexivity]. }
  split; [exact Hp|]. split; [exact Hd|]. split.
  - intros Hne. unfold json_Marshal. now rewrite (proj2 Hp Hne).
  - intros Hne. unfold json_Marshal. now rewrite (proj2 Hd Hne).
Qed.

End LanguageOnWire.

(** [TranscribeData] with a pointer to the empty string, on a stored
    connection that accepts the writes: what is written is the request with
    no language. *)
Lemma language_never_empty_on_wire_witness :
  exists rest,
    trace (world (snd
      (Mutex.TranscribeData (H := Demo.lib) [x01] "base" (Some ""%string)
         "transcribe"
         (Demo.state_of (Some 0%nat) []
            [mkConn (Demo.frame_of "{}") [true; true] false]))))
    = []
      ++ EvWrite 0%nat
           (encodeHeader
              (payload (H := Demo.lib)
                 (DataTranscriptionRequest "transcribe"
                    (base64_EncodeToString (GoLib := Demo.lib) [x01]) "base"
                    None "transcribe"))) true
      :: EvWrite 0%nat
           (payload (H := Demo.lib)
              (DataTranscriptionRequest "transcribe"
                 (base64_EncodeToString (GoLib := Demo.lib) [x01]) "base"
                 None "transcribe")) true
      :: rest.
Proof.
  refine (proj1 (proj1 (proj2 (proj2 (proj2 (proj2 (proj2 (proj2
    (language_never_empty_on_wire (H := Demo.lib) [x01] "a.wav" "base"
       "transcribe" "/data/a.wav" (Some ""%string)
       (Demo.state_of (Some 0%nat) []
          [mkConn (Demo.frame_of "{}") [true; true] false]) _ _ _)))))))
    0%nat _ _ _ _)).
  - reflexivity.
  - reflexivity.
  - discriminate.
  - reflexivity.
  - reflexivity.
  - reflexivity.
  - reflexivity.
Defined.

(* ================================================================== *)
(** * A new client *)
(* ================================================================== *)

Section NewClient.
Context `{GoLib}.

(** X15. [NewWhisperClient] touches nothing outside the client: no dial, no
    event.  The new client has no connection and its lock is free (in
    unnamed/part_001: the token is in the channel), so its first request
    does not block and begins by dialling the address made of the host and
    port it was given. *)
Theorem new_client_connects_lazily (host port : string) (req : Request)
    (s : State)
    (new : string -> string -> M State unit)
    (send : Request -> M State (result error bytes)) (t : option Z) :
  (new = Mutex.NewWhisperClient /\ send = Mutex.sendRequest
   /\ t = Some connectTimeout) \/
  (new = Part001.NewWhisperClient /\ send = Part001.sendRequest /\ t = None) ->
  let s0 := snd (new host port s) in
  fst (new host port s) = Returns tt /\
  world s0 = world s /\
  Host (client s0) = host /\ Port (client s0) = port /\
  conn (client s0) = None /\ lock_free s0 /\
  fst (send req s0) <> Blocks /\
  exists r rest,
    trace (world (snd (send req s0)))
    = trace (world s) ++ EvDial (JoinHostPort host port) t r :: rest.
Proof.
  intros Hwhich. cbv zeta.
  assert (Hnew : fst (new host port s) = Returns tt /\
                 world (snd (new host port s)) = world s /\
                 Host (client (snd (new host port s))) = host /\
                 Port (client (snd (new host port s))) = port /\
                 conn (client (snd (new host port s))) = None /\
                 lock_free (snd (new host port s))).
  { destruct Hwhich as [(-> & _)|(-> & _)]; repeat split. }
  destruct Hnew as (Ho & Hw & Hh & Hp & Hc & Hl).
  repeat (split; [assumption|]).
  assert (Hsend : is_sendRequest send t).
  { destruct Hwhich as [(_ & -> & ->)|(_ & -> & ->)];
      [apply Mutex_is_sendRequest|apply Part001_is_sendRequest]. }
  destruct (Hsend req _ Hl) as (evs & Hs & Hx & _).
  split; [now apply sent_not_Blocks in Hs|].
  rewrite Hc in Hs. apply sent_starts_with_dial in Hs as (r & rest & ->).
  unfold extends in Hx. rewrite Hx, Hw. unfold addr_of. rewrite Hh, Hp. eauto.
Qed.

End NewClient.

Lemma new_client_connects_lazily_witness :
  exists r rest,
    trace (world (snd
      (Part001.sendRequest (H := Demo.lib) (ModelsRequest "list_models")
         (snd (Part001.NewWhisperClient "10.0.0.5" "9000"
                 (Demo.state_of (Some 0%nat) [] []))))))
    = [] ++ EvDial "10.0.0.5:9000" None r :: rest.
Proof.
  exact (proj2 (proj2 (proj2 (proj2 (proj2 (proj2 (proj2
    (new_client_connects_lazily (H := Demo.lib) "10.0.0.5" "9000"
       (ModelsRequest "list_models") (Demo.state_of (Some 0%nat) [] [])
       Part001.NewWhisperClient Part001.sendRequest None
       (or_intror (conj eq_refl (conj eq_refl eq_refl))))))))))).
Defined.

(* ================================================================== *)
(** * golang/main.go: the HTTP server in front of the client *)
(* ================================================================== *)

Module Server.

(** The variables of the process environment that are set. *)
Definition Environ := string -> option string.

(** [os.Getenv(key)]: the empty string for a variable that is not set. *)
Definition os_Getenv (env : Environ) (key : string) : string :=
  match env key with
  | Some value => value
  | None => ""
  end.

Definition getEnv (env : Environ) (key defaultValue : string) : string :=
  let value := os_Getenv env key in
  if String.eqb value "" then defaultValue else value.

Definition whisperHost (env : Environ) : string :=
  getEnv env "WHISPER_HOST" "127.0.0.1".
Definition whisperPort (env : Environ) : string :=
  getEnv env "WHISPER_PORT" "9000".

(** [init]: [whisperClient = NewWhisperClient(whisperHost, whisperPort)].
    (It also sets the mode of the web framework.) *)
Definition init (env : Environ) : M State unit :=
  Mutex.NewWhisperClient (whisperHost env) (whisperPort env).

(** The file calls a handler makes itself.  What the framework does when
    it parses the multipart form (with [MaxMultipartMemory] at 20 MiB it
    keeps the larger parts in temporary files of its own) is not among
    them. *)
Inductive FsEvent :=
| FsCreateTemp (r : option string)
| FsSave (dst : string) (ok : bool)
| FsCloseFile (name : string)
| FsRemove (name : string).

(** The server process: the global [whisperClient] with its world, the
    instant the process started, the outcomes of the [os.CreateTemp] and
    [SaveUploadedFile] calls to come, and the file operations so far. *)
Record Sys := mkSys {
  app         : State;
  startTime   : Z;
  temp_script : list (option string);
  save_script : list bool;
  fs_trace    : list FsEvent
}.

(** A call on the global client. *)
Definition liftApp {A} (m : M State A) : M Sys A :=
  fun y =>
    (fst (m (app y)),
     mkSys (snd (m (app y))) (startTime y) (temp_script y) (save_script y)
           (fs_trace y)).

(** [os.CreateTemp("", "whisper-upload-*.tmp")]: the name of the new file,
    or [None] for an error. *)
Definition os_CreateTemp : M Sys (option string) :=
  fun y =>
    let r := hd None (temp_script y) in
    (Returns r,
     mkSys (app y) (startTime y) (tl (temp_script y)) (save_script y)
           (fs_trace y ++ [FsCreateTemp r])).

(** [*multipart.FileHeader], as far as the handler reads it. *)
Record FileHeader := mkFileHeader {
  Filename : string;
  Size     : Z
}.

(** [c.SaveUploadedFile(file, dst)]. *)
Definition SaveUploadedFile (file : FileHeader) (dst : string) : M Sys bool :=
  fun y =>
    let ok := hd false (save_script y) in
    (Returns ok,
     mkSys (app y) (startTime y) (temp_script y) (tl (save_script y))
           (fs_trace y ++ [FsSave dst ok])).

Definition log_fs (ev : FsEvent) : M Sys unit :=
  fun y =>
    (Returns tt,
     mkSys (app y) (startTime y) (temp_script y) (save_script y)
           (fs_trace y ++ [ev])).

(** [tempFile.Close()] and [os.Remove(name)], whose errors the handler
    drops. *)
Definition file_Close (name : string) : M Sys unit := log_fs (FsCloseFile name).
Definition os_Remove (name : string) : M Sys unit := log_fs (FsRemove name).

(** The part of [*gin.Context] the handlers read, once the framework has
    parsed the request: the header of the uploaded file, if [c.FormFile]
    finds one, and the values of the form. *)
Record Context := mkContext {
  form_file : option FileHeader;
  form      : string -> option string
}.

(** [c.PostForm(key)]: the empty string when the form has no such key. *)
Definition PostForm (c : Context) (key : string) : string :=
  match form c key with
  | Some v => v
  | None => ""
  end.

(** [c.DefaultPostForm(key, defaultValue)]. *)
Definition DefaultPostForm (c : Context) (key defaultValue : string) : string :=
  match form c key with
  | Some v => v
  | None => defaultValue
  end.

(** What [c.JSON(status, body)] sends. *)
Inductive Body :=
| ErrorBody (message : string) (cause : option error)
| ModelsBody (models : ModelsResponse)
| MetricsBody (m : Metrics) (uptime : Z)
| HealthBody (server_time uptime : Z)
| SuccessBody (data : TranscriptionResponse Segment) (processing_time : Z)
              (file_size : Z) (model : string) (language : option string)
              (task : string)
| NoBody.

Record Response := mkResponse {
  status : Z;
  body   : Body
}.

Definition StatusOK : Z := 200.
Definition StatusBadRequest : Z := 400.
Definition StatusInternalServerError : Z := 500.

Section WithLib.
Context `{GoLib}.


Definition getModelsHandler (c : Context) : M Sys Response :=
  r <- liftApp Mutex.ListModels ;;
  match r with
  | Err err =>
      ret (mkResponse StatusInternalServerError
             (ErrorBody "list models" (Some err)))
  | Ok models => ret (mkResponse StatusOK (ModelsBody models))
  end.


Definition transcribeHandler (c : Context) : M Sys Response :=
  match form_file c with
  | None => ret (mkResponse StatusBadRequest (ErrorBody "get file" None))
  | Some file =>
  if 100 * 1024 * 1024 <? Size file
  then ret (mkResponse StatusBadRequest (ErrorBody "file too large" None))
  else
  t <- os_CreateTemp ;;
  match t with
  | None =>
      ret (mkResponse StatusInternalServerError
             (ErrorBody "create temporary file" None))
  | Some tempFile =>
  defer (os_Remove tempFile) (
  defer (file_Close tempFile) (
    ok <- SaveUploadedFile file tempFile ;;
    if negb ok
    then ret (mkResponse StatusInternalServerError
                (ErrorBody "save file" None))
    else
    liftApp log_Printf ;;
    let model := DefaultPostForm c "model" "base" in
    let language :=
      let langValue := PostForm c "language" in
      if negb (String.eqb langValue "") then Some langValue else None in
    let task := DefaultPostForm c "task" "transcribe" in
    start <- liftApp time_Now ;;
    r <- liftApp (Golang.Transcribe tempFile model language task) ;;
    elapsedTime <- liftApp (time_Since start) ;;
    match r with
    | Err err =>
        ret (mkResponse StatusInternalServerError
               (ErrorBody "transcription" (Some err)))
    | Ok result =>
        ret (mkResponse StatusOK
               (SuccessBody result elapsedTime (Size file) model language task))
    end))
  end end.




End WithLib.

End Server.

Section ServerFacts.
Context `{GoLib}.

Lemma Golang_Transcribe_not_Blocks path model language task s :
  fst (Golang.Transcribe path model language task s) <> Blocks.
Proof.
  destruct (fs_abs (world s) path) as [absPath|] eqn:Ha.
  - destruct (fs_stat (world s) absPath) eqn:Hst.
    1, 3: (assert (Hne : fs_stat (world s) absPath <> StatNotExist)
             by (rewrite Hst; discriminate);
           pose proof (Golang_Transcribe_spec path model language task s
                         absPath Ha Hne) as Hf;
           unfold run in Hf; destruct Hf as [-> _];
           apply handled_not_Blocks; unfold wrapping; cbn [fst snd];
           destruct (Golang_sendRequestWithContext_spec (own_context s)
                       (FileTranscriptionRequest "transcribe" absPath model
                          (normalized language) task) s)
             as [(evs & Hs & _) _];
           apply sent_fresh_not_Blocks in Hs;
           destruct (fst (Golang.sendRequestWithContext _ _ s))
             as [[b|e]| |]; simpl; congruence).
    unfold Golang.Transcribe, bind, gets, ret. simpl. rewrite Ha, Hst.
    discriminate.
  - unfold Golang.Transcribe, bind, gets, ret. simpl. rewrite Ha.
    discriminate.
Qed.

Lemma first_request_dials s :
  lock_free s -> conn (client s) = None ->
  exists r rest,
    trace (world (snd (Mutex.ListModels s)))
    = trace (world s) ++ EvDial (addr_of s) (Some connectTimeout) r :: rest.
Proof.
  intros Hl Hc.
  pose proof (Mutex_ListModels_spec s) as Hf. unfold run in Hf.
  apply facade_trace in Hf. rewrite Hf.
  destruct (Mutex_sendRequest_spec (ModelsRequest "list_models") s Hl)
    as [(evs & Hs & Hx & _) _].
  rewrite Hc in Hs. apply sent_starts_with_dial in Hs as (r & rest & ->).
  unfold extends in Hx. eauto.
Qed.

(** X16. The address the server's client dials is the one the environment
    configures: host and port from [WHISPER_HOST] and [WHISPER_PORT], each
    replaced by its default, [127.0.0.1] and [9000], when the variable is
    not set or is set to the empty string. *)
Theorem server_dials_configured_backend (env : Server.Environ)
    (c : Server.Context) (y : Server.Sys) :
  let y0 := snd (Server.liftApp (Server.init env) y) in
  (exists r rest,
     trace (world (Server.app (snd (Server.getModelsHandler c y0))))
     = trace (world (Server.app y))
       ++ EvDial (JoinHostPort (Server.whisperHost env) (Server.whisperPort env))
                 (Some connectTimeout) r :: rest) /\
  (forall key d, env key = None \/ env key = Some ""%string ->
                 Server.getEnv env key d = d) /\
  (forall key d v, env key = Some v -> v <> ""%string ->
                   Server.getEnv env key d = v) /\
  ((env "WHISPER_HOST"%string = None \/ env "WHISPER_HOST"%string = Some ""%string) ->
   (env "WHISPER_PORT"%string = None \/ env "WHISPER_PORT"%string = Some ""%string) ->
   JoinHostPort (Server.whisperHost env) (Server.whisperPort env)
   = "127.0.0.1:9000"%string).
Proof.
  cbv zeta.
  assert (Hdef : forall key d, env key = None \/ env key = Some ""%string ->
                               Server.getEnv env key d = d).
  { intros key d [E|E]; unfold Server.getEnv, Server.os_Getenv; rewrite E;
      reflexivity. }
  split; [|split; [exact Hdef|split]].
  - set (s0 := snd (Server.init env (Server.app y))).
    destruct (first_request_dials s0) as (r & rest & E); [reflexivity..|].
    exists r, rest.
    unfold Server.getModelsHandler, Server.liftApp, bind. cbn [fst snd Server.app].
    fold s0.
    destruct (fst (Mutex.ListModels s0)) as [[m|e]| |]; cbn [snd Server.app ret];
      exact E.
  - intros key d v E Hv. unfold Server.getEnv, Server.os_Getenv. rewrite E.
    destruct (String.eqb_spec v ""); [contradiction|reflexivity].
  - intros Hh Hp. unfold Server.whisperHost, Server.whisperPort.
    rewrite (Hdef _ _ Hh), (Hdef _ _ Hp). reflexivity.
Qed.

(** What the handler makes of the form: the model and the task with their
    defaults, and the language, absent when the form has none or an empty
    one. *)
Definition form_model (c : Server.Context) : string :=
  match Server.form c "model" with Some v => v | None => "base" end.

Definition form_task (c : Server.Context) : string :=
  match Server.form c "task" with Some v => v | None => "transcribe" end.

Definition form_language (c : Server.Context) : option string :=
  match Server.form c "language" with
  | Some v => if String.eqb v "" then None else Some v
  | None => None
  end.

Lemma transcribeHandler_run (c : Server.Context) (y : Server.Sys)
    (file : Server.FileHeader) :
  Server.form_file c = Some file ->
  Server.Size file <= 100 * 1024 * 1024 ->
  Server.transcribeHandler c y =
  match hd None (Server.temp_script y) with
  | None =>
      (Returns (Server.mkResponse 500
                  (Server.ErrorBody "create temporary file" None)),
       Server.mkSys (Server.app y) (Server.startTime y)
         (tl (Server.temp_script y)) (Server.save_script y)
         (Server.fs_trace y ++ [Server.FsCreateTemp None]))
  | Some name =>
      let ok := hd false (Server.save_script y) in
      let r := Golang.Transcribe name (form_model c) (form_language c)
                 (form_task c) (Server.app y) in
      ((if ok then
          match fst r with
          | Returns (Ok result) =>
              Returns (Server.mkResponse 200
                         (Server.SuccessBody result
                            (now (world (snd r)) - now (world (Server.app y)))
                            (Server.Size file) (form_model c)
                            (form_language c) (form_task c)))
          | Returns (Err err) =>
              Returns (Server.mkResponse 500
                         (Server.ErrorBody "transcription" (Some err)))
          | Panics => Panics
          | Blocks => Blocks
          end
        else Returns (Server.mkResponse 500
                        (Server.ErrorBody "save file" None))),
       Server.mkSys (if ok then snd r else Server.app y) (Server.startTime y)
         (tl (Server.temp_script y)) (tl (Server.save_script y))
         (Server.fs_trace y
          ++ [Server.FsCreateTemp (Some name); Server.FsSave name ok;
              Server.FsCloseFile name; Server.FsRemove name]))
  end.
Proof.
  intros E Hsize. unfold Server.transcribeHandler. rewrite E.
  destruct (Z.ltb_spec (100 * 1024 * 1024) (Server.Size file)); [lia|].
  unfold bind at 1. unfold Server.os_CreateTemp at 1. cbv zeta.
  destruct (hd None (Server.temp_script y)) as [name|]; [|reflexivity].
  cbv zeta.
  pose proof (Golang_Transcribe_not_Blocks name (form_model c)
                (form_language c) (form_task c) (Server.app y)) as Hnb.
  assert (Hlang : (if negb (Server.PostForm c "language" =? "")%string
                   then Some (Server.PostForm c "language") else None)
                  = form_language c).
  { unfold Server.PostForm, form_language.
    destruct (Server.form c "language") as [v|]; [|reflexivity].
    destruct (v =? "")%string; reflexivity. }
  cbv zeta. rewrite Hlang.
  change (Server.DefaultPostForm c "model" "base") with (form_model c).
  change (Server.DefaultPostForm c "task" "transcribe") with (form_task c).
  unfold defer, bind, Server.SaveUploadedFile, Server.liftApp, log_Printf,
    time_Now, time_Since, gets, ret, Server.os_Remove, Server.file_Close,
    Server.log_fs.
  cbn [fst snd Server.app Server.startTime Server.temp_script
       Server.save_script Server.fs_trace].
  destruct (hd false (Server.save_script y)); cbn [negb fst snd].
  - cbn [fst snd Server.app Server.fs_trace Server.startTime
         Server.temp_script Server.save_script world now] in *.
    set (T := Golang.Transcribe name (form_model c) (form_language c)
                (form_task c) (Server.app y)) in *.
    destruct T as [[[result|err]| |] s'];
      cbn [fst snd Server.app Server.fs_trace Server.startTime
           Server.temp_script Server.save_script] in *;
      rewrite <- ?app_assoc; try reflexivity.
    congruence.
  - cbn [Server.app Server.fs_trace Server.startTime
         Server.temp_script Server.save_script].
    rewrite <- ?app_assoc. reflexivity.
Qed.

(** X18. The file calls the handler makes itself, for an upload of at most
    100 MiB: [os.CreateTemp], and, if that gave a file, [SaveUploadedFile]
    to it, then, by the two deferred calls, its [Close] and its [os.Remove],
    in this order and before the handler returns; so also when saving the
    upload fails, in which case the client is not called, and when the call
    of the client returns an error.  That the handler returns is shown for
    a backend whose announced length is one the allocator grants. *)
Theorem transcribeHandler_cleans_up (c : Server.Context) (y : Server.Sys)
    (file : Server.FileHeader) :
  Server.form_file c = Some file ->
  Server.Size file <= 100 * 1024 * 1024 ->
  lock_free (Server.app y) ->
  (forall p, hd None (dial_script (world (Server.app y))) = Some p ->
             grants (mem_limit (world (Server.app y))) (connect p)) ->
  let h := Server.transcribeHandler c y in
  (hd None (Server.temp_script y) = None ->
   fst h = Returns (Server.mkResponse 500
                      (Server.ErrorBody "create temporary file" None)) /\
   Server.app (snd h) = Server.app y /\
   Server.fs_trace (snd h)
   = Server.fs_trace y ++ [Server.FsCreateTemp None]) /\
  (forall name, hd None (Server.temp_script y) = Some name ->
   let ok := hd false (Server.save_script y) in
   (exists resp, fst h = Returns resp) /\
   lock_free (Server.app (snd h)) /\
   Server.fs_trace (snd h)
   = Server.fs_trace y
     ++ [Server.FsCreateTemp (Some name); Server.FsSave name ok;
         Server.FsCloseFile name; Server.FsRemove name] /\
   (ok = false ->
    fst h = Returns (Server.mkResponse 500 (Server.ErrorBody "save file" None))
    /\ Server.app (snd h) = Server.app y) /\
   (ok = true ->
    Server.app (snd h)
    = snd (Golang.Transcribe name (form_model c) (form_language c)
             (form_task c) (Server.app y)) /\
    forall err,
      fst (Golang.Transcribe name (form_model c) (form_language c)
             (form_task c) (Server.app y)) = Returns (Err err) ->
      fst h = Returns (Server.mkResponse 500
                         (Server.ErrorBody "transcription" (Some err))))).
Proof.
  intros E Hsize Hl Hg. cbv zeta.
  rewrite (transcribeHandler_run c y file E Hsize). split.
  - intros ->. repeat split.
  - intros name ->. cbv zeta.
    destruct (Golang_Transcribe_returns name (form_model c) (form_language c)
                (form_task c) (Server.app y) Hl Hg) as [(a & Ha) Hl'].
    cbn [fst snd Server.app Server.fs_trace].
    destruct (hd false (Server.save_script y)).
    + rewrite Ha.
      split; [destruct a; eauto|]. split; [exact Hl'|].
      split; [reflexivity|]. split; [discriminate|].
      intros _. split; [reflexivity|].
      intros err Herr. injection Herr as ->. reflexivity.
    + split; [eauto|]. split; [exact Hl|]. split; [reflexivity|].
      split; [intros _; split; reflexivity|discriminate].
Qed.

(** X19. An upload that is accepted and saved reaches the client as one call of
    [Transcribe] on the temporary file, with the model and the task of the
    form or their defaults [base] and [transcribe], and with no language
    when the form has none or an empty one.  The status is 200 exactly when
    that call succeeds and 500 when it returns an error; what goes on the
    wire is the frame of that request. *)
Theorem upload_reaches_client (c : Server.Context) (y : Server.Sys)
    (file : Server.FileHeader) (name : string) :
  Server.form_file c = Some file ->
  Server.Size file <= 100 * 1024 * 1024 ->
  hd None (Server.temp_script y) = Some name ->
  hd false (Server.save_script y) = true ->
  let r := Golang.Transcribe name (form_model c) (form_language c)
             (form_task c) (Server.app y) in
  let h := Server.transcribeHandler c y in
  Server.app (snd h) = snd r /\
  form_language c <> Some ""%string /\
  (Server.form c "model"%string = None -> form_model c = "base"%string) /\
  (Server.form c "task"%string = None -> form_task c = "transcribe"%string) /\
  (Server.form c "language"%string = None \/
   Server.form c "language"%string = Some ""%string -> form_language c = None) /\
  (forall result, fst r = Returns (Ok result) ->
     exists b, fst h = Returns (Server.mkResponse 200 b)) /\
  (forall err, fst r = Returns (Err err) ->
     fst h = Returns (Server.mkResponse 500
                        (Server.ErrorBody "transcription" (Some err)))) /\
  (forall absPath,
     fs_abs (world (Server.app y)) name = Some absPath ->
     fs_stat (world (Server.app y)) absPath <> StatNotExist ->
     exists evs,
       trace (world (Server.app (snd h)))
       = trace (world (Server.app y)) ++ evs /\
       writes_frame_of
         (payload (FileTranscriptionRequest "transcribe" absPath
                     (form_model c) (form_language c) (form_task c))) evs).
Proof.
  intros E Hsize Ht Hs. cbv zeta.
  rewrite (transcribeHandler_run c y file E Hsize), Ht. cbv zeta. rewrite Hs.
  cbn [fst snd Server.app].
  assert (Hlang : form_language c <> Some ""%string).
  { unfold form_language. destruct (Server.form c "language") as [v|];
      [|discriminate].
    destruct (String.eqb_spec v ""); [discriminate|congruence]. }
  split; [reflexivity|]. split; [exact Hlang|].
  split; [intros Hm; unfold form_model; now rewrite Hm|].
  split; [intros Hm; unfold form_task; now rewrite Hm|].
  split; [intros [Hm|Hm]; unfold form_language; rewrite Hm; reflexivity|].
  split; [intros result ->; eauto|]. split; [intros err ->; reflexivity|].
  intros absPath Ha Hst.
  rewrite (Golang_Transcribe_trace name (form_model c) (form_language c)
             (form_task c) (Server.app y) absPath Ha Hst).
  assert (Hn : normalized (form_language c) = form_language c).
  { destruct (form_language c) as [l|] eqn:El; [|reflexivity].
    simpl. destruct (String.eqb_spec l ""); [congruence|reflexivity]. }
  rewrite Hn.
  destruct (Golang_sendRequestWithContext_spec (own_context (Server.app y))
              (FileTranscriptionRequest "transcribe" absPath (form_model c)
                 (form_language c) (form_task c)) (Server.app y))
    as [(evs & Hsf & Hx & _) _].
  exists evs. split; [exact Hx|]. now apply sent_fresh_writes in Hsf.
Qed.

End ServerFacts.

Lemma upload_reaches_client_witness :
  exists b,
    fst (Server.transcribeHandler (H := Demo.lib)
           (Server.mkContext (Some (Server.mkFileHeader "a.wav" 1024))
                             (fun _ => None))
           (Server.mkSys
              (Demo.state_of None
                 [Some (mkPeer (Demo.frame_of "{}") [true; true])] [])
              0 [Some "u1.tmp"%string] [true] []))
    = Returns (Server.mkResponse 200 b).
Proof.
  refine (proj1 (proj2 (proj2 (proj2 (proj2 (proj2
    (upload_reaches_client (H := Demo.lib)
       (Server.mkContext (Some (Server.mkFileHeader "a.wav" 1024))
                         (fun _ => None))
       (Server.mkSys
          (Demo.state_of None
             [Some (mkPeer (Demo.frame_of "{}") [true; true])] [])
          0 [Some "u1.tmp"%string] [true] [])
       (Server.mkFileHeader "a.wav" 1024) "u1.tmp" _ _ _ _)))))) _ _).
  - reflexivity.
  - vm_compute. discriminate.
  - reflexivity.
  - reflexivity.
  - vm_compute. reflexivity.
Defined.

(** Saving the upload fails: the temporary file is closed and removed, and
    nothing is sent to the backend. *)
Lemma transcribeHandler_cleans_up_witness :
  Server.fs_trace (snd
    (Server.transcribeHandler (H := Demo.lib)
       (Server.mkContext (Some (Server.mkFileHeader "a.wav" 1024))
                         (fun _ => None))
       (Server.mkSys
          (Demo.state_of None
             [Some (mkPeer (Demo.frame_of "{}") [true; true])] [])
          0 [Some "u1.tmp"%string] [false] [])))
  = []
    ++ [Server.FsCreateTemp (Some "u1.tmp"%string);
        Server.FsSave "u1.tmp" false;
        Server.FsCloseFile "u1.tmp"; Server.FsRemove "u1.tmp"].
Proof.
  refine (proj1 (proj2 (proj2 ((proj2
    (transcribeHandler_cleans_up (H := Demo.lib)
       (Server.mkContext (Some (Server.mkFileHeader "a.wav" 1024))
                         (fun _ => None))
       (Server.mkSys
          (Demo.state_of None
             [Some (mkPeer (Demo.frame_of "{}") [true; true])] [])
          0 [Some "u1.tmp"%string] [false] [])
       (Server.mkFileHeader "a.wav" 1024) _ _ _ _)
    "u1.tmp"%string _))))).
  - reflexivity.
  - vm_compute. discriminate.
  - reflexivity.
  - intros p E. injection E as <-. intros hb rest E.
    vm_compute in E. injection E as <- _. vm_compute. discriminate.
  - reflexivity.
Defined.

Section ServerMetrics.
Context `{GoLib}.



End ServerMetrics.

